(** * Nutrition and fitness tracker: the nutrition aggregation core

    A shallow embedding of [src/app/page.tsx] (the numeric helpers, the
    food-item normalizer, the meal/day/week aggregation, the copy-forward
    actions, the timeline builder and the FoodData Central macro
    extraction), followed by the properties of the specification.

    Conventions of the embedding.
    - A JavaScript number is a finite value, kept as an exact rational
      ([Qc]), or one of NaN, +Infinity, -Infinity.  Binary64 rounding
      error, overflow and the sign of zero are not represented.
    - The fields of a food item hold JSON scalars ([Val]); an item is a
      JavaScript object used as a map, a [gmap string Val].
    - A day's [date] is the instant (milliseconds since the epoch) that its
      ISO-8601 string denotes; for the strings [toISOString] produces the
      lexicographic order of the strings is the order of the instants.
    - The local time zone is a fixed offset [tz] (milliseconds east of UTC).
    - [uid()] draws from a source of identifiers; the draw counter is
      threaded explicitly. *)

From Stdlib Require Import ZArith QArith Qcanon Qround Lia Lqa Ascii String List.
From Stdlib Require Import Sorting.Permutation Sorting.Sorted.
From Stdlib Require DecimalString DecimalZ DecimalPos.
From stdpp Require Import base option list gmap strings fin_maps.

Local Open Scope Z_scope.

(* ===================================================================== *)
(** ** JavaScript values *)
(* ===================================================================== *)

Module Js.

(** Numbers. *)
Inductive Num : Type :=
| NFin (q : Qc)
| NNaN
| NPosInf
| NNegInf.

(** JSON scalars, plus [undefined]. *)
Inductive Val : Type :=
| VUndef
| VNull
| VBool (b : bool)
| VNum (n : Num)
| VStr (s : string).

Definition Z2Qc (z : Z) : Qc := Q2Qc (inject_Z z).

Definition zero : Qc := 0%Qc.
Definition one : Qc := 1%Qc.
Definition hundred : Qc := Z2Qc 100.
Definition ten : Qc := Z2Qc 10.

(** [Number.isFinite] on a value that is already a number. *)
Definition isFinite (n : Num) : bool :=
  match n with NFin _ => true | _ => false end.

(** *** Characters *)

Definition code (c : ascii) : Z := Z.of_N (N_of_ascii c).

(** White space and line terminators of [StringToNumber] within ASCII. *)
Definition is_ws (c : ascii) : bool :=
  let n := code c in
  (n =? 32) || (n =? 9) || (n =? 10) || (n =? 11) || (n =? 12) || (n =? 13).

Definition digit_of (c : ascii) : option Z :=
  let n := code c in
  if (48 <=? n) && (n <=? 57) then Some (n - 48)
  else if (97 <=? n) && (n <=? 102) then Some (n - 87)
  else if (65 <=? n) && (n <=? 70) then Some (n - 55)
  else None.

Definition is_digit (base : Z) (c : ascii) : bool :=
  match digit_of c with
  | Some d => d <? base
  | None => false
  end.

Fixpoint span (f : ascii -> bool) (l : list ascii) : list ascii * list ascii :=
  match l with
  | [] => ([], [])
  | c :: r =>
      if f c then let '(a, b) := span f r in (c :: a, b) else ([], l)
  end.

Fixpoint drop_ws (l : list ascii) : list ascii :=
  match l with
  | c :: r => if is_ws c then drop_ws r else l
  | [] => []
  end.

Definition trim (l : list ascii) : list ascii :=
  rev (drop_ws (rev (drop_ws l))).

(** Value of a digit string, most significant digit first. *)
Definition digits_value (base : Z) (l : list ascii) : Z :=
  fold_left (fun acc c => acc * base + default 0 (digit_of c)) l 0.

Definition pow10 (e : Z) : Qc :=
  if 0 <=? e then Z2Qc (10 ^ e)
  else Q2Qc (1 # Z.to_pos (10 ^ (- e))).

(** *** ToNumber on strings (StringToNumber) *)

(** [ExponentPart]: [e] or [E], an optional sign, at least one digit, and
    nothing after it.  An absent exponent part is 0. *)
Definition parse_exponent (l : list ascii) : option Z :=
  match l with
  | [] => Some 0
  | c :: r =>
      if (code c =? 101) || (code c =? 69) then
        let '(neg, r') :=
          match r with
          | s :: r' =>
              if code s =? 45 then (true, r')
              else if code s =? 43 then (false, r') else (false, r)
          | [] => (false, r)
          end in
        match span (is_digit 10) r' with
        | (d :: ds, []) =>
            let v := digits_value 10 (d :: ds) in
            Some (if neg then - v else v)
        | _ => None
        end
      else None
  end.

(** [StrUnsignedDecimalLiteral] other than [Infinity]. *)
Definition parse_unsigned_decimal (l : list ascii) : option Qc :=
  let '(ip, r1) := span (is_digit 10) l in
  let '(fp, r2) :=
    match r1 with
    | c :: r => if code c =? 46 then span (is_digit 10) r else ([], r1)
    | [] => ([], r1)
    end in
  match ip, fp with
  | [], [] => None
  | _, _ =>
      match parse_exponent r2 with
      | Some e =>
          let m := digits_value 10 (ip ++ fp) in
          Some (Z2Qc m * pow10 (e - Z.of_nat (length fp)))%Qc
      | None => None
      end
  end.

Definition infinity_chars : list ascii := list_ascii_of_string "Infinity".

Definition list_ascii_eqb (a b : list ascii) : bool :=
  bool_decide (a = b).

Definition parse_signed_decimal (l : list ascii) : Num :=
  let '(neg, body) :=
    match l with
    | s :: r =>
        if code s =? 45 then (true, r)
        else if code s =? 43 then (false, r) else (false, l)
    | [] => (false, l)
    end in
  if list_ascii_eqb body infinity_chars then
    if neg then NNegInf else NPosInf
  else
    match parse_unsigned_decimal body with
    | Some q => NFin (if neg then - q else q)%Qc
    | None => NNaN
    end.

(** [NonDecimalIntegerLiteral]: [0x], [0o], [0b] prefixes, unsigned. *)
Definition parse_radix (l : list ascii) : option Num :=
  match l with
  | z :: p :: d :: ds =>
      if code z =? 48 then
        let base :=
          if (code p =? 120) || (code p =? 88) then Some 16
          else if (code p =? 111) || (code p =? 79) then Some 8
          else if (code p =? 98) || (code p =? 66) then Some 2
          else None in
        match base with
        | Some b =>
            Some (if forallb (is_digit b) (d :: ds)
                  then NFin (Z2Qc (digits_value b (d :: ds)))
                  else NNaN)
        | None => None
        end
      else None
  | _ => None
  end.

Definition StringToNumber (s : string) : Num :=
  match trim (list_ascii_of_string s) with
  | [] => NFin zero
  | l =>
      match parse_radix l with
      | Some n => n
      | None => parse_signed_decimal l
      end
  end.

(** [Number(v)]. *)
Definition ToNumber (v : Val) : Num :=
  match v with
  | VUndef => NNaN
  | VNull => NFin zero
  | VBool b => NFin (if b then one else zero)
  | VNum n => n
  | VStr s => StringToNumber s
  end.

(** *** Number to string (Number::toString, radix 10) *)

Definition Z_to_string (z : Z) : string :=
  DecimalString.NilZero.string_of_int (Z.to_int z).

Definition digit_char (d : Z) : ascii := ascii_of_N (Z.to_N (48 + d)).

(** For [0 < x < 1]: the number [j] of zeros right after the decimal
    point, so that [10^(-j-1) <= x < 10^(-j)]. *)
Fixpoint leading_zeros (fuel : nat) (x : Qc) (j : Z) : Z :=
  match fuel with
  | O => j
  | S fuel' =>
      if Qle_bool 1 (x * ten)%Qc then j
      else leading_zeros fuel' (x * ten)%Qc (j + 1)
  end.

(** The decimal exponent [n] of [x > 0]: [10^(n-1) <= x < 10^n]. *)
Definition decimal_exponent (x : Qc) : Z :=
  if Qle_bool 1 x then Z.of_nat (String.length (Z_to_string (Qfloor x)))
  else - leading_zeros (Pos.to_nat (Qden x)) x 0.

(** Significant digits of [y] in [[1/10, 1)], at most [fuel] of them. *)
Fixpoint significant_digits (fuel : nat) (y : Qc) : list Z :=
  match fuel with
  | O => []
  | S fuel' =>
      let d := Qfloor (y * ten)%Qc in
      let y' := (y * ten - Z2Qc d)%Qc in
      if Qeq_bool y' 0 then [d] else d :: significant_digits fuel' y'
  end.

Definition chars (ds : list Z) : string :=
  string_of_list_ascii (map digit_char ds).

Definition zeros (n : Z) : string :=
  string_of_list_ascii (repeat "0"%char (Z.to_nat n)).

Definition positive_to_string (x : Qc) : string :=
  let n := decimal_exponent x in
  let ds := significant_digits 17 (x * pow10 (- n))%Qc in
  let k := Z.of_nat (length ds) in
  if (k <=? n) && (n <=? 21) then chars ds +:+ zeros (n - k)
  else if (0 <? n) && (n <=? 21) then
    chars (take (Z.to_nat n) ds) +:+ "." +:+ chars (drop (Z.to_nat n) ds)
  else if (-6 <? n) && (n <=? 0) then "0." +:+ zeros (- n) +:+ chars ds
  else
    let e := n - 1 in
    let es := (if 0 <=? e then "+" else "-") +:+ Z_to_string (Z.abs e) in
    match ds with
    | [d] => chars [d] +:+ "e" +:+ es
    | d :: r => chars [d] +:+ "." +:+ chars r +:+ "e" +:+ es
    | [] => "0"
    end.

Definition NumberToString (n : Num) : string :=
  match n with
  | NNaN => "NaN"
  | NPosInf => "Infinity"
  | NNegInf => "-Infinity"
  | NFin q =>
      if Qeq_bool q 0 then "0"
      else if Qle_bool q 0 then "-" +:+ positive_to_string (- q)%Qc
      else positive_to_string q
  end.

(** [String(v)]. *)
Definition ToString (v : Val) : string :=
  match v with
  | VUndef => "undefined"
  | VNull => "null"
  | VBool b => if b then "true" else "false"
  | VNum n => NumberToString n
  | VStr s => s
  end.

(** [ToBoolean]. *)
Definition truthy (v : Val) : bool :=
  match v with
  | VUndef | VNull => false
  | VBool b => b
  | VNum (NFin q) => negb (Qeq_bool q 0)
  | VNum NNaN => false
  | VNum _ => true
  | VStr s => negb (String.eqb s "")
  end.

(** [a || b] and [a ?? b]. *)
Definition or_else (a b : Val) : Val := if truthy a then a else b.

Definition nullish (v : Val) : bool :=
  match v with VUndef | VNull => true | _ => false end.

Definition coalesce (a b : Val) : Val := if nullish a then b else a.




(** [Math.round]: the nearest integer, ties towards +Infinity. *)
Definition Math_round (x : Qc) : Z := Qfloor (x + Q2Qc (1 # 2))%Qc.

Definition Math_max (a b : Qc) : Qc := if Qle_bool a b then b else a.
Definition Math_min (a b : Qc) : Qc := if Qle_bool a b then a else b.

End Js.

Import Js.

Abbreviation Obj := (gmap string Val).

(** An integer as a JavaScript value. *)
Definition numV (z : Z) : Val := VNum (NFin (Z2Qc z)).

(* ===================================================================== *)
(** ** Numeric helpers (page.tsx, [num], [round1], [clamp]) *)
(* ===================================================================== *)

Definition num (v : Val) : Qc :=
  match ToNumber v with
  | NFin n => n
  | _ => zero
  end.

(** One-decimal rounding: [Math.round(x * 10) / 10]. *)
Definition round1 (n : Val) : Qc :=
  match ToNumber n with
  | NFin x => (Z2Qc (Math_round (x * ten)) / ten)%Qc
  | _ => zero
  end.

Definition clamp (v : Val) (min max : Qc) : Qc :=
  match ToNumber v with
  | NFin n => Math_min max (Math_max min n)
  | _ => min
  end.

(* ===================================================================== *)
(** ** Data model *)
(* ===================================================================== *)

Definition MEALS : list string := ["Breakfast"; "Lunch"; "Dinner"; "Snack"].

(** A meal object; [items] may be missing. *)
Record Meal : Type := { items : option (list Obj) }.

Record Totals : Type :=
  { calories : Qc; protein : Qc; carbs : Qc; fat : Qc }.

(** A day of the nutrition collection.  [date] is [None] when the field
    is missing; [meals] is [None] for records without a meals object. *)
Record Day : Type :=
  { id : Val;
    date : option Z;
    meals : option (gmap string Meal);
    notes : Val;
    weight : Val }.

Definition emptyMeals : gmap string Meal :=
  fold_left (fun acc m => <[m := {| items := Some [] |}]> acc) MEALS ∅.

(* ===================================================================== *)
(** ** Food-item normalizer *)
(* ===================================================================== *)

(** [it?.k]: the property [k] of an item that may be null or undefined. *)
Definition get (it : option Obj) (k : string) : Val :=
  match it with
  | Some o => default VUndef (o !! k)
  | None => VUndef
  end.

(** [{...it}]: spreading null or undefined adds no property. *)
Definition spread (it : option Obj) : Obj := default ∅ it.

(** [v === undefined || v === null || v === ""]. *)
Definition unset (v : Val) : bool :=
  match v with
  | VUndef | VNull => true
  | VStr s => String.eqb s ""
  | _ => false
  end.

Definition normalizeFoodItem (it : option Obj) : Obj :=
  let qty :=
    if unset (get it "qty") then one else clamp (get it "qty") zero hundred in
  <["fat" := coalesce (get it "fat") (VStr "")]>
    (<["carbs" := coalesce (get it "carbs") (VStr "")]>
       (<["protein" := coalesce (get it "protein") (VStr "")]>
          (<["calories" := coalesce (get it "calories") (VStr "")]>
             (<["qty" := VNum (NFin qty)]> (spread it))))).

(* ===================================================================== *)
(** ** Aggregation engine *)
(* ===================================================================== *)

Definition zeroTotals : Totals :=
  {| calories := zero; protein := zero; carbs := zero; fat := zero |}.

(** [meal?.items || []]. *)
Definition itemsOf (meal : option Meal) : list Obj :=
  match meal with
  | Some m => default [] (items m)
  | None => []
  end.

Definition addItem (t : Totals) (it : Obj) : Totals :=
  let q := clamp (get (Some it) "qty") zero hundred in
  {| calories := calories t + num (get (Some it) "calories") * q;
     protein := protein t + num (get (Some it) "protein") * q;
     carbs := carbs t + num (get (Some it) "carbs") * q;
     fat := fat t + num (get (Some it) "fat") * q |}%Qc.

Definition roundTotals (t : Totals) : Totals :=
  {| calories := round1 (VNum (NFin (calories t)));
     protein := round1 (VNum (NFin (protein t)));
     carbs := round1 (VNum (NFin (carbs t)));
     fat := round1 (VNum (NFin (fat t))) |}.

Definition calcMealTotals (meal : option Meal) : Totals :=
  let its := map (fun it => normalizeFoodItem (Some it)) (itemsOf meal) in
  let totals := fold_left addItem its zeroTotals in
  roundTotals totals.

Definition addMeal (ms : gmap string Meal) (t : Totals) (m : string) : Totals :=
  let mt := calcMealTotals (ms !! m) in
  {| calories := calories t + num (VNum (NFin (calories mt)));
     protein := protein t + num (VNum (NFin (protein mt)));
     carbs := carbs t + num (VNum (NFin (carbs mt)));
     fat := fat t + num (VNum (NFin (fat mt))) |}%Qc.

(** [day?.meals || emptyMeals()]. *)
Definition mealsOf (day : option Day) : gmap string Meal :=
  match day with
  | Some d => default emptyMeals (meals d)
  | None => emptyMeals
  end.

Definition calcDayTotals (day : option Day) : Totals :=
  let totals := fold_left (addMeal (mealsOf day)) MEALS zeroTotals in
  roundTotals totals.

(* ===================================================================== *)
(** ** FoodData Central: macro extraction ([extractMacrosFromFDC]) *)
(* ===================================================================== *)

Module Fdc.













End Fdc.

(* ===================================================================== *)
(** ** Dates *)
(* ===================================================================== *)

(** What the code takes from its host: the local time zone, the source of
    identifiers behind [uid()], the clock, and the short date label of the
    host's locale ([toLocaleDateString] with month and day). *)
Record Host : Type :=
  { tz : Z;
    rand : nat -> string;
    now : Z;
    shortDateLabel : Z -> string }.

Module JsDate.

Definition msPerDay : Z := 86400000.

(** The civil date of a day within its 400-year era. *)
Definition civil_of_doe (doe : Z) : Z * Z * Z :=
  let yoe := (doe - doe / 1460 + doe / 36524 - doe / 146096) / 365 in
  let doy := doe - (365 * yoe + yoe / 4 - yoe / 100) in
  let mp := (5 * doy + 2) / 153 in
  let d := doy - (153 * mp + 2) / 5 + 1 in
  let m := if mp <? 10 then mp + 3 else mp - 9 in
  (if m <=? 2 then yoe + 1 else yoe, m, d).

(** The civil date (year, month 1 to 12, day of month) of a day number,
    counted from 1970-01-01, in the proleptic Gregorian calendar. *)
Definition civil_from_days (z : Z) : Z * Z * Z :=
  let z := z + 719468 in
  let era := z / 146097 in
  let '(y, m, d) := civil_of_doe (z mod 146097) in
  (y + era * 400, m, d).

Definition days_from_civil (ymd : Z * Z * Z) : Z :=
  let '(y, m, d) := ymd in
  let y := if m <=? 2 then y - 1 else y in
  let era := y / 400 in
  let yoe := y mod 400 in
  let doy := (153 * (if 2 <? m then m - 3 else m + 9) + 2) / 5 + d - 1 in
  let doe := yoe * 365 + yoe / 4 - yoe / 100 + doy in
  era * 146097 + doe - 719468.

(** The local day number of an instant. *)
Definition localDay (h : Host) (t : Z) : Z := (t + tz h) / msPerDay.

Definition getFullYear (h : Host) (t : Z) : Z :=
  (civil_from_days (localDay h t)).1.1.

(** Months count from 0. *)
Definition getMonth (h : Host) (t : Z) : Z :=
  (civil_from_days (localDay h t)).1.2 - 1.

Definition getDate (h : Host) (t : Z) : Z :=
  (civil_from_days (localDay h t)).2.


(** [String(n).padStart(2, "0")]. *)
Definition pad (n : Z) : string :=
  let s := Z_to_string n in
  if (String.length s <? 2)%nat then "0" +:+ s else s.

(** The local calendar date as [YYYY-MM-DD]. *)
Definition ymdString (h : Host) (t : Z) : string :=
  Z_to_string (getFullYear h t) +:+ "-" +:+ pad (getMonth h t + 1)
    +:+ "-" +:+ pad (getDate h t).

(** The value of a date input, [YYYY-MM-DD] with a real calendar date. *)
Definition parseDateInput (s : string) : option (Z * Z * Z) :=
  match list_ascii_of_string s with
  | [y1; y2; y3; y4; s1; m1; m2; s2; d1; d2] =>
      if forallb (is_digit 10) [y1; y2; y3; y4; m1; m2; d1; d2]
         && (code s1 =? 45) && (code s2 =? 45)
      then
        let ymd := (digits_value 10 [y1; y2; y3; y4],
                    digits_value 10 [m1; m2],
                    digits_value 10 [d1; d2]) in
        if bool_decide (civil_from_days (days_from_civil ymd) = ymd)
        then Some ymd else None
      else None
  | _ => None
  end.

End JsDate.

Import JsDate.

(** [new Date(dateStr + "T00:00:00").toISOString()]: local midnight of the
    chosen date; [None] when the text is no date ([toISOString] throws). *)
Definition isoDateFromInput (h : Host) (dateStr : string) : option Z :=
  match parseDateInput dateStr with
  | Some ymd => Some (days_from_civil ymd * msPerDay - tz h)
  | None => None
  end.

(** Year, month and day of the two dates agree.  A missing date is an
    invalid [Date], whose fields are NaN and equal nothing. *)
Definition sameDayISO (h : Host) (aISO bISO : option Z) : bool :=
  match aISO, bISO with
  | Some a, Some b =>
      (getFullYear h a =? getFullYear h b)
      && (getMonth h a =? getMonth h b)
      && (getDate h a =? getDate h b)
  | _, _ => false
  end.

Definition toISODateInput (h : Host) (iso : option Z) : string :=
  match iso with
  | Some t => ymdString h t
  | None => "NaN-NaN-NaN"
  end.

(** [a.date < b.date] on two dates; false as soon as one is missing. *)
Definition date_lt (a b : option Z) : bool :=
  match a, b with
  | Some x, Some y => x <? y
  | _, _ => false
  end.

(* ===================================================================== *)
(** ** Arrays *)
(* ===================================================================== *)

(** [Array.prototype.sort] with a comparator, as a stable insertion sort:
    [x] goes before the first [y] with [cmp x y <= 0]. *)
Fixpoint insert_by {A : Type} (cmp : A -> A -> Z) (x : A) (l : list A)
  : list A :=
  match l with
  | [] => [x]
  | y :: r => if cmp x y <=? 0 then x :: y :: r else y :: insert_by cmp x r
  end.

Definition sort_by {A : Type} (cmp : A -> A -> Z) (l : list A) : list A :=
  foldr (insert_by cmp) [] l.

(** [Array.prototype.findIndex]; [None] stands for -1. *)
Fixpoint findIndex {A : Type} (p : A -> bool) (l : list A) : option nat :=
  match l with
  | [] => None
  | x :: r => if p x then Some O else S <$> findIndex p r
  end.


(* ===================================================================== *)
(** ** Identifiers and exceptions *)
(* ===================================================================== *)

(** A computation that may draw identifiers and may throw: it takes the
    number of identifiers drawn so far, and returns [None] when it throws. *)
Definition M (A : Type) : Type := nat -> option (A * nat).

Definition ret {A : Type} (a : A) : M A := fun n => Some (a, n).

Definition throw {A : Type} : M A := fun _ => None.

Definition bind {A B : Type} (c : M A) (k : A -> M B) : M B :=
  fun n =>
    match c n with
    | Some (a, n') => k a n'
    | None => None
    end.

Notation "x <- c ;; k" := (bind c (fun x => k))
  (at level 100, c at next level, right associativity).

(** [uid()]. *)
Definition uid (h : Host) : M string := fun n => Some (rand h n, S n).

Definition lift {A : Type} (o : option A) : M A :=
  match o with
  | Some a => ret a
  | None => throw
  end.

(** [Array.prototype.map] with a callback that draws identifiers. *)
Fixpoint traverse {A B : Type} (f : A -> M B) (l : list A) : M (list B) :=
  match l with
  | [] => ret []
  | x :: r => y <- f x ;; ys <- traverse f r ;; ret (y :: ys)
  end.

(* ===================================================================== *)
(** ** Nutrition actions on the day collection *)
(* ===================================================================== *)

(** The argument of [upsertDay]: the properties the patch object has. *)
Record Patch : Type :=
  { p_meals : option (gmap string Meal);
    p_notes : option Val;
    p_weight : option Val }.

Definition mealsPatch (ms : gmap string Meal) : Patch :=
  {| p_meals := Some ms; p_notes := None; p_weight := None |}.

(** [{ ...d, ...patch }]. *)
Definition applyPatch (d : Day) (p : Patch) : Day :=
  {| id := id d;
     date := date d;
     meals := match p_meals p with Some ms => Some ms | None => meals d end;
     notes := default (notes d) (p_notes p);
     weight := default (weight d) (p_weight p) |}.

(** [{ id, date: dayISO, meals: emptyMeals(), notes: "", weight: "" }]. *)
Definition blankDay (i : Val) (dayISO : Z) : Day :=
  {| id := i; date := Some dayISO; meals := Some emptyMeals;
     notes := VStr ""; weight := VStr "" |}.

(** Newest first: [(a, b) => (a.date < b.date ? 1 : -1)]. *)
Definition newestFirst (a b : Day) : Z :=
  if date_lt (date a) (date b) then 1 else -1.


(** The state updater of [upsertDay], for the day [dayISO]. *)
Definition upsertAt (h : Host) (dayISO : Z) (patch : Patch)
  (days : list Day) : M (list Day) :=
  match findIndex (fun d => sameDayISO h (date d) (Some dayISO)) days with
  | None =>
      i <- uid h ;;
      ret (sort_by newestFirst
             (applyPatch (blankDay (VStr i) dayISO) patch :: days))
  | Some idx =>
      ret (alter (fun d => applyPatch d patch) idx days)
  end.

Definition upsertDay (h : Host) (nutriDate : string) (patch : Patch)
  (days : list Day) : M (list Day) :=
  dayISO <- lift (isoDateFromInput h nutriDate) ;;
  upsertAt h dayISO patch days.

(** [days.filter((d) => d.date !== dateISO)]. *)
Definition deleteDay (dateISO : option Z) (days : list Day) : list Day :=
  filter (fun d => date d <> dateISO) days.

(** The day shown: the stored day of the chosen date, or a blank one. *)
Definition selectedDay (h : Host) (nutriDate : string) (days : list Day)
  : option Day :=
  match isoDateFromInput h nutriDate with
  | Some dayISO =>
      Some (default (blankDay VNull dayISO)
              (List.find (fun d => sameDayISO h (date d) (Some dayISO)) days))
  | None => None
  end.

(** [selectedDay.meals || emptyMeals()]. *)
Definition mealsOrEmpty (d : Day) : gmap string Meal :=
  default emptyMeals (meals d).

(** [meals[mealName]?.items || []]. *)
Definition mealItems (ms : gmap string Meal) (mealName : string) : list Obj :=
  itemsOf (ms !! mealName).

(** [a === b] on scalars. *)
Definition strict_eq (a b : Val) : bool :=
  match a, b with
  | VUndef, VUndef | VNull, VNull => true
  | VBool x, VBool y => Bool.eqb x y
  | VNum (NFin x), VNum (NFin y) => Qeq_bool x y
  | VNum NPosInf, VNum NPosInf | VNum NNegInf, VNum NNegInf => true
  | VStr x, VStr y => String.eqb x y
  | _, _ => false
  end.

(** [{ ...it, ...patch }] on items. *)
Definition merge (it patch : Obj) : Obj := patch ∪ it.

Definition addFoodToMeal (h : Host) (nutriDate mealName : string)
  (item : Obj) (days : list Day) : M (list Day) :=
  sel <- lift (selectedDay h nutriDate days) ;;
  let ms := mealsOrEmpty sel in
  let prev := mealItems ms mealName in
  i <- uid h ;;
  let fresh := normalizeFoodItem (Some (<["id" := VStr i]> item)) in
  upsertDay h nutriDate
    (mealsPatch (<[mealName := {| items := Some (fresh :: prev) |}]> ms)) days.

Definition updateFoodItem (h : Host) (nutriDate mealName : string)
  (itemId : Val) (patch : Obj) (days : list Day) : M (list Day) :=
  sel <- lift (selectedDay h nutriDate days) ;;
  let ms := mealsOrEmpty sel in
  let its :=
    map (fun it =>
           if strict_eq (get (Some it) "id") itemId
           then normalizeFoodItem (Some (merge it patch)) else it)
        (mealItems ms mealName) in
  upsertDay h nutriDate
    (mealsPatch (<[mealName := {| items := Some its |}]> ms)) days.

Definition removeFoodItem (h : Host) (nutriDate mealName : string)
  (itemId : Val) (days : list Day) : M (list Day) :=
  sel <- lift (selectedDay h nutriDate days) ;;
  let ms := mealsOrEmpty sel in
  let its :=
    List.filter (fun it => negb (strict_eq (get (Some it) "id") itemId))
                (mealItems ms mealName) in
  upsertDay h nutriDate
    (mealsPatch (<[mealName := {| items := Some its |}]> ms)) days.

(* ===================================================================== *)
(** ** Copy-forward *)
(* ===================================================================== *)

(** The most recent day before the chosen one:
    [days.filter((d) => new Date(d.date) < dayDate).sort(newest first)[0]]. *)
Definition previousDay (dayISO : Z) (days : list Day) : option Day :=
  head (sort_by newestFirst
          (List.filter (fun d => date_lt (date d) (Some dayISO)) days)).

(** What [JSON.parse(JSON.stringify(v))] makes of a property: [undefined]
    is dropped, a number that is not finite becomes [null]. *)
Definition jsonVal (v : Val) : option Val :=
  match v with
  | VUndef => None
  | VNum n => if isFinite n then Some v else Some VNull
  | _ => Some v
  end.

Definition jsonItem (it : Obj) : Obj := omap jsonVal it.

Definition jsonMeal (m : Meal) : Meal :=
  {| items := map jsonItem <$> items m |}.

Definition jsonMeals (ms : gmap string Meal) : gmap string Meal :=
  jsonMeal <$> ms.

(** [normalizeFoodItem({ ...it, id: uid() })]. *)
Definition copyItem (h : Host) (it : Obj) : M Obj :=
  i <- uid h ;;
  ret (normalizeFoodItem (Some (<["id" := VStr i]> it))).

(** One turn of the loop over [MEALS]:
    [mealsCopy[m].items = (mealsCopy[m].items || []).map(...)];
    reading [items] of a meal that is not there throws. *)
Definition copyMealInto (h : Host) (mealsCopy : gmap string Meal)
  (m : string) : M (gmap string Meal) :=
  meal <- lift (mealsCopy !! m) ;;
  its <- traverse (copyItem h) (default [] (items meal)) ;;
  ret (<[m := {| items := Some its |}]> mealsCopy).

Fixpoint forEachMeal (h : Host) (names : list string)
  (mealsCopy : gmap string Meal) : M (gmap string Meal) :=
  match names with
  | [] => ret mealsCopy
  | m :: rest =>
      mealsCopy' <- copyMealInto h mealsCopy m ;;
      forEachMeal h rest mealsCopy'
  end.

Definition copyMealsFromPreviousDay (h : Host) (nutriDate : string)
  (days : list Day) : M (list Day) :=
  dayISO <- lift (isoDateFromInput h nutriDate) ;;
  match previousDay dayISO days with
  | None => ret days
  | Some prev =>
      mealsCopy <- forEachMeal h MEALS (jsonMeals (mealsOrEmpty prev)) ;;
      upsertDay h nutriDate (mealsPatch mealsCopy) days
  end.

(** [prev.meals?.[mealName]?.items || []]. *)
Definition previousItems (prev : Day) (mealName : string) : list Obj :=
  match meals prev with
  | Some ms => mealItems ms mealName
  | None => []
  end.

Definition copyMealFromPreviousDay (h : Host) (nutriDate mealName : string)
  (mode : string) (days : list Day) : M (list Day) :=
  dayISO <- lift (isoDateFromInput h nutriDate) ;;
  match previousDay dayISO days with
  | None => ret days
  | Some prev =>
      prevMealItems <- traverse (copyItem h) (previousItems prev mealName) ;;
      sel <- lift (selectedDay h nutriDate days) ;;
      let ms := mealsOrEmpty sel in
      let current := mealItems ms mealName in
      let its :=
        if String.eqb mode "append" then prevMealItems ++ current
        else prevMealItems in
      upsertDay h nutriDate
        (mealsPatch (<[mealName := {| items := Some its |}]> ms)) days
  end.

(** [importData]: the parsed [nutritionDays], when it is an array, replaces
    the collection as it is. *)
Definition importData (nd : option (list Day)) (days : list Day) : list Day :=
  match nd with
  | Some imported => imported
  | None => days
  end.

(* ===================================================================== *)
(** ** The state of the nutrition tab *)
(* ===================================================================== *)

Record State : Type :=
  { nutritionDays : list Day;
    nutriDate : string;
    drawn : nat }.

Inductive Action : Type :=
| SetNutriDate (dateStr : string)
| EditWeight (w : Val)
| EditNotes (n : Val)
| DeleteDay (dateISO : option Z)
| AddFood (mealName : string) (item : Obj)
| UpdateFood (mealName : string) (itemId : Val) (patch : Obj)
| RemoveFood (mealName : string) (itemId : Val)
| CopyMeals
| CopyMeal (mealName mode : string)
| Import (nd : option (list Day)).

(** An event handler that throws leaves the state as it was. *)
Definition run (c : M (list Day)) (st : State) : State :=
  match c (drawn st) with
  | Some (days, n) =>
      {| nutritionDays := days; nutriDate := nutriDate st; drawn := n |}
  | None => st
  end.

Definition setDays (days : list Day) (st : State) : State :=
  {| nutritionDays := days; nutriDate := nutriDate st; drawn := drawn st |}.

Definition step (h : Host) (st : State) (a : Action) : State :=
  let days := nutritionDays st in
  let on := nutriDate st in
  match a with
  | SetNutriDate s =>
      {| nutritionDays := days; nutriDate := s; drawn := drawn st |}
  | EditWeight w =>
      run (upsertDay h on
             {| p_meals := None; p_notes := None; p_weight := Some w |} days)
          st
  | EditNotes n =>
      run (upsertDay h on
             {| p_meals := None; p_notes := Some n; p_weight := None |} days)
          st
  | DeleteDay dateISO => setDays (deleteDay dateISO days) st
  | AddFood m item => run (addFoodToMeal h on m item days) st
  | UpdateFood m i patch => run (updateFoodItem h on m i patch days) st
  | RemoveFood m i => run (removeFoodItem h on m i days) st
  | CopyMeals => run (copyMealsFromPreviousDay h on days) st
  | CopyMeal m mode => run (copyMealFromPreviousDay h on m mode days) st
  | Import nd => setDays (importData nd days) st
  end.

Definition isImport (a : Action) : bool :=
  match a with
  | Import _ => true
  | _ => false
  end.

(** A fresh installation: no day stored yet. *)
Definition initial (today : string) : State :=
  {| nutritionDays := []; nutriDate := today; drawn := 0 |}.

(** The states the actions accepted by [allowed] lead to. *)
Inductive reachable (h : Host) (allowed : Action -> bool) : State -> Prop :=
| reachable_initial today : reachable h allowed (initial today)
| reachable_step st a :
    reachable h allowed st -> allowed a = true ->
    reachable h allowed (step h st a).

(** No two days of the collection fall on the same calendar date. *)
Definition oneDayPerDate (h : Host) (days : list Day) : Prop :=
  forall (i j : nat) (a b : Day),
    days !! i = Some a -> days !! j = Some b ->
    sameDayISO h (date a) (date b) = true -> i = j.

(* ===================================================================== *)
(** ** Weekly averages ([WeeklyAverages]) *)
(* ===================================================================== *)







(* ===================================================================== *)
(** ** Macro timeline ([buildMacroTimeline]) *)
(* ===================================================================== *)


Module Timeline.

Record Point : Type :=
  { iso : option Z;
    dateLabel : string;
    calories : Qc;
    protein : Qc;
    carbs : Qc;
    fat : Qc;
    weight : Val }.


End Timeline.




(* ===================================================================== *)
(** ** Copy-forward over a store of objects *)
(* ===================================================================== *)

(** The same actions with the objects of the program held in a store and
    named by references, so that an assignment to a property of an object
    is seen through every reference to it. *)
Module Refs.

Definition loc : Type := nat.

(** A day object; [d_meals] refers to its meals object. *)
Record DayObj : Type :=
  { d_id : Val;
    d_date : option Z;
    d_meals : option loc;
    d_notes : Val;
    d_weight : Val }.

Inductive Cell : Type :=
| CItem (o : Obj)
| CArray (ls : list loc)
| CMeal (its : option loc)
| CMeals (ms : gmap string loc)
| CDay (d : DayObj).

Record Store : Type := { cells : gmap loc Cell; ids : nat }.

(** A computation on the store; it returns [None] when it throws, and the
    store as it then is. *)
Definition R (A : Type) : Type := Store -> option A * Store.

Definition pure {A : Type} (a : A) : R A := fun s => (Some a, s).

Definition raise {A : Type} : R A := fun s => (None, s).

Definition andThen {A B : Type} (c : R A) (k : A -> R B) : R B :=
  fun s =>
    match c s with
    | (Some a, s') => k a s'
    | (None, s') => (None, s')
    end.

Notation "x <~ c ;; k" := (andThen c (fun x => k))
  (at level 100, c at next level, right associativity).

Definition orRaise {A : Type} (o : option A) : R A :=
  match o with
  | Some a => pure a
  | None => raise
  end.

(** A new object. *)
Definition alloc (c : Cell) : R loc :=
  fun s =>
    let l := fresh (dom (cells s)) in
    (Some l, {| cells := <[l := c]> (cells s); ids := ids s |}).

Definition load (l : loc) : R Cell := fun s => (cells s !! l, s).

(** An assignment to an object that exists. *)
Definition store (l : loc) (c : Cell) : R unit :=
  fun s => (Some tt, {| cells := <[l := c]> (cells s); ids := ids s |}).

Definition uid (h : Host) : R string :=
  fun s => (Some (rand h (ids s)), {| cells := cells s; ids := S (ids s) |}).

Definition loadItem (l : loc) : R Obj :=
  c <~ load l ;; match c with CItem o => pure o | _ => raise end.

Definition loadArray (l : loc) : R (list loc) :=
  c <~ load l ;; match c with CArray ls => pure ls | _ => raise end.

Definition loadMeal (l : loc) : R (option loc) :=
  c <~ load l ;; match c with CMeal its => pure its | _ => raise end.

Definition loadMeals (l : loc) : R (gmap string loc) :=
  c <~ load l ;; match c with CMeals ms => pure ms | _ => raise end.

Definition loadDay (l : loc) : R DayObj :=
  c <~ load l ;; match c with CDay d => pure d | _ => raise end.

Fixpoint mapR {A B : Type} (f : A -> R B) (l : list A) : R (list B) :=
  match l with
  | [] => pure []
  | x :: r => y <~ f x ;; ys <~ mapR f r ;; pure (y :: ys)
  end.

Fixpoint forEach {A : Type} (f : A -> R unit) (l : list A) : R unit :=
  match l with
  | [] => pure tt
  | x :: r => _ <~ f x ;; forEach f r
  end.

(** [emptyMeals()]: the accumulator object is filled in place. *)
Definition emptyMeals : R loc :=
  acc <~ alloc (CMeals ∅) ;;
  _ <~ forEach (fun m =>
                  a <~ alloc (CArray []) ;;
                  lm <~ alloc (CMeal (Some a)) ;;
                  ms <~ loadMeals acc ;;
                  store acc (CMeals (<[m := lm]> ms)))
               MEALS ;;
  pure acc.

(** [JSON.parse(JSON.stringify(v))]: every object is built anew. *)
Definition cloneItem (l : loc) : R loc :=
  o <~ loadItem l ;; alloc (CItem (jsonItem o)).

Definition cloneArray (l : loc) : R loc :=
  ls <~ loadArray l ;; ls' <~ mapR cloneItem ls ;; alloc (CArray ls').

Definition cloneMeal (l : loc) : R loc :=
  its <~ loadMeal l ;;
  its' <~ match its with
          | Some a => a' <~ cloneArray a ;; pure (Some a')
          | None => pure None
          end ;;
  alloc (CMeal its').

Definition cloneEntry (kv : string * loc) : R (string * loc) :=
  lm <~ cloneMeal kv.2 ;; pure (kv.1, lm).

Definition cloneMeals (l : loc) : R loc :=
  ms <~ loadMeals l ;;
  kvs <~ mapR cloneEntry (map_to_list ms) ;;
  alloc (CMeals (list_to_map kvs)).

(** [normalizeFoodItem({ ...it, id: uid() })]: a new object. *)
Definition copyItem (h : Host) (l : loc) : R loc :=
  it <~ loadItem l ;;
  i <~ uid h ;;
  alloc (CItem (normalizeFoodItem (Some (<["id" := VStr i]> it)))).

(** [mealsCopy[m].items = (mealsCopy[m].items || []).map(...)]: the
    [items] property of the meal object is assigned. *)
Definition copyMealInto (h : Host) (mealsCopy : loc) (m : string) : R unit :=
  ms <~ loadMeals mealsCopy ;;
  lm <~ orRaise (ms !! m) ;;
  its <~ loadMeal lm ;;
  ls <~ match its with
        | Some a => loadArray a
        | None => pure []
        end ;;
  ls' <~ mapR (copyItem h) ls ;;
  arr <~ alloc (CArray ls') ;;
  store lm (CMeal (Some arr)).

Definition loadDayAt (l : loc) : R (loc * DayObj) :=
  d <~ loadDay l ;; pure (l, d).

Definition newestFirst (a b : loc * DayObj) : Z :=
  if date_lt (d_date a.2) (d_date b.2) then 1 else -1.

(** The most recent earlier day, with its reference. *)
Definition previousDay (dayISO : Z) (daysRef : loc) : R (option (loc * DayObj)) :=
  ls <~ loadArray daysRef ;;
  ds <~ mapR loadDayAt ls ;;
  pure (head (sort_by newestFirst
                (List.filter (fun p => date_lt (d_date p.2) (Some dayISO)) ds))).

(** [upsertDay({ meals })]: the collection becomes a new array that holds
    a new day object in place of, or next to, the old ones. *)
Definition upsertDay (h : Host) (nutriDate : string) (mealsRef : loc)
  (daysRef : loc) : R loc :=
  dayISO <~ orRaise (isoDateFromInput h nutriDate) ;;
  ls <~ loadArray daysRef ;;
  ds <~ mapR loadDayAt ls ;;
  match findIndex (fun p => sameDayISO h (d_date p.2) (Some dayISO)) ds with
  | None =>
      i <~ uid h ;;
      _ <~ emptyMeals ;;
      let d := {| d_id := VStr i; d_date := Some dayISO;
                  d_meals := Some mealsRef;
                  d_notes := VStr ""; d_weight := VStr "" |} in
      l <~ alloc (CDay d) ;;
      alloc (CArray (map fst (sort_by newestFirst ((l, d) :: ds))))
  | Some idx =>
      p <~ orRaise (ds !! idx) ;;
      let d := {| d_id := d_id p.2; d_date := d_date p.2;
                  d_meals := Some mealsRef;
                  d_notes := d_notes p.2; d_weight := d_weight p.2 |} in
      l <~ alloc (CDay d) ;;
      alloc (CArray (<[idx := l]> ls))
  end.

(** The collection after the action; the reference it had when there is
    nothing to copy. *)
Definition copyMealsFromPreviousDay (h : Host) (nutriDate : string)
  (daysRef : loc) : R loc :=
  dayISO <~ orRaise (isoDateFromInput h nutriDate) ;;
  prev <~ previousDay dayISO daysRef ;;
  match prev with
  | None => pure daysRef
  | Some (_, p) =>
      src <~ match d_meals p with
             | Some ms => pure ms
             | None => emptyMeals
             end ;;
      mealsCopy <~ cloneMeals src ;;
      _ <~ forEach (copyMealInto h mealsCopy) MEALS ;;
      upsertDay h nutriDate mealsCopy daysRef
  end.

(** *** What a reference denotes in a store *)

Definition viewItems (σ : gmap loc Cell) (a : loc) : option (list Obj) :=
  match σ !! a with
  | Some (CArray ls) =>
      mapM (fun l => match σ !! l with
                     | Some (CItem o) => Some o
                     | _ => None
                     end) ls
  | _ => None
  end.

Definition viewMeal (σ : gmap loc Cell) (l : loc) : option Meal :=
  match σ !! l with
  | Some (CMeal None) => Some {| items := None |}
  | Some (CMeal (Some a)) =>
      its ← viewItems σ a; Some {| items := Some its |}
  | _ => None
  end.

(** A map of optional values that are all there. *)
Definition allSome {A : Type} (m : gmap string (option A))
  : option (gmap string A) :=
  if decide (map_Forall (fun _ o => is_Some o) m)
  then Some (omap Datatypes.id m) else None.

Definition viewMeals (σ : gmap loc Cell) (l : loc)
  : option (gmap string Meal) :=
  match σ !! l with
  | Some (CMeals refs) => allSome (viewMeal σ <$> refs)
  | _ => None
  end.

Definition viewDay (σ : gmap loc Cell) (l : loc) : option Day :=
  match σ !! l with
  | Some (CDay d) =>
      ms ← match d_meals d with
           | Some r => Some <$> viewMeals σ r
           | None => Some None
           end;
      Some {| id := d_id d; date := d_date d; meals := ms;
              notes := d_notes d; weight := d_weight d |}
  | _ => None
  end.

Definition viewDays (σ : gmap loc Cell) (r : loc) : option (list Day) :=
  match σ !! r with
  | Some (CArray ls) => mapM (viewDay σ) ls
  | _ => None
  end.

End Refs.

(* ===================================================================== *)
(** ** The aggregation in the words of the specification *)
(* ===================================================================== *)

(** The quantity the normalizer stores: 1 when [qty] is absent or empty,
    otherwise the clamped [qty]. *)
Definition normalizedQty (it : option Obj) : Qc :=
  if unset (get it "qty") then one else clamp (get it "qty") zero hundred.












(** Every item logged on a day, over the four meals. *)
Definition loggedItems (day : option Day) : list Obj :=
  concat (map (fun m => itemsOf (mealsOf day !! m)) MEALS).



(** An item whose quantity is not a number. *)
Definition abcItem : Obj := {[ "qty" := VStr "abc"; "calories" := numV 100 ]}.

(* ===================================================================== *)
(** ** Vocabulary of the properties *)
(* ===================================================================== *)

(** Two days on different calendar dates. *)
Definition otherDay (h : Host) (a b : Day) : Prop :=
  sameDayISO h (date a) (date b) = false.

(** Every outcome of the computation has one day per calendar date. *)
Definition keeps (h : Host) (c : M (list Day)) : Prop :=
  forall (n n' : nat) (days' : list Day),
    c n = Some (days', n') -> oneDayPerDate h days'.

(** Every action but the import. *)
Definition notImport (a : Action) : bool := negb (isImport a).




(** A day at local day number [k] of a host on UTC, nothing logged. *)
Definition dayAt (k : Z) : Day :=
  {| id := VNull; date := Some (k * msPerDay); meals := Some emptyMeals;
     notes := VStr ""; weight := VStr "" |}.






(** [a] is dated strictly before [b]. *)
Definition before (a b : Day) : Prop :=
  match date a, date b with
  | Some x, Some y => x < y
  | _, _ => False
  end.

(** The short month names of the en-US locale. *)
Definition monthShort (m : Z) : string :=
  nth (Z.to_nat m)
      ["Jan"; "Feb"; "Mar"; "Apr"; "May"; "Jun";
       "Jul"; "Aug"; "Sep"; "Oct"; "Nov"; "Dec"] "".

(** [toLocaleDateString("en-US", { month: "short", day: "2-digit" })] at a
    fixed offset from UTC. *)
Definition enUSShortDate (offset : Z) (t : Z) : string :=
  let '(_, m, d) := civil_from_days ((t + offset) / msPerDay) in
  monthShort (m - 1) +:+ " " +:+ pad d.

(** A host on UTC, for the scenarios. *)
Definition utcHost : Host :=
  {| tz := 0;
     rand := fun n => "id" +:+ Z_to_string (Z.of_nat n);
     now := 0;
     shortDateLabel := enUSShortDate 0 |}.

(** A day at day number [k] with one lunch item of [kcal] calories. *)
Definition loggedDay (k : Z) (kcal : Z) : Day :=
  {| id := VNull; date := Some (k * msPerDay);
     meals := Some (<["Lunch" := {| items :=
                        Some [ {[ "qty" := numV 1; "calories" := numV kcal ]} ] |}]>
                      emptyMeals);
     notes := VStr ""; weight := VStr "" |}.

(** A week in which two days have data: 100 kcal and 200 kcal. *)
Definition twoOfSeven : list Day := [loggedDay 19790 100; loggedDay 19793 200].

(** A computation that keeps every object of [σ0] as it is. *)
Definition keepsStore {A : Type} (σ0 : gmap Refs.loc Refs.Cell) (c : Refs.R A)
  : Prop :=
  forall s : Refs.Store, σ0 ⊆ Refs.cells s -> σ0 ⊆ Refs.cells (c s).2.

(** A computation that only adds objects to the store. *)
Definition grows {A : Type} (c : Refs.R A) : Prop :=
  forall s : Refs.Store, Refs.cells s ⊆ Refs.cells (c s).2.

(** A computation whose result is an object that was not there before. *)
Definition news (c : Refs.R Refs.loc) : Prop :=
  forall (s : Refs.Store) (l : Refs.loc),
    (c s).1 = Some l -> Refs.cells s !! l = None.

(** The state of the loop of the copy: [σ0] is kept, and [r] is the
    meals object under construction. *)
Definition copyInv (σ0 : gmap Refs.loc Refs.Cell) (r : Refs.loc)
  (ms' : gmap string Refs.loc) (s : Refs.Store) : Prop :=
  σ0 ⊆ Refs.cells s /\ Refs.cells s !! r = Some (Refs.CMeals ms').

(** A computation that leaves the store as it is. *)
Definition reads {A : Type} (c : Refs.R A) : Prop :=
  forall s : Refs.Store, (c s).2 = s.

(** A store with one earlier day that has an item for breakfast. *)
Definition exampleCells : gmap Refs.loc Refs.Cell :=
  list_to_map
    [ (0%nat, Refs.CItem {[ "qty" := numV 2; "calories" := numV 100;
                            "id" := VStr "x" ]});
      (1%nat, Refs.CArray [0%nat]);
      (2%nat, Refs.CMeal (Some 1%nat));
      (3%nat, Refs.CArray []);
      (4%nat, Refs.CMeal (Some 3%nat));
      (5%nat, Refs.CArray []);
      (6%nat, Refs.CMeal (Some 5%nat));
      (7%nat, Refs.CArray []);
      (8%nat, Refs.CMeal (Some 7%nat));
      (9%nat, Refs.CMeals (list_to_map [("Breakfast", 2%nat); ("Lunch", 4%nat);
                                        ("Dinner", 6%nat); ("Snack", 8%nat)]));
      (10%nat, Refs.CDay {| Refs.d_id := VStr "a";
                            Refs.d_date := Some (19790 * msPerDay);
                            Refs.d_meals := Some 9%nat;
                            Refs.d_notes := VStr "";
                            Refs.d_weight := VStr "" |});
      (11%nat, Refs.CArray [10%nat]) ].

Definition exampleStore : Refs.Store :=
  {| Refs.cells := exampleCells; Refs.ids := 0 |}.


(** An imported collection with two records of one calendar date. *)
Definition sameDateTwice : list Day := [dayAt 19790; dayAt 19790].

(** A state reached by editing the weight and logging a food. *)
Definition editedState : State :=
  step utcHost
    (step utcHost (initial "2024-03-10") (EditWeight (VStr "70")))
    (AddFood "Lunch" abcItem).

(** The state after importing [sameDateTwice] into a fresh installation. *)
Definition importedState : State :=
  step utcHost (initial "2024-03-10") (Import (Some sameDateTwice)).

(** Any action, the import included. *)
Definition anyAction (a : Action) : bool := true.

(** ** The store against the values *)

(** The outcome of a computation on the store satisfies [Q]. *)
Definition wp {A : Type} (c : Refs.R A) (s : Refs.Store)
  (Q : option A -> Refs.Store -> Prop) : Prop :=
  Q (c s).1 (c s).2.

(** The store [s] with one more object. *)
Definition withCell (s : Refs.Store) (l : Refs.loc) (c : Refs.Cell)
  : Refs.Store :=
  {| Refs.cells := <[l := c]> (Refs.cells s); Refs.ids := Refs.ids s |}.

(** The item objects [ls] hold the items [its]. *)
Definition itemsAt (σ : gmap Refs.loc Refs.Cell) (ls : list Refs.loc)
  (its : list Obj) : Prop :=
  Forall2 (fun l o => σ !! l = Some (Refs.CItem o)) ls its.

(** The meal objects [refs] hold the meals [ms], name by name. *)
Definition mealsAt (σ : gmap Refs.loc Refs.Cell) (refs : gmap string Refs.loc)
  (ms : gmap string Meal) : Prop :=
  forall k : string, Refs.viewMeal σ <$> (refs !! k) = Some <$> (ms !! k).

(** The state of the loop of the copy: the objects that were there before
    the copy are as they were, and the meals object [root] of the clone
    holds the meals [ms]. *)
Definition copying (σ0 : gmap Refs.loc Refs.Cell) (root : Refs.loc)
  (refs : gmap string Refs.loc) (s : Refs.Store) (ms : gmap string Meal)
  : Prop :=
  σ0 ⊆ Refs.cells s
  /\ Refs.cells s !! root = Some (Refs.CMeals refs)
  /\ mealsAt (Refs.cells s) refs ms.

(** [l] holds neither an item nor an array in [σ]. *)
Definition noItems (σ : gmap Refs.loc Refs.Cell) (l : Refs.loc) : Prop :=
  match σ !! l with
  | Some (Refs.CItem _) | Some (Refs.CArray _) => False
  | _ => True
  end.

(** The day object [p], at its reference, holds the day [d]. *)
Definition holdsDay (σ : gmap Refs.loc Refs.Cell) (p : Refs.loc * Refs.DayObj)
  (d : Day) : Prop :=
  σ !! p.1 = Some (Refs.CDay p.2) /\ Refs.viewDay σ p.1 = Some d.

(** The meals a day object refers to are the meals of the day [d]. *)
Definition holdsMeals (σ : gmap Refs.loc Refs.Cell) (o : Refs.DayObj) (d : Day)
  : Prop :=
  match Refs.d_meals o with
  | Some r => exists ms, Refs.viewMeals σ r = Some ms /\ meals d = Some ms
  | None => meals d = None
  end.

(* ===================================================================== *)
(** ** Food search: the route handler and its client *)
(* ===================================================================== *)

(** [String.prototype.trim], for the white space of ASCII. *)
Definition String_trim (s : string) : string :=
  string_of_list_ascii (trim (list_ascii_of_string s)).







(** The route handler [GET] of the food search (src/unnamed/part_000). *)
Module Route.
















End Route.






(** The integers from [lo], [n] of them. *)
Definition Zrange (lo : Z) (n : nat) : list Z :=
  map (fun i => lo + Z.of_nat i) (seq 0 n).

(* ===================================================================== *)
(** ** Weight and calories chart ([WeightCaloriesChart]) *)
(* ===================================================================== *)


Module Chart.



Record Point : Type :=
  { iso : option Z;
    dateLabel : string;
    calories : Qc;
    weight : Val;
    caloriesAvg7 : Qc }.




End Chart.



(* ===================================================================== *)
(** ** Workouts and the exercise library *)
(* ===================================================================== *)

(** An entry of a workout: its scalar properties, and its [sets] when the
    property is there.  A set and an exercise are objects of scalars. *)
Record Entry : Type :=
  { e_fields : Obj;
    e_sets : option (list Obj) }.

(** A workout: its scalar properties ([id], [notes]), the instant of
    [createdAt], and its [entries] when the property is there. *)
Record Workout : Type :=
  { w_fields : Obj;
    w_createdAt : option Z;
    w_entries : option (list Entry) }.


(** [e.k] of an object that is there. *)
Definition prop (o : Obj) (k : string) : Val := get (Some o) k.

Definition withEntries (w : Workout) (ents : list Entry) : Workout :=
  {| w_fields := w_fields w; w_createdAt := w_createdAt w;
     w_entries := Some ents |}.














(** [String(v ?? "").trim()]. *)
Definition trimmedText (v : Val) : Val :=
  VStr (String_trim (ToString (coalesce v (VStr "")))).

Definition sanitizeSet (s : Obj) : Obj :=
  <["reps" := trimmedText (prop s "reps")]>
    (<["weight" := trimmedText (prop s "weight")]> s).

Definition sanitizeEntry (e : Entry) : Entry :=
  if strict_eq (prop (e_fields e) "mode") (VStr "cardio") then
    {| e_fields := <["durationMin" :=
                       trimmedText (prop (e_fields e) "durationMin")]>
                     (e_fields e);
       e_sets := Some [] |}
  else
    {| e_fields := <["durationMin" := VStr ""]> (e_fields e);
       e_sets := Some (map sanitizeSet (default [] (e_sets e))) |}.

Definition sanitize (w : Workout) : Workout :=
  withEntries w (map sanitizeEntry (default [] (w_entries w))).

(** Newest first: [(a, b) => (a.createdAt < b.createdAt ? 1 : -1)]. *)
Definition latestFirst (a b : Workout) : Z :=
  if date_lt (w_createdAt a) (w_createdAt b) then 1 else -1.

(** The saved workouts and the active workout after [saveWorkout]. *)
Definition saveWorkout (activeWorkout : option Workout) (ws : list Workout)
  : list Workout * option Workout :=
  match activeWorkout with
  | None => (ws, None)
  | Some w => (sort_by latestFirst (sanitize w :: ws), None)
  end.

Definition deleteWorkout (workoutId : Val) (ws : list Workout) : list Workout :=
  List.filter (fun w => negb (strict_eq (prop (w_fields w) "id") workoutId)) ws.

Definition copySet (h : Host) (s : Obj) : M Obj :=
  i <- uid h ;; ret (<["id" := VStr i]> s).

Definition copyEntry (h : Host) (e : Entry) : M Entry :=
  i <- uid h ;;
  sets <- traverse (copySet h) (default [] (e_sets e)) ;;
  ret {| e_fields :=
           <["durationMin" := or_else (prop (e_fields e) "durationMin")
                                      (VStr "")]>
             (<["id" := VStr i]> (e_fields e));
         e_sets := Some sets |}.

Definition copyMostRecentWorkoutIntoActive (h : Host)
  (activeWorkout : option Workout) (workouts : list Workout)
  : M (option Workout) :=
  match activeWorkout with
  | None => ret None
  | Some w =>
      match head workouts with
      | None => ret activeWorkout
      | Some mostRecent =>
          copiedEntries <- traverse (copyEntry h)
                             (default [] (w_entries mostRecent)) ;;
          ret (Some (withEntries w copiedEntries))
      end
  end.









(** [a] was created no earlier than [b]. *)
Definition notBefore (a b : Workout) : Prop :=
  exists x y : Z, w_createdAt a = Some x /\ w_createdAt b = Some y /\ y <= x.

(** The identifiers of an entry and of its sets, in the order in which a
    copy draws them. *)
Definition idsOf (e : Entry) : list Val :=
  prop (e_fields e) "id" :: map (fun s => prop s "id") (default [] (e_sets e)).

(** [c] is the set [s] under another identifier. *)
Definition setCopy (s c : Obj) : Prop := c = <["id" := prop c "id"]> s.

(** [c] is the entry [e] under other identifiers. *)
Definition entryCopy (e c : Entry) : Prop :=
  e_fields c
  = <["durationMin" := or_else (prop (e_fields e) "durationMin") (VStr "")]>
      (<["id" := prop (e_fields c) "id"]> (e_fields e))
  /\ exists sets : list Obj,
       e_sets c = Some sets /\ Forall2 setCopy (default [] (e_sets e)) sets.

(** The identifiers drawn from the [n]-th on, [k] of them. *)
Definition draws (h : Host) (n k : nat) : list Val :=
  map (fun i => VStr (rand h i)) (seq n k).


(* ===================================================================== *)
(** ** Goal tile ([MetricGoal]) *)
(* ===================================================================== *)






(** The text of [n] is [k] decimal digits whose value is [n]. *)
Definition digitsOf (k : nat) (s : string) (n : Z) : bool :=
  let l := list_ascii_of_string s in
  (length l =? k)%nat && forallb (is_digit 10) l && (digits_value 10 l =? n).

(** The day [upsertDay] patches: the stored day of the date, or a blank day
    under the identifier drawn next. *)
Definition patched (h : Host) (dayISO : Z) (days : list Day) (n : nat) : Day :=
  default (blankDay (VStr (rand h n)) dayISO)
    (List.find (fun d => sameDayISO h (date d) (Some dayISO)) days).

(** The number of identifiers drawn after [upsertDay]. *)
Definition drawnAfter (h : Host) (dayISO : Z) (days : list Day) (n : nat) : nat :=
  match List.find (fun d => sameDayISO h (date d) (Some dayISO)) days with
  | Some _ => n
  | None => S n
  end.

(** What a food edit leaves when it rewrites the items of one meal of the
    day shown to [its]: the collection returned, the identifiers drawn, and
    the day then shown. *)
Definition rewritesMeal (h : Host) (nutriDate mealName : string) (dayISO : Z)
  (days : list Day) (sel : Day) (c : M (list Day)) (n n0 : nat)
  (its : list Obj) : Prop :=
  exists (days' : list Day) (dst : Day),
    c n = Some (days', drawnAfter h dayISO days n0)
    /\ selectedDay h nutriDate days' = Some dst
    /\ mealsOrEmpty dst
       = <[mealName := {| items := Some its |}]> (mealsOrEmpty sel)
    /\ mealItems (mealsOrEmpty dst) mealName = its
    /\ (forall m, m <> mealName ->
          mealItems (mealsOrEmpty dst) m = mealItems (mealsOrEmpty sel) m)
    /\ (forall d, d ∈ days ->
          sameDayISO h (date d) (Some dayISO) = false -> d ∈ days').

(** [{ weight: e.target.value }] and [{ notes: e.target.value }]. *)
Definition weightPatch (w : Val) : Patch :=
  {| p_meals := None; p_notes := None; p_weight := Some w |}.

Definition notesPatch (n : Val) : Patch :=
  {| p_meals := None; p_notes := Some n; p_weight := None |}.



(** Two workouts saved out of order, and one being saved. *)
Definition workoutAt (name : string) (t : Z) : Workout :=
  {| w_fields := {[ "id" := VStr name; "notes" := VStr "" ]};
     w_createdAt := Some t;
     w_entries := Some [] |}.

(** An egg, as the food search hands it to [addFoodToMeal]. *)
Definition egg : Obj :=
  {[ "name" := VStr "Egg"; "qty" := numV 1; "calories" := numV 70 ]}.






(* ===================================================================== *)
(** * Properties *)
(* ===================================================================== *)

(** ** Numeric helpers *)

Lemma Math_max_lower (a b : Qc) : (a <= Math_max a b)%Qc.
Proof.
  unfold Math_max. destruct (Qle_bool a b) eqn:E.
  - apply Qle_bool_iff in E. exact E.
  - apply Qcle_refl.
Qed.

Lemma Math_min_upper (a b : Qc) : (Math_min a b <= a)%Qc.
Proof.
  unfold Math_min. destruct (Qle_bool a b) eqn:E.
  - apply Qcle_refl.
  - apply Qcnot_lt_le. intros H. apply Qclt_le_weak in H.
    apply Qle_bool_iff in H. congruence.
Qed.

Lemma Math_min_lower (lo a b : Qc) :
  (lo <= a)%Qc -> (lo <= b)%Qc -> (lo <= Math_min a b)%Qc.
Proof. unfold Math_min. destruct (Qle_bool a b); auto. Qed.

Lemma zero_le_hundred : (zero <= hundred)%Qc.
Proof. apply Qle_bool_iff. reflexivity. Qed.

Lemma zero_le_one : (zero <= one)%Qc.
Proof. apply Qle_bool_iff. reflexivity. Qed.

Lemma one_le_hundred : (one <= hundred)%Qc.
Proof. apply Qle_bool_iff. reflexivity. Qed.

(** The clamp always lands in the closed range. *)
Lemma clamp_range (v : Val) :
  (zero <= clamp v zero hundred)%Qc /\ (clamp v zero hundred <= hundred)%Qc.
Proof.
  unfold clamp. destruct (ToNumber v).
  - split.
    + apply Math_min_lower; [apply zero_le_hundred | apply Math_max_lower].
    + apply Math_min_upper.
  - split; [apply Qcle_refl | apply zero_le_hundred].
  - split; [apply Qcle_refl | apply zero_le_hundred].
  - split; [apply Qcle_refl | apply zero_le_hundred].
Qed.

(** A number already in range is left alone. *)
Lemma clamp_in_range (q : Qc) :
  (zero <= q)%Qc -> (q <= hundred)%Qc ->
  clamp (VNum (NFin q)) zero hundred = q.
Proof.
  intros Hlo Hhi. unfold clamp. simpl.
  unfold Math_max.
  assert (E : Qle_bool zero q = true) by (apply Qle_bool_iff; exact Hlo).
  rewrite E. unfold Math_min.
  destruct (Qle_bool hundred q) eqn:E2; [| reflexivity].
  apply Qle_bool_iff in E2. apply Qcle_antisym; assumption.
Qed.

Lemma clamp_idempotent (v : Val) :
  clamp (VNum (NFin (clamp v zero hundred))) zero hundred
  = clamp v zero hundred.
Proof. apply clamp_in_range; apply clamp_range. Qed.


(** ** Food-item normalizer *)

Lemma normalizedQty_range (it : option Obj) :
  (zero <= normalizedQty it)%Qc /\ (normalizedQty it <= hundred)%Qc.
Proof.
  unfold normalizedQty. destruct (unset _).
  - split; [apply zero_le_one | apply one_le_hundred].
  - apply clamp_range.
Qed.

Lemma normalize_qty (it : option Obj) :
  normalizeFoodItem it !! "qty" = Some (VNum (NFin (normalizedQty it))).
Proof. unfold normalizeFoodItem. by simplify_map_eq. Qed.

Lemma normalize_calories (it : option Obj) :
  normalizeFoodItem it !! "calories"
  = Some (coalesce (get it "calories") (VStr "")).
Proof. unfold normalizeFoodItem. by simplify_map_eq. Qed.

Lemma normalize_protein (it : option Obj) :
  normalizeFoodItem it !! "protein"
  = Some (coalesce (get it "protein") (VStr "")).
Proof. unfold normalizeFoodItem. by simplify_map_eq. Qed.

Lemma normalize_carbs (it : option Obj) :
  normalizeFoodItem it !! "carbs"
  = Some (coalesce (get it "carbs") (VStr "")).
Proof. unfold normalizeFoodItem. by simplify_map_eq. Qed.

Lemma normalize_fat (it : option Obj) :
  normalizeFoodItem it !! "fat" = Some (coalesce (get it "fat") (VStr "")).
Proof. unfold normalizeFoodItem. by simplify_map_eq. Qed.

(** Every other property is the input's own. *)
Lemma normalize_other (it : option Obj) (k : string) :
  k <> "qty" -> k <> "calories" -> k <> "protein" -> k <> "carbs" ->
  k <> "fat" ->
  normalizeFoodItem it !! k = spread it !! k.
Proof. intros. unfold normalizeFoodItem. by simplify_map_eq. Qed.

Lemma coalesce_not_nullish (v d : Val) :
  nullish d = false -> nullish (coalesce v d) = false.
Proof. unfold coalesce. destruct (nullish v) eqn:E; auto. Qed.

Lemma coalesce_idempotent (v d : Val) :
  nullish d = false -> coalesce (coalesce v d) d = coalesce v d.
Proof.
  intros Hd. unfold coalesce at 1.
  rewrite (coalesce_not_nullish v d Hd). reflexivity.
Qed.

Lemma unset_number (n : Num) : unset (VNum n) = false.
Proof. reflexivity. Qed.

(** C3. The food-item normalizer is idempotent, and it is total: every
    input, null and undefined included, is coerced to a record that has a
    numeric [qty] within [0, 100] and a non-null value for each of
    [calories], [protein], [carbs] and [fat]. *)
Theorem normalizeFoodItem_idempotent_total (x : option Obj) :
  normalizeFoodItem (Some (normalizeFoodItem x)) = normalizeFoodItem x
  /\ (exists q : Qc,
        normalizeFoodItem x !! "qty" = Some (VNum (NFin q))
        /\ (zero <= q)%Qc /\ (q <= hundred)%Qc)
  /\ Forall (fun k : string =>
               exists v : Val,
                 normalizeFoodItem x !! k = Some v /\ nullish v = false)
            ["calories"; "protein"; "carbs"; "fat"].
Proof.
  split; [| split].
  - set (r := normalizeFoodItem x).
    assert (Hq : get (Some r) "qty" = VNum (NFin (normalizedQty x))).
    { unfold get. subst r. by rewrite normalize_qty. }
    assert (Hc : get (Some r) "calories"
                 = coalesce (get x "calories") (VStr "")).
    { unfold get. subst r. by rewrite normalize_calories. }
    assert (Hp : get (Some r) "protein"
                 = coalesce (get x "protein") (VStr "")).
    { unfold get. subst r. by rewrite normalize_protein. }
    assert (Hb : get (Some r) "carbs" = coalesce (get x "carbs") (VStr "")).
    { unfold get. subst r. by rewrite normalize_carbs. }
    assert (Hf : get (Some r) "fat" = coalesce (get x "fat") (VStr "")).
    { unfold get. subst r. by rewrite normalize_fat. }
    unfold normalizeFoodItem at 1.
    rewrite Hq, Hc, Hp, Hb, Hf, unset_number.
    rewrite !coalesce_idempotent by reflexivity.
    rewrite clamp_in_range by apply normalizedQty_range.
    simpl spread.
    rewrite (insert_id r "qty") by (subst r; apply normalize_qty).
    rewrite (insert_id r "calories") by (subst r; apply normalize_calories).
    rewrite (insert_id r "protein") by (subst r; apply normalize_protein).
    rewrite (insert_id r "carbs") by (subst r; apply normalize_carbs).
    apply insert_id. subst r. apply normalize_fat.
  - exists (normalizedQty x). split; [apply normalize_qty |].
    apply normalizedQty_range.
  - repeat apply Forall_cons_2; [| | | | apply Forall_nil_2].
    + eexists. split; [apply normalize_calories |].
      by apply coalesce_not_nullish.
    + eexists. split; [apply normalize_protein |].
      by apply coalesce_not_nullish.
    + eexists. split; [apply normalize_carbs |].
      by apply coalesce_not_nullish.
    + eexists. split; [apply normalize_fat |].
      by apply coalesce_not_nullish.
Qed.

(** ** One-decimal rounding *)




Lemma round1_zero : round1 (VNum (NFin zero)) = zero.
Proof. apply Qc_is_canon. reflexivity. Qed.

Lemma roundTotals_zero : roundTotals zeroTotals = zeroTotals.
Proof.
  unfold roundTotals, zeroTotals. cbn [calories protein carbs fat].
  by rewrite round1_zero.
Qed.

(** ** Meal totals *)










Lemma calcMealTotals_no_items (meal : option Meal) :
  itemsOf meal = [] -> calcMealTotals meal = zeroTotals.
Proof.
  intros H. unfold calcMealTotals. rewrite H. cbn [map fold_left].
  apply roundTotals_zero.
Qed.









(** ** Day totals *)



Lemma num_finite (q : Qc) : num (VNum (NFin q)) = q.
Proof. reflexivity. Qed.


Lemma calcDayTotals_no_items (day : option Day) :
  loggedItems day = [] -> calcDayTotals day = zeroTotals.
Proof.
  unfold loggedItems, MEALS. cbn [map concat]. intros H.
  apply app_eq_nil in H as [Hb H]. apply app_eq_nil in H as [Hl H].
  apply app_eq_nil in H as [Hd H]. apply app_eq_nil in H as [Hs _].
  unfold calcDayTotals, MEALS. cbn [fold_left]. unfold addMeal.
  rewrite !(calcMealTotals_no_items _ Hb), !(calcMealTotals_no_items _ Hl),
    !(calcMealTotals_no_items _ Hd), !(calcMealTotals_no_items _ Hs).
  cbn [zeroTotals calories protein carbs fat]. rewrite !num_finite.
  unfold zero. rewrite !Qcplus_0_l. apply roundTotals_zero.
Qed.


(** ** FoodData Central macro extraction *)






(** ** Calendar *)

Lemma days_from_civil_from_days (z : Z) :
  days_from_civil (civil_from_days z) = z.
Proof.
  unfold days_from_civil, civil_from_days, civil_of_doe.
  repeat match goal with
         | |- context [if ?b then _ else _] => destruct b eqn:?
         end;
    Z.div_mod_to_equations; lia.
Qed.

Lemma civil_from_days_inj (a b : Z) :
  civil_from_days a = civil_from_days b -> a = b.
Proof.
  intros H. rewrite <- (days_from_civil_from_days a), H.
  apply days_from_civil_from_days.
Qed.

(** Two instants have the same year, month and day exactly when they fall
    on the same local day. *)
Lemma sameDayISO_localDay (h : Host) (a b : Z) :
  sameDayISO h (Some a) (Some b) = true <-> localDay h a = localDay h b.
Proof.
  unfold sameDayISO, getFullYear, getMonth, getDate. split.
  - intros H. apply andb_prop in H as [H Hd]. apply andb_prop in H as [Hy Hm].
    apply civil_from_days_inj.
    destruct (civil_from_days (localDay h a)) as [[ya ma] da].
    destruct (civil_from_days (localDay h b)) as [[yb mb] db].
    cbn [fst snd] in *. f_equal; [f_equal |]; lia.
  - intros ->. rewrite !Z.eqb_refl. reflexivity.
Qed.

Lemma sameDayISO_sym (h : Host) (a b : option Z) :
  sameDayISO h a b = sameDayISO h b a.
Proof.
  destruct a as [a |], b as [b |]; try reflexivity.
  unfold sameDayISO.
  rewrite (Z.eqb_sym (getFullYear h a)), (Z.eqb_sym (getMonth h a)),
    (Z.eqb_sym (getDate h a)). reflexivity.
Qed.

Lemma sameDayISO_refl (h : Host) (a : Z) :
  sameDayISO h (Some a) (Some a) = true.
Proof. by apply sameDayISO_localDay. Qed.

Lemma sameDayISO_trans (h : Host) (a b c : option Z) :
  sameDayISO h a b = true -> sameDayISO h b c = true ->
  sameDayISO h a c = true.
Proof.
  destruct a as [a |], b as [b |], c as [c |]; try discriminate.
  rewrite !sameDayISO_localDay. congruence.
Qed.

(** An instant before local midnight of a day lies on an earlier day. *)
Lemma before_midnight_other_day (h : Host) (dateStr : string) (dayISO t : Z) :
  isoDateFromInput h dateStr = Some dayISO -> t < dayISO ->
  sameDayISO h (Some t) (Some dayISO) = false.
Proof.
  unfold isoDateFromInput. destruct (parseDateInput dateStr) as [ymd |];
    [| discriminate].
  intros [= <-] Hlt.
  destruct (sameDayISO h (Some t) _) eqn:E; [| reflexivity].
  apply sameDayISO_localDay in E. unfold localDay, msPerDay in *.
  replace (days_from_civil ymd * 86400000 - tz h + tz h)
    with (days_from_civil ymd * 86400000) in E by lia.
  rewrite Z.div_mul in E by lia.
  Z.div_mod_to_equations. lia.
Qed.

(** ** Sorting *)

Section Sorting.
Context {A : Type} (cmp : A -> A -> Z).

Lemma insert_by_perm (x : A) (l : list A) :
  Permutation (insert_by cmp x l) (x :: l).
Proof.
  induction l as [| y l IH]; [reflexivity |].
  cbn [insert_by]. destruct (cmp x y <=? 0); [reflexivity |].
  rewrite IH. apply perm_swap.
Qed.

Lemma sort_by_perm (l : list A) : Permutation (sort_by cmp l) l.
Proof.
  induction l as [| x l IH]; [reflexivity |].
  unfold sort_by in *. cbn [foldr]. rewrite insert_by_perm.
  by constructor.
Qed.

Lemma sort_by_Forall (P : A -> Prop) (l : list A) :
  Forall P l -> Forall P (sort_by cmp l).
Proof. intros H. by rewrite sort_by_perm. Qed.

Lemma sort_by_length (l : list A) : length (sort_by cmp l) = length l.
Proof. apply Permutation_length, sort_by_perm. Qed.

End Sorting.

(** ** Pairwise properties of lists *)

Section Pairs.
Context {A : Type} (R : A -> A -> Prop).
Hypothesis R_sym : forall a b, R a b -> R b a.

Lemma ForallOrdPairs_cons_inv (a : A) (l : list A) :
  ForallOrdPairs R (a :: l) -> Forall (R a) l /\ ForallOrdPairs R l.
Proof. intros H. inversion H; subst. by split. Qed.

Lemma ForallOrdPairs_perm (l l' : list A) :
  Permutation l l' -> ForallOrdPairs R l -> ForallOrdPairs R l'.
Proof.
  induction 1 as [| x l l' Hp IH | x y l | l l' l'' _ IH1 _ IH2]; intros H.
  - exact H.
  - apply ForallOrdPairs_cons_inv in H as [Hx Hl].
    constructor; [by rewrite <- Hp | by apply IH].
  - apply ForallOrdPairs_cons_inv in H as [Hy H'].
    apply ForallOrdPairs_cons_inv in H' as [Hx Hl].
    apply Forall_cons in Hy as [Hyx Hy].
    constructor; [constructor; [by apply R_sym | done] |].
    by constructor.
  - auto.
Qed.

Lemma ForallOrdPairs_filter (P : A -> Prop) `{!forall x, Decision (P x)}
  (l : list A) :
  ForallOrdPairs R l -> ForallOrdPairs R (filter P l).
Proof.
  induction l as [| a l IH]; intros Hf; [constructor |].
  apply ForallOrdPairs_cons_inv in Hf as [Ha Hl].
  rewrite filter_cons. destruct (decide (P a)); [| by apply IH].
  constructor; [| by apply IH].
  apply Forall_forall. intros x Hx.
  apply list_elem_of_filter in Hx as [_ Hx].
  rewrite Forall_forall in Ha. by apply Ha.
Qed.

Lemma ForallOrdPairs_lookup (l : list A) :
  ForallOrdPairs R l <->
  (forall (i j : nat) (a b : A),
     (i < j)%nat -> l !! i = Some a -> l !! j = Some b -> R a b).
Proof.
  split.
  - induction 1 as [| a l Ha Hl IH]; intros i j x y Hij Hi Hj.
    + by rewrite lookup_nil in Hi.
    + destruct j as [| j]; [lia |]. cbn in Hj.
      destruct i as [| i]; cbn in Hi.
      * injection Hi as <-. rewrite Forall_forall in Ha.
        apply Ha. by eapply list_elem_of_lookup_2.
      * apply (IH i j); [lia | done | done].
  - induction l as [| a l IH]; intros H; [constructor |].
    constructor.
    + apply Forall_forall. intros x Hx.
      apply list_elem_of_lookup in Hx as [j Hj].
      apply (H O (S j)); [lia | done | done].
    + apply IH. intros i j x y Hij Hi Hj.
      apply (H (S i) (S j)); [lia | done | done].
Qed.

End Pairs.

Lemma ForallOrdPairs_alter {A : Type} (R : A -> A -> Prop) (f : A -> A)
  (idx : nat) (l : list A) :
  (forall a b, R a b -> R (f a) b) -> (forall a b, R a b -> R a (f b)) ->
  ForallOrdPairs R l -> ForallOrdPairs R (alter f idx l).
Proof.
  intros Hl Hr. revert idx. induction l as [| a l IH]; intros idx H.
  - destruct idx; constructor.
  - apply ForallOrdPairs_cons_inv in H as [Ha H'].
    destruct idx as [| idx]; cbn.
    + constructor; [| done]. eapply Forall_impl; [exact Ha |]. auto.
    + constructor; [| by apply IH].
      clear -Ha Hr. revert idx. induction Ha as [| b l Hb Hbs IH']; intros idx.
      * destruct idx; constructor.
      * destruct idx; cbn; constructor; auto.
Qed.

(** ** One day per calendar date *)

Lemma otherDay_sym (h : Host) (a b : Day) : otherDay h a b -> otherDay h b a.
Proof. unfold otherDay. by rewrite sameDayISO_sym. Qed.

Lemma oneDayPerDate_pairs (h : Host) (days : list Day) :
  oneDayPerDate h days <-> ForallOrdPairs (otherDay h) days.
Proof.
  rewrite ForallOrdPairs_lookup. unfold oneDayPerDate, otherDay. split.
  - intros H i j a b Hij Hi Hj.
    destruct (sameDayISO h (date a) (date b)) eqn:E; [| reflexivity].
    specialize (H i j a b Hi Hj E). lia.
  - intros H i j a b Hi Hj E.
    destruct (Nat.lt_trichotomy i j) as [Hlt | [-> | Hgt]]; [| done |].
    + specialize (H i j a b Hlt Hi Hj). congruence.
    + rewrite sameDayISO_sym in E.
      specialize (H j i b a Hgt Hj Hi). congruence.
Qed.

(** ** The monad of identifiers and exceptions *)

Lemma bind_Some {A B : Type} (c : M A) (k : A -> M B) (n : nat) (r : B * nat) :
  bind c k n = Some r ->
  exists (a : A) (n1 : nat), c n = Some (a, n1) /\ k a n1 = Some r.
Proof.
  unfold bind. destruct (c n) as [[a n1] |]; [| discriminate].
  intros H. by exists a, n1.
Qed.

Lemma lift_Some {A : Type} (o : option A) (n : nat) (r : A * nat) :
  lift o n = Some r -> o = Some r.1 /\ r.2 = n.
Proof.
  destruct o as [a |]; [| discriminate]. unfold lift, ret.
  intros [= <-]. by split.
Qed.

(** ** [findIndex] *)

Lemma findIndex_None {A : Type} (p : A -> bool) (l : list A) :
  findIndex p l = None -> Forall (fun x => p x = false) l.
Proof.
  induction l as [| x l IH]; [constructor |].
  cbn [findIndex]. destruct (p x) eqn:E; [discriminate |].
  destruct (findIndex p l); [discriminate |].
  intros _. constructor; [exact E | by apply IH].
Qed.

Lemma findIndex_Some {A : Type} (p : A -> bool) (l : list A) (i : nat) :
  findIndex p l = Some i ->
  exists x : A,
    l !! i = Some x /\ p x = true
    /\ Forall (fun y => p y = false) (take i l).
Proof.
  revert i. induction l as [| x l IH]; intros i; [discriminate |].
  cbn [findIndex]. destruct (p x) eqn:E.
  - intros [= <-]. exists x. repeat split; [done | constructor].
  - destruct (findIndex p l) as [j |]; [| discriminate].
    intros [= <-]. destruct (IH j eq_refl) as (y & Hy & Hp & Hpre).
    exists y. repeat split; [done | done |]. by constructor.
Qed.

(** ** [upsertDay] *)

Lemma applyPatch_date (d : Day) (p : Patch) : date (applyPatch d p) = date d.
Proof. reflexivity. Qed.

Lemma upsertAt_returns (h : Host) (dayISO : Z) (p : Patch) (days : list Day)
  (n : nat) :
  exists (days' : list Day) (n' : nat),
    upsertAt h dayISO p days n = Some (days', n').
Proof.
  unfold upsertAt. destruct (findIndex _ days); by eexists _, _.
Qed.

Lemma upsertAt_keeps (h : Host) (dayISO : Z) (p : Patch) (days days' : list Day)
  (n n' : nat) :
  oneDayPerDate h days ->
  upsertAt h dayISO p days n = Some (days', n') ->
  oneDayPerDate h days'.
Proof.
  rewrite !oneDayPerDate_pairs. intros Hinv. unfold upsertAt.
  destruct (findIndex _ days) as [idx |] eqn:E.
  - intros [= <- <-].
    apply ForallOrdPairs_alter; [| | done]; unfold otherDay; intros a b;
      by rewrite applyPatch_date.
  - unfold bind, uid, ret. intros H. injection H as <- <-.
    set (new := applyPatch (blankDay (VStr (rand h n)) dayISO) p).
    apply (ForallOrdPairs_perm (otherDay h) (otherDay_sym h) (new :: days));
      [symmetry; apply (sort_by_perm newestFirst (new :: days)) |].
    constructor; [| done].
    apply findIndex_None in E. eapply Forall_impl; [exact E |].
    intros d Hd. unfold otherDay. subst new. rewrite applyPatch_date.
    cbn [date blankDay]. by rewrite sameDayISO_sym.
Qed.

Lemma upsertDay_keeps (h : Host) (on : string) (p : Patch)
  (days days' : list Day) (n n' : nat) :
  oneDayPerDate h days ->
  upsertDay h on p days n = Some (days', n') ->
  oneDayPerDate h days'.
Proof.
  intros Hinv H. unfold upsertDay in H.
  apply bind_Some in H as (dayISO & n1 & _ & H).
  by eapply upsertAt_keeps.
Qed.

Lemma deleteDay_keeps (h : Host) (dateISO : option Z) (days : list Day) :
  oneDayPerDate h days -> oneDayPerDate h (deleteDay dateISO days).
Proof.
  rewrite !oneDayPerDate_pairs. apply ForallOrdPairs_filter.
Qed.

Lemma keeps_bind {A : Type} (h : Host) (c : M A) (k : A -> M (list Day)) :
  (forall a, keeps h (k a)) -> keeps h (bind c k).
Proof.
  intros Hk n n' days' H. apply bind_Some in H as (a & n1 & _ & H).
  by eapply Hk.
Qed.

Lemma keeps_upsertDay (h : Host) (on : string) (p : Patch) (days : list Day) :
  oneDayPerDate h days -> keeps h (upsertDay h on p days).
Proof. intros Hinv n n' days'. by apply upsertDay_keeps. Qed.

Lemma keeps_ret (h : Host) (days : list Day) :
  oneDayPerDate h days -> keeps h (ret days).
Proof. intros Hinv n n' days'. unfold ret. by intros [= <- <-]. Qed.

Lemma run_keeps (h : Host) (c : M (list Day)) (st : State) :
  keeps h c -> oneDayPerDate h (nutritionDays st) ->
  oneDayPerDate h (nutritionDays (run c st)).
Proof.
  intros Hc Hinv. unfold run.
  destruct (c (drawn st)) as [[days' n'] |] eqn:E; [| done].
  by eapply Hc.
Qed.

Lemma step_keeps (h : Host) (st : State) (a : Action) :
  isImport a = false ->
  oneDayPerDate h (nutritionDays st) ->
  oneDayPerDate h (nutritionDays (step h st a)).
Proof.
  intros Ha Hinv.
  destruct a; try discriminate; cbn [step]; try apply run_keeps; try done.
  - by apply keeps_upsertDay.
  - by apply keeps_upsertDay.
  - by apply deleteDay_keeps.
  - unfold addFoodToMeal. apply keeps_bind. intros sel.
    apply keeps_bind. intros i. by apply keeps_upsertDay.
  - unfold updateFoodItem. apply keeps_bind. intros sel.
    by apply keeps_upsertDay.
  - unfold removeFoodItem. apply keeps_bind. intros sel.
    by apply keeps_upsertDay.
  - unfold copyMealsFromPreviousDay. apply keeps_bind. intros dayISO.
    destruct (previousDay dayISO _); [| by apply keeps_ret].
    apply keeps_bind. intros mealsCopy. by apply keeps_upsertDay.
  - unfold copyMealFromPreviousDay. apply keeps_bind. intros dayISO.
    destruct (previousDay dayISO _); [| by apply keeps_ret].
    apply keeps_bind. intros its. apply keeps_bind. intros sel.
    by apply keeps_upsertDay.
Qed.

Lemma oneDayPerDate_nil (h : Host) : oneDayPerDate h [].
Proof. intros i j a b Hi. by rewrite lookup_nil in Hi. Qed.

Lemma reachable_one_day_per_date (h : Host) (st : State) :
  reachable h notImport st -> oneDayPerDate h (nutritionDays st).
Proof.
  induction 1 as [today | st a _ IH Ha].
  - apply oneDayPerDate_nil.
  - apply step_keeps; [| exact IH].
    unfold notImport in Ha. by destruct (isImport a).
Qed.

(** ** Copying items *)


(** ** The day shown after an upsert *)

Lemma find_unique {A : Type} (p : A -> bool) (l l' : list A) (x : A) :
  Permutation l' (x :: l) -> p x = true ->
  Forall (fun y => p y = false) l ->
  List.find p l' = Some x.
Proof.
  intros Hp Hx Hl. destruct (List.find p l') as [y |] eqn:E.
  - apply find_some in E as [Hy Hpy].
    apply list_elem_of_In in Hy. rewrite Hp in Hy.
    apply elem_of_cons in Hy as [-> | Hy]; [done |].
    rewrite Forall_forall in Hl. specialize (Hl y Hy). congruence.
  - exfalso. pose proof (find_none _ _ E x) as Hn.
    rewrite Hn in Hx; [discriminate |].
    apply list_elem_of_In. rewrite Hp. by left.
Qed.

Lemma find_alter_first {A : Type} (p : A -> bool) (f : A -> A) (l : list A)
  (idx : nat) (x : A) :
  l !! idx = Some x -> p (f x) = true ->
  Forall (fun y => p y = false) (take idx l) ->
  List.find p (alter f idx l) = Some (f x).
Proof.
  revert idx. induction l as [| y l IH]; intros idx Hx Hp Hpre.
  - by rewrite lookup_nil in Hx.
  - destruct idx as [| idx]; cbn in *.
    + injection Hx as ->. by rewrite Hp.
    + apply Forall_cons in Hpre as [Hy Hpre]. rewrite Hy. by apply IH.
Qed.

Lemma find_findIndex {A : Type} (p : A -> bool) (l : list A) :
  List.find p l = (findIndex p l ≫= fun i => l !! i).
Proof.
  induction l as [| x l IH]; [reflexivity |].
  cbn [List.find findIndex]. destruct (p x); [reflexivity |].
  rewrite IH. by destruct (findIndex p l).
Qed.


Lemma bind_run {A B : Type} (c : M A) (k : A -> M B) (n n1 : nat) (a : A) :
  c n = Some (a, n1) -> bind c k n = k a n1.
Proof. intros H. unfold bind. by rewrite H. Qed.

Lemma mealItems_insert (ms : gmap string Meal) (m : string) (its : list Obj) :
  mealItems (<[m := {| items := Some its |}]> ms) m = its.
Proof. unfold mealItems. by rewrite lookup_insert_eq. Qed.


(** ** Macro timeline *)












(** ** Calendar keys *)

Lemma civil_from_days_bounds (z : Z) :
  1 <= (civil_from_days z).1.2 <= 12 /\ 1 <= (civil_from_days z).2 <= 31.
Proof.
  unfold civil_from_days, civil_of_doe.
  repeat match goal with
         | |- context [if ?b then _ else _] => destruct b eqn:?
         end;
    cbn [fst snd]; Z.div_mod_to_equations; lia.
Qed.


Lemma list_ascii_app (a b : string) :
  list_ascii_of_string (a +:+ b)
  = list_ascii_of_string a ++ list_ascii_of_string b.
Proof.
  induction a as [| c a IH]; [reflexivity |].
  cbn [list_ascii_of_string app]. rewrite <- IH. reflexivity.
Qed.





(** ** Weekly averages *)










(** ** Copy-forward over the store *)

Section StoreLemmas.
Import Refs.

Lemma grows_keeps {A : Type} (c : R A) (σ0 : gmap loc Cell) :
  grows c -> keepsStore σ0 c.
Proof. intros H s Hs. by transitivity (cells s). Qed.

Lemma keeps_grows {A : Type} (c : R A) :
  (forall σ0, keepsStore σ0 c) -> grows c.
Proof. intros H s. by apply H. Qed.

Lemma grows_pure {A : Type} (a : A) : grows (pure a).
Proof. by intros s. Qed.

Lemma grows_raise {A : Type} : grows (@raise A).
Proof. by intros s. Qed.

Lemma grows_orRaise {A : Type} (o : option A) : grows (orRaise o).
Proof. destruct o; [apply grows_pure | apply grows_raise]. Qed.

Lemma grows_andThen {A B : Type} (c : R A) (k : A -> R B) :
  grows c -> (forall a, grows (k a)) -> grows (andThen c k).
Proof.
  intros Hc Hk s. unfold andThen. specialize (Hc s).
  destruct (c s) as [[a |] s1]; [| done].
  by transitivity (cells s1); [| apply Hk].
Qed.

Lemma keeps_andThen {A B : Type} (σ0 : gmap loc Cell) (c : R A)
  (k : A -> R B) :
  keepsStore σ0 c -> (forall a, keepsStore σ0 (k a)) ->
  keepsStore σ0 (andThen c k).
Proof.
  intros Hc Hk s Hs. unfold andThen. specialize (Hc s Hs).
  destruct (c s) as [[a |] s1]; [| done].
  by apply Hk.
Qed.

Lemma fresh_cell (s : Store) : cells s !! fresh (dom (cells s)) = None.
Proof. apply not_elem_of_dom, is_fresh. Qed.

Lemma grows_alloc (c : Cell) : grows (alloc c).
Proof. intros s. cbn. apply insert_subseteq, fresh_cell. Qed.

Lemma news_alloc (c : Cell) : news (alloc c).
Proof. intros s l [= <-]. apply fresh_cell. Qed.

Lemma grows_load (l : loc) : grows (load l).
Proof. by intros s. Qed.

Lemma grows_uid (h : Host) : grows (uid h).
Proof. by intros s. Qed.

Lemma keeps_store (σ0 : gmap loc Cell) (l : loc) (c : Cell) :
  σ0 !! l = None -> keepsStore σ0 (store l c).
Proof. intros Hl s Hs. cbn. by apply insert_subseteq_r. Qed.

(** After an allocation the continuation may assume the object new. *)
Lemma keeps_alloc_then {B : Type} (σ0 : gmap loc Cell) (c : Cell)
  (k : loc -> R B) :
  (forall l, σ0 !! l = None -> keepsStore σ0 (k l)) ->
  keepsStore σ0 (andThen (alloc c) k).
Proof.
  intros Hk s Hs. unfold andThen, alloc.
  apply Hk.
  - eapply lookup_weaken_None; [apply fresh_cell | exact Hs].
  - cbn. apply insert_subseteq_r; [| done].
    eapply lookup_weaken_None; [apply fresh_cell | exact Hs].
Qed.

Lemma grows_loadItem (l : loc) : grows (loadItem l).
Proof.
  apply grows_andThen; [apply grows_load |].
  intros []; (apply grows_pure || apply grows_raise).
Qed.

Lemma grows_loadArray (l : loc) : grows (loadArray l).
Proof.
  apply grows_andThen; [apply grows_load |].
  intros []; (apply grows_pure || apply grows_raise).
Qed.

Lemma grows_loadMeal (l : loc) : grows (loadMeal l).
Proof.
  apply grows_andThen; [apply grows_load |].
  intros []; (apply grows_pure || apply grows_raise).
Qed.

Lemma grows_loadMeals (l : loc) : grows (loadMeals l).
Proof.
  apply grows_andThen; [apply grows_load |].
  intros []; (apply grows_pure || apply grows_raise).
Qed.

Lemma grows_loadDay (l : loc) : grows (loadDay l).
Proof.
  apply grows_andThen; [apply grows_load |].
  intros []; (apply grows_pure || apply grows_raise).
Qed.

Lemma grows_mapR {A B : Type} (f : A -> R B) (l : list A) :
  (forall x, grows (f x)) -> grows (mapR f l).
Proof.
  intros Hf. induction l as [| x l IH]; [apply grows_pure |].
  cbn [mapR]. apply grows_andThen; [apply Hf |]. intros y.
  apply grows_andThen; [apply IH |]. intros ys. apply grows_pure.
Qed.

Lemma keeps_forEach {A : Type} (σ0 : gmap loc Cell) (f : A -> R unit)
  (l : list A) :
  (forall x, keepsStore σ0 (f x)) -> keepsStore σ0 (forEach f l).
Proof.
  intros Hf. induction l as [| x l IH]; [by intros s |].
  cbn [forEach]. apply keeps_andThen; [apply Hf | by intros _].
Qed.

Lemma keeps_emptyMeals (σ0 : gmap loc Cell) : keepsStore σ0 emptyMeals.
Proof.
  unfold emptyMeals. apply keeps_alloc_then. intros acc Hacc.
  apply keeps_andThen; [| intros _; apply grows_keeps, grows_pure].
  apply keeps_forEach. intros m.
  apply keeps_andThen; [apply grows_keeps, grows_alloc |]. intros a.
  apply keeps_andThen; [apply grows_keeps, grows_alloc |]. intros lm.
  apply keeps_andThen; [apply grows_keeps, grows_loadMeals |]. intros ms.
  by apply keeps_store.
Qed.

Lemma grows_emptyMeals : grows emptyMeals.
Proof. apply keeps_grows, keeps_emptyMeals. Qed.

Lemma grows_cloneItem (l : loc) : grows (cloneItem l).
Proof.
  apply grows_andThen; [apply grows_loadItem |]. intros o. apply grows_alloc.
Qed.

Lemma grows_cloneArray (l : loc) : grows (cloneArray l).
Proof.
  apply grows_andThen; [apply grows_loadArray |]. intros ls.
  apply grows_andThen; [apply grows_mapR, grows_cloneItem |]. intros ls'.
  apply grows_alloc.
Qed.

Lemma grows_cloneMeal (l : loc) : grows (cloneMeal l).
Proof.
  apply grows_andThen; [apply grows_loadMeal |]. intros its.
  apply grows_andThen; [| intros its'; apply grows_alloc].
  destruct its as [a |]; [| apply grows_pure].
  apply grows_andThen; [apply grows_cloneArray |]. intros a'. apply grows_pure.
Qed.

Lemma grows_cloneEntry (kv : string * loc) : grows (cloneEntry kv).
Proof.
  apply grows_andThen; [apply grows_cloneMeal |]. intros lm. apply grows_pure.
Qed.

Lemma grows_cloneMeals (l : loc) : grows (cloneMeals l).
Proof.
  apply grows_andThen; [apply grows_loadMeals |]. intros ms.
  apply grows_andThen; [apply grows_mapR, grows_cloneEntry |]. intros kvs.
  apply grows_alloc.
Qed.

Lemma grows_copyItem (h : Host) (l : loc) : grows (copyItem h l).
Proof.
  apply grows_andThen; [apply grows_loadItem |]. intros it.
  apply grows_andThen; [apply grows_uid |]. intros i. apply grows_alloc.
Qed.

Lemma grows_loadDayAt (l : loc) : grows (loadDayAt l).
Proof.
  apply grows_andThen; [apply grows_loadDay |]. intros d. apply grows_pure.
Qed.

Lemma grows_upsertDay (h : Host) (nutriDate : string) (mealsRef daysRef : loc) :
  grows (upsertDay h nutriDate mealsRef daysRef).
Proof.
  apply grows_andThen; [apply grows_orRaise |]. intros dayISO.
  apply grows_andThen; [apply grows_loadArray |]. intros ls.
  apply grows_andThen; [apply grows_mapR, grows_loadDayAt |]. intros ds.
  destruct (findIndex _ ds) as [idx |].
  - apply grows_andThen; [apply grows_orRaise |]. intros p.
    apply grows_andThen; [apply grows_alloc |]. intros l. apply grows_alloc.
  - apply grows_andThen; [apply grows_uid |]. intros i.
    apply grows_andThen; [apply grows_emptyMeals |]. intros _.
    apply grows_andThen; [apply grows_alloc |]. intros l. apply grows_alloc.
Qed.

End StoreLemmas.

Section StoreLemmas2.
Import Refs.

Lemma news_andThen {A : Type} (c : R A) (k : A -> R loc) :
  grows c -> (forall a, news (k a)) -> news (andThen c k).
Proof.
  intros Hc Hk s l. unfold andThen. specialize (Hc s).
  destruct (c s) as [[a |] s1]; [| discriminate].
  intros H. apply Hk in H. by eapply lookup_weaken_None.
Qed.

Lemma news_cloneMeal (l : loc) : news (cloneMeal l).
Proof.
  apply news_andThen; [apply grows_loadMeal |]. intros its.
  apply news_andThen; [| intros its'; apply news_alloc].
  destruct its as [a |]; [| apply grows_pure].
  apply grows_andThen; [apply grows_cloneArray |]. intros a'. apply grows_pure.
Qed.

(** The references a deep copy of the entries returns are all new. *)
Lemma mapR_cloneEntry_new (l : list (string * loc)) (s : Store)
  (kvs : list (string * loc)) :
  (mapR cloneEntry l s).1 = Some kvs ->
  Forall (fun kv => cells s !! kv.2 = None) kvs.
Proof.
  revert s kvs. induction l as [| kv l IH]; intros s kvs.
  - cbn. intros [= <-]. constructor.
  - cbn [mapR]. unfold andThen at 1.
    pose proof (grows_cloneEntry kv s) as Hg.
    destruct (cloneEntry kv s) as [[kv' |] s1] eqn:E1; [| discriminate].
    unfold andThen at 1.
    destruct (mapR cloneEntry l s1) as [[kvs' |] s2] eqn:E2; [| discriminate].
    cbn. intros [= <-]. constructor.
    + unfold cloneEntry, andThen in E1.
      pose proof (news_cloneMeal kv.2 s) as Hn.
      destruct (cloneMeal kv.2 s) as [[lm |] s1']; [| discriminate].
      injection E1 as <- <-. by apply Hn.
    + specialize (IH s1 kvs'). rewrite E2 in IH. specialize (IH eq_refl).
      eapply Forall_impl; [exact IH |].
      intros kv0 H0. exact (lookup_weaken_None _ _ _ H0 Hg).
Qed.

Lemma load_same (l : loc) (s : Store) : (load l s).2 = s.
Proof. reflexivity. Qed.

Lemma loadMeals_inv (l : loc) (s s1 : Store) (ms : gmap string loc) :
  loadMeals l s = (Some ms, s1) ->
  s1 = s /\ cells s !! l = Some (CMeals ms).
Proof.
  unfold loadMeals, andThen, load.
  destruct (cells s !! l) as [[] |]; cbn; intros [= <- <-] || intros [=].
  by split.
Qed.

Lemma loadMeal_inv (l : loc) (s s1 : Store) (its : option loc) :
  loadMeal l s = (Some its, s1) ->
  s1 = s /\ cells s !! l = Some (CMeal its).
Proof.
  unfold loadMeal, andThen, load.
  destruct (cells s !! l) as [[] |]; cbn; intros [= <- <-] || intros [=].
  by split.
Qed.

Lemma loadMeals_state (l : loc) (s : Store) : (loadMeals l s).2 = s.
Proof.
  unfold loadMeals, andThen, load. by destruct (cells s !! l) as [[] |].
Qed.

Lemma loadMeal_state (l : loc) (s : Store) : (loadMeal l s).2 = s.
Proof.
  unfold loadMeal, andThen, load. by destruct (cells s !! l) as [[] |].
Qed.

(** What the deep copy of a meals object returns: a new meals object whose
    meal objects are all new. *)
Lemma cloneMeals_result (l : loc) (s s' : Store) (r : loc) :
  cloneMeals l s = (Some r, s') ->
  cells s !! r = None
  /\ exists ms' : gmap string loc,
       cells s' !! r = Some (CMeals ms')
       /\ forall (k : string) (lm : loc),
            ms' !! k = Some lm -> cells s !! lm = None.
Proof.
  unfold cloneMeals, andThen at 1.
  destruct (loadMeals l s) as [[ms |] s0] eqn:E0; [| discriminate].
  apply loadMeals_inv in E0 as [-> _].
  unfold andThen.
  pose proof (grows_mapR cloneEntry (map_to_list ms) grows_cloneEntry s) as Hg.
  pose proof (mapR_cloneEntry_new (map_to_list ms) s) as Hn.
  destruct (mapR cloneEntry (map_to_list ms) s) as [[kvs |] s1];
    [| discriminate].
  cbn in *. intros [= <- <-]. split.
  - eapply lookup_weaken_None; [apply fresh_cell | exact Hg].
  - exists (list_to_map kvs). split; [apply lookup_insert_eq |].
    intros k lm Hk. apply elem_of_list_to_map_2 in Hk.
    specialize (Hn kvs eq_refl). rewrite Forall_forall in Hn.
    by apply (Hn (k, lm)).
Qed.

(** One turn of the loop assigns to a meal object of the copy only. *)
Lemma copyMealInto_keeps (h : Host) (σ0 : gmap loc Cell) (r : loc)
  (ms' : gmap string loc) (m : string) (s : Store) :
  (forall (k : string) (lm : loc), ms' !! k = Some lm -> σ0 !! lm = None) ->
  copyInv σ0 r ms' s -> copyInv σ0 r ms' (copyMealInto h r m s).2.
Proof.
  intros Hnew [Hs Hr]. unfold copyMealInto, andThen at 1.
  destruct (loadMeals r s) as [[ms |] s0] eqn:E0.
  2:{ pose proof (loadMeals_state r s) as E. rewrite E0 in E. cbn in E.
      by subst s0. }
  apply loadMeals_inv in E0 as [-> E0].
  assert (ms = ms') as -> by congruence.
  unfold andThen at 1.
  destruct (ms' !! m) as [lm |] eqn:Em; cbn [orRaise pure raise]; [| done].
  unfold andThen at 1.
  destruct (loadMeal lm s) as [[its |] s0] eqn:E1.
  2:{ pose proof (loadMeal_state lm s) as E. rewrite E1 in E. cbn in E.
      by subst s0. }
  apply loadMeal_inv in E1 as [-> E1].
  set (c1 := match its with Some a => loadArray a | None => pure [] end).
  assert (Hc1 : grows c1).
  { subst c1. destruct its; [apply grows_loadArray | apply grows_pure]. }
  unfold andThen at 1. specialize (Hc1 s).
  destruct (c1 s) as [[ls |] s1]; cbn in Hc1.
  2:{ split; [by transitivity (cells s) | by eapply lookup_weaken]. }
  unfold andThen at 1.
  pose proof (grows_mapR (copyItem h) ls (grows_copyItem h) s1) as Hc2.
  destruct (mapR (copyItem h) ls s1) as [[ls' |] s2]; cbn in Hc2.
  2:{ assert (cells s ⊆ cells s2) by (by transitivity (cells s1)).
      split; [by transitivity (cells s) | by eapply lookup_weaken]. }
  unfold andThen, alloc, store. cbn.
  assert (Hs2 : cells s ⊆ cells s2) by (by transitivity (cells s1)).
  pose proof (fresh_cell s2) as Hf.
  set (arr := fresh (dom (cells s2))) in *.
  assert (Hlm : lm <> r) by congruence.
  assert (Harr : arr <> r).
  { intros ->. by rewrite (lookup_weaken _ _ _ _ Hr Hs2) in Hf. }
  split; cbn.
  - apply insert_subseteq_r; [by eapply Hnew |].
    apply insert_subseteq_r.
    + eapply lookup_weaken_None; [exact Hf | by transitivity (cells s)].
    + by transitivity (cells s).
  - rewrite lookup_insert_ne by done. rewrite lookup_insert_ne by done.
    by eapply lookup_weaken.
Qed.

Lemma forEach_copyMealInto_keeps (h : Host) (σ0 : gmap loc Cell) (r : loc)
  (ms' : gmap string loc) (names : list string) (s : Store) :
  (forall (k : string) (lm : loc), ms' !! k = Some lm -> σ0 !! lm = None) ->
  copyInv σ0 r ms' s ->
  copyInv σ0 r ms' (forEach (copyMealInto h r) names s).2.
Proof.
  intros Hnew. revert s. induction names as [| m names IH]; intros s Hs.
  - done.
  - cbn [forEach]. unfold andThen.
    pose proof (copyMealInto_keeps h σ0 r ms' m s Hnew Hs) as H1.
    destruct (copyMealInto h r m s) as [[[] |] s1]; cbn in *; [| done].
    by apply IH.
Qed.

End StoreLemmas2.

Section StoreLemmas3.
Import Refs.

Lemma reads_pure {A : Type} (a : A) : reads (pure a).
Proof. by intros s. Qed.

Lemma reads_raise {A : Type} : reads (@raise A).
Proof. by intros s. Qed.

Lemma reads_andThen {A B : Type} (c : R A) (k : A -> R B) :
  reads c -> (forall a, reads (k a)) -> reads (andThen c k).
Proof.
  intros Hc Hk s. unfold andThen. specialize (Hc s).
  destruct (c s) as [[a |] s1]; cbn in Hc; subst s1; [apply Hk | done].
Qed.

Lemma reads_load (l : loc) : reads (load l).
Proof. by intros s. Qed.

Lemma reads_loadArray (l : loc) : reads (loadArray l).
Proof.
  apply reads_andThen; [apply reads_load |].
  intros []; (apply reads_pure || apply reads_raise).
Qed.

Lemma reads_loadDayAt (l : loc) : reads (loadDayAt l).
Proof.
  apply reads_andThen; [| intros d; apply reads_pure].
  apply reads_andThen; [apply reads_load |].
  intros []; (apply reads_pure || apply reads_raise).
Qed.

Lemma reads_mapR {A B : Type} (f : A -> R B) (l : list A) :
  (forall x, reads (f x)) -> reads (mapR f l).
Proof.
  intros Hf. induction l as [| x l IH]; [apply reads_pure |].
  cbn [mapR]. apply reads_andThen; [apply Hf |]. intros y.
  apply reads_andThen; [apply IH |]. intros ys. apply reads_pure.
Qed.

Lemma reads_previousDay (dayISO : Z) (daysRef : loc) :
  reads (previousDay dayISO daysRef).
Proof.
  apply reads_andThen; [apply reads_loadArray |]. intros ls.
  apply reads_andThen; [apply reads_mapR, reads_loadDayAt |]. intros ds.
  apply reads_pure.
Qed.

Lemma reads_orRaise {A : Type} (o : option A) : reads (orRaise o).
Proof. destruct o; [apply reads_pure | apply reads_raise]. Qed.

(** The copy keeps every object of the store it starts from. *)
Lemma copyMealsFromPreviousDay_frame (h : Host) (nutriDate : string)
  (daysRef : loc) (s : Store) :
  cells s ⊆ cells (copyMealsFromPreviousDay h nutriDate daysRef s).2.
Proof.
  unfold copyMealsFromPreviousDay, andThen at 1.
  destruct (isoDateFromInput h nutriDate) as [dayISO |]; cbn [orRaise];
    [| done].
  cbn [pure]. unfold andThen at 1.
  pose proof (reads_previousDay dayISO daysRef s) as Hp.
  destruct (previousDay dayISO daysRef s) as [[prev |] s0]; cbn in Hp;
    subst s0; [| done].
  destruct prev as [[lp p] |]; [| done].
  set (c1 := match d_meals p with Some ms => pure ms | None => emptyMeals end).
  assert (Hc1 : grows c1).
  { subst c1. destruct (d_meals p); [apply grows_pure | apply grows_emptyMeals]. }
  unfold andThen at 1. specialize (Hc1 s).
  destruct (c1 s) as [[src |] s1]; cbn in Hc1; [| done].
  unfold andThen at 1.
  pose proof (grows_cloneMeals src s1) as Hc2.
  destruct (cloneMeals src s1) as [[r |] s2] eqn:E2; cbn in Hc2.
  2:{ by transitivity (cells s1). }
  apply cloneMeals_result in E2 as (Hr & ms' & Hr2 & Hnew).
  assert (Hinv : copyInv (cells s) r ms' s2).
  { split; [by transitivity (cells s1) | done]. }
  assert (Hnew' : forall k lm, ms' !! k = Some lm -> cells s !! lm = None).
  { intros k lm Hk. exact (lookup_weaken_None _ _ _ (Hnew k lm Hk) Hc1). }
  pose proof (forEach_copyMealInto_keeps h (cells s) r ms' MEALS s2 Hnew' Hinv)
    as [H3 _].
  unfold andThen at 1.
  destruct (forEach (copyMealInto h r) MEALS s2) as [[[] |] s3]; cbn in H3;
    [| done].
  transitivity (cells s3); [done | apply grows_upsertDay].
Qed.

Lemma copyMealsFromPreviousDay_nothing (h : Host) (nutriDate : string)
  (daysRef : loc) (s : Store) (dayISO : Z) :
  isoDateFromInput h nutriDate = Some dayISO ->
  (previousDay dayISO daysRef s).1 = Some None ->
  copyMealsFromPreviousDay h nutriDate daysRef s = (Some daysRef, s).
Proof.
  intros Hiso Hprev. unfold copyMealsFromPreviousDay, andThen at 1.
  rewrite Hiso. cbn [orRaise pure]. unfold andThen at 1.
  pose proof (reads_previousDay dayISO daysRef s) as Hp.
  destruct (previousDay dayISO daysRef s) as [o s0]. cbn in *. by subst.
Qed.

(** *** What references denote is kept by a larger store *)

Lemma viewItems_mono (σ σ' : gmap loc Cell) (a : loc) (its : list Obj) :
  σ ⊆ σ' -> viewItems σ a = Some its -> viewItems σ' a = Some its.
Proof.
  intros Hs. unfold viewItems.
  destruct (σ !! a) as [[| ls | | |] |] eqn:E; try discriminate.
  rewrite (lookup_weaken _ _ _ _ E Hs). rewrite !mapM_Some.
  intros H. eapply Forall2_impl; [exact H |]. cbn beta. intros l o Hl.
  destruct (σ !! l) as [[o' | | | |] |] eqn:El; try discriminate.
  by rewrite (lookup_weaken _ _ _ _ El Hs).
Qed.

Lemma viewMeal_mono (σ σ' : gmap loc Cell) (l : loc) (m : Meal) :
  σ ⊆ σ' -> viewMeal σ l = Some m -> viewMeal σ' l = Some m.
Proof.
  intros Hs. unfold viewMeal.
  destruct (σ !! l) as [[| | [a |] | |] |] eqn:E; try discriminate;
    rewrite (lookup_weaken _ _ _ _ E Hs); [| done].
  destruct (viewItems σ a) as [its |] eqn:Ea; [| discriminate].
  by rewrite (viewItems_mono _ _ _ _ Hs Ea).
Qed.

Lemma allSome_Some {A : Type} (m : gmap string (option A))
  (r : gmap string A) :
  allSome m = Some r <-> (forall k, m !! k = Some <$> (r !! k)).
Proof.
  unfold allSome. split.
  - destruct (decide _) as [H | H]; [| discriminate]. intros [= <-] k.
    rewrite lookup_omap. destruct (m !! k) as [o |] eqn:E; [| done].
    by destruct (H k o E) as [a ->].
  - intros H. destruct (decide _) as [Hd | Hd].
    + f_equal. apply map_eq. intros k. rewrite lookup_omap, H.
      by destruct (r !! k).
    + exfalso. apply Hd. intros k o Hk. rewrite H in Hk.
      destruct (r !! k); [| discriminate]. injection Hk as <-. by eexists.
Qed.

(** A meals object denotes the map of what its meal objects denote. *)
Lemma viewMeals_Some (σ : gmap loc Cell) (l : loc) (ms : gmap string Meal) :
  viewMeals σ l = Some ms <->
  exists refs : gmap string loc,
    σ !! l = Some (CMeals refs)
    /\ forall k, viewMeal σ <$> (refs !! k) = Some <$> (ms !! k).
Proof.
  unfold viewMeals. split.
  - destruct (σ !! l) as [[| | | refs |] |]; try discriminate.
    intros H. exists refs. split; [done |]. intros k.
    rewrite allSome_Some in H. by rewrite <- lookup_fmap.
  - intros (refs & -> & H). apply allSome_Some. intros k.
    by rewrite lookup_fmap.
Qed.

Lemma viewMeals_mono (σ σ' : gmap loc Cell) (l : loc)
  (ms : gmap string Meal) :
  σ ⊆ σ' -> viewMeals σ l = Some ms -> viewMeals σ' l = Some ms.
Proof.
  intros Hs. rewrite !viewMeals_Some. intros (refs & Hl & H).
  exists refs. split; [by eapply lookup_weaken |]. intros k.
  specialize (H k). destruct (refs !! k) as [lm |]; [| done].
  cbn in *. destruct (ms !! k) as [m |]; [| discriminate].
  injection H as H. by rewrite (viewMeal_mono _ _ _ _ Hs H).
Qed.

Lemma viewDay_mono (σ σ' : gmap loc Cell) (l : loc) (d : Day) :
  σ ⊆ σ' -> viewDay σ l = Some d -> viewDay σ' l = Some d.
Proof.
  intros Hs. unfold viewDay.
  destruct (σ !! l) as [[| | | | dc] |] eqn:E; try discriminate.
  rewrite (lookup_weaken _ _ _ _ E Hs).
  destruct (d_meals dc) as [r |]; [| done].
  destruct (viewMeals σ r) as [ms |] eqn:Em; [| discriminate].
  by rewrite (viewMeals_mono _ _ _ _ Hs Em).
Qed.

Lemma viewDays_mono (σ σ' : gmap loc Cell) (r : loc) (days : list Day) :
  σ ⊆ σ' -> viewDays σ r = Some days -> viewDays σ' r = Some days.
Proof.
  intros Hs. unfold viewDays.
  destruct (σ !! r) as [[| ls | | |] |] eqn:E; try discriminate.
  rewrite (lookup_weaken _ _ _ _ E Hs). rewrite !mapM_Some.
  intros H. eapply Forall2_impl; [exact H |]. cbn beta.
  intros l d. by apply viewDay_mono.
Qed.

End StoreLemmas3.

(** ** The action on the store does what the action on values does *)

Section Wp.
Import Refs.

Lemma wp_pure {A : Type} (a : A) (s : Store) (Q : option A -> Store -> Prop) :
  Q (Some a) s -> wp (pure a) s Q.
Proof. done. Qed.

Lemma wp_raise {A : Type} (s : Store) (Q : option A -> Store -> Prop) :
  Q None s -> wp raise s Q.
Proof. done. Qed.

Lemma wp_andThen {A B : Type} (c : R A) (k : A -> R B) (s : Store)
  (Q : option B -> Store -> Prop) :
  wp c s (fun o s1 =>
            match o with
            | Some a => wp (k a) s1 Q
            | None => Q None s1
            end) ->
  wp (andThen c k) s Q.
Proof. unfold wp, andThen. by destruct (c s) as [[a |] s1]. Qed.

Lemma wp_conseq {A : Type} (c : R A) (s : Store)
  (Q Q' : option A -> Store -> Prop) :
  wp c s Q -> (forall o s', Q o s' -> Q' o s') -> wp c s Q'.
Proof. unfold wp. auto. Qed.

Lemma wp_orRaise {A : Type} (o : option A) (s : Store)
  (Q : option A -> Store -> Prop) :
  Q o s -> wp (orRaise o) s Q.
Proof. by destruct o. Qed.

Lemma wp_alloc (c : Cell) (s : Store) (Q : option loc -> Store -> Prop) :
  (forall l, cells s !! l = None -> Q (Some l) (withCell s l c)) ->
  wp (alloc c) s Q.
Proof. intros H. apply H, fresh_cell. Qed.

Lemma wp_store (l : loc) (c : Cell) (s : Store)
  (Q : option unit -> Store -> Prop) :
  Q (Some tt) (withCell s l c) -> wp (store l c) s Q.
Proof. done. Qed.

Lemma wp_uid (h : Host) (s : Store) (Q : option string -> Store -> Prop) :
  Q (Some (rand h (ids s))) {| cells := cells s; ids := S (ids s) |} ->
  wp (uid h) s Q.
Proof. done. Qed.

Lemma wp_loadItem (l : loc) (o : Obj) (s : Store)
  (Q : option Obj -> Store -> Prop) :
  cells s !! l = Some (CItem o) -> Q (Some o) s -> wp (loadItem l) s Q.
Proof. intros H HQ. unfold wp, loadItem, andThen, load. by rewrite H. Qed.

Lemma wp_loadArray (l : loc) (ls : list loc) (s : Store)
  (Q : option (list loc) -> Store -> Prop) :
  cells s !! l = Some (CArray ls) -> Q (Some ls) s -> wp (loadArray l) s Q.
Proof. intros H HQ. unfold wp, loadArray, andThen, load. by rewrite H. Qed.

Lemma wp_loadMeal (l : loc) (its : option loc) (s : Store)
  (Q : option (option loc) -> Store -> Prop) :
  cells s !! l = Some (CMeal its) -> Q (Some its) s -> wp (loadMeal l) s Q.
Proof. intros H HQ. unfold wp, loadMeal, andThen, load. by rewrite H. Qed.

Lemma wp_loadMeals (l : loc) (ms : gmap string loc) (s : Store)
  (Q : option (gmap string loc) -> Store -> Prop) :
  cells s !! l = Some (CMeals ms) -> Q (Some ms) s -> wp (loadMeals l) s Q.
Proof. intros H HQ. unfold wp, loadMeals, andThen, load. by rewrite H. Qed.

Lemma wp_loadDay (l : loc) (d : DayObj) (s : Store)
  (Q : option DayObj -> Store -> Prop) :
  cells s !! l = Some (CDay d) -> Q (Some d) s -> wp (loadDay l) s Q.
Proof. intros H HQ. unfold wp, loadDay, andThen, load. by rewrite H. Qed.

(** *** Views, by cases *)

Lemma viewItems_Some (σ : gmap loc Cell) (a : loc) (its : list Obj) :
  viewItems σ a = Some its <->
  exists ls : list loc, σ !! a = Some (CArray ls) /\ itemsAt σ ls its.
Proof.
  unfold viewItems, itemsAt. split.
  - destruct (σ !! a) as [[| ls | | |] |]; try discriminate.
    rewrite mapM_Some. intros H. exists ls. split; [done |].
    eapply Forall2_impl; [exact H |]. cbn beta. intros l o.
    by destruct (σ !! l) as [[] |]; intros [= ->].
  - intros (ls & -> & H). apply mapM_Some.
    eapply Forall2_impl; [exact H |]. cbn beta. by intros l o ->.
Qed.

Lemma viewMeal_Some (σ : gmap loc Cell) (l : loc) (m : Meal) :
  viewMeal σ l = Some m <->
  exists its : option loc,
    σ !! l = Some (CMeal its)
    /\ (its ≫= viewItems σ) = items m /\ (is_Some its <-> is_Some (items m)).
Proof.
  unfold viewMeal. split.
  - destruct (σ !! l) as [[| | [a |] | |] |]; try discriminate.
    + destruct (viewItems σ a) as [its |] eqn:E; [| discriminate].
      intros [= <-]. exists (Some a). cbn. rewrite E. by repeat split.
    + intros [= <-]. exists None. cbn. repeat split; by intros [? ?].
  - intros (its & -> & H1 & H2). destruct m as [im]. cbn in *.
    destruct its as [a |]; cbn in *.
    + destruct im as [l' |]; [by rewrite H1 |].
      destruct H2 as [H2 _]. destruct H2 as [? ?]; [by eexists | done].
    + destruct im as [l' |]; [| done].
      destruct H2 as [_ H2]. destruct H2 as [? ?]; [by eexists | done].
Qed.

Lemma itemsAt_mono (σ σ' : gmap loc Cell) (ls : list loc) (its : list Obj) :
  σ ⊆ σ' -> itemsAt σ ls its -> itemsAt σ' ls its.
Proof.
  intros Hs H. eapply Forall2_impl; [exact H |]. cbn beta.
  intros l o Hl. by eapply lookup_weaken.
Qed.

End Wp.

Section Clone.
Import Refs.

Lemma withCell_grows (s : Store) (l : loc) (c : Cell) :
  cells s !! l = None -> cells s ⊆ cells (withCell s l c).
Proof. intros H. by apply insert_subseteq. Qed.

Lemma mapR_cloneItem_spec (ls : list loc) (its : list Obj) (s : Store) :
  itemsAt (cells s) ls its ->
  wp (mapR cloneItem ls) s
     (fun r s' =>
        exists ls' : list loc,
          r = Some ls' /\ cells s ⊆ cells s' /\ ids s' = ids s
          /\ itemsAt (cells s') ls' (map jsonItem its)).
Proof.
  unfold itemsAt. intros H. revert s its H.
  induction ls as [| l ls IH]; intros s its H.
  - apply Forall2_nil_inv_l in H. subst. cbn [mapR]. apply wp_pure.
    exists []. repeat split; [done | constructor].
  - apply Forall2_cons_inv_l in H as (o & its' & Ho & Hrest & ->).
    cbn [mapR]. apply wp_andThen. unfold cloneItem.
    apply wp_andThen. eapply wp_loadItem; [exact Ho |].
    apply wp_alloc. intros l' Hl'.
    apply wp_andThen.
    pose proof (withCell_grows s l' (CItem (jsonItem o)) Hl') as Hg.
    eapply wp_conseq; [apply (IH _ its'); by eapply itemsAt_mono |].
    cbn beta. intros r s' (ls' & -> & Hg' & Hid & Hat).
    apply wp_pure. exists (l' :: ls').
    split; [done |].
    split; [by transitivity (cells (withCell s l' (CItem (jsonItem o)))) |].
    split; [done |].
    cbn [map]. constructor; [| done].
    eapply lookup_weaken; [| exact Hg']. apply lookup_insert_eq.
Qed.

Lemma cloneArray_spec (a : loc) (its : list Obj) (s : Store) :
  viewItems (cells s) a = Some its ->
  wp (cloneArray a) s
     (fun r s' =>
        exists a' : loc,
          r = Some a' /\ cells s ⊆ cells s' /\ ids s' = ids s
          /\ viewItems (cells s') a' = Some (map jsonItem its)).
Proof.
  intros H. apply viewItems_Some in H as (ls & Ha & Hls).
  unfold cloneArray. apply wp_andThen. eapply wp_loadArray; [exact Ha |].
  apply wp_andThen. eapply wp_conseq; [by apply mapR_cloneItem_spec |].
  cbn beta. intros r s1 (ls' & -> & Hg & Hid & Hat).
  apply wp_alloc. intros a' Ha'.
  pose proof (withCell_grows s1 a' (CArray ls') Ha') as Hg'.
  exists a'. split; [done |]. split; [by transitivity (cells s1) |].
  split; [done |].
  apply viewItems_Some. exists ls'. split; [apply lookup_insert_eq |].
  by eapply itemsAt_mono.
Qed.

Lemma cloneMeal_spec (lm : loc) (m : Meal) (s : Store) :
  viewMeal (cells s) lm = Some m ->
  wp (cloneMeal lm) s
     (fun r s' =>
        exists lm' : loc,
          r = Some lm' /\ cells s ⊆ cells s' /\ ids s' = ids s
          /\ cells s !! lm' = None
          /\ viewMeal (cells s') lm' = Some (jsonMeal m)).
Proof.
  intros H. apply viewMeal_Some in H as (its & Hlm & Hv & Hsome).
  unfold cloneMeal. apply wp_andThen. eapply wp_loadMeal; [exact Hlm |].
  apply wp_andThen. destruct its as [a |]; cbn in Hv.
  - destruct (items m) as [l |] eqn:Em; [| by destruct Hsome as [[? ?] _]].
    apply wp_andThen.
    eapply wp_conseq; [by apply cloneArray_spec |].
    cbn beta. intros r s1 (a' & -> & Hg & Hid & Hview).
    apply wp_pure. apply wp_alloc. intros lm' Hlm'.
    pose proof (withCell_grows s1 lm' (CMeal (Some a')) Hlm') as Hg'.
    exists lm'. split; [done |]. split; [by transitivity (cells s1) |].
    split; [done |]. split; [exact (lookup_weaken_None _ _ _ Hlm' Hg) |].
    apply viewMeal_Some. exists (Some a').
    split; [apply lookup_insert_eq |]. unfold jsonMeal. rewrite Em. cbn.
    split; [by eapply viewItems_mono | by split; intros _; eexists].
  - destruct (items m) as [l |] eqn:Em; [by destruct Hsome as [_ [? ?]] |].
    apply wp_pure. apply wp_alloc. intros lm' Hlm'.
    exists lm'. split; [done |]. split; [by apply withCell_grows |].
    split; [done |]. split; [done |].
    apply viewMeal_Some. exists None.
    split; [apply lookup_insert_eq |]. unfold jsonMeal. rewrite Em. cbn.
    split; [done | by split; intros [? ?]].
Qed.

Lemma viewMeal_cell (σ : gmap loc Cell) (l : loc) (m : Meal) :
  viewMeal σ l = Some m -> exists its, σ !! l = Some (CMeal its).
Proof. intros H. apply viewMeal_Some in H as (its & H & _). by exists its. Qed.

Lemma mapR_cloneEntry_spec (kvs : list (string * loc))
  (kms : list (string * Meal)) (s : Store) :
  Forall2 (fun kv km => kv.1 = km.1 /\ viewMeal (cells s) kv.2 = Some km.2)
          kvs kms ->
  wp (mapR cloneEntry kvs) s
     (fun r s' =>
        exists kvs' : list (string * loc),
          r = Some kvs' /\ cells s ⊆ cells s' /\ ids s' = ids s
          /\ Forall2 (fun kv' km =>
                        kv'.1 = km.1
                        /\ viewMeal (cells s') kv'.2 = Some (jsonMeal km.2))
                     kvs' kms
          /\ Forall (fun kv' => cells s !! kv'.2 = None) kvs'
          /\ NoDup (kvs'.*2)).
Proof.
  intros H. revert s kms H. induction kvs as [| kv kvs IH]; intros s kms H.
  - apply Forall2_nil_inv_l in H. subst. cbn [mapR]. apply wp_pure.
    exists []. split; [done |]. split; [done |]. split; [done |].
    split; [constructor |]. split; constructor.
  - apply Forall2_cons_inv_l in H as (km & kms' & [Hk Hm] & Hrest & ->).
    cbn [mapR]. apply wp_andThen. unfold cloneEntry.
    apply wp_andThen. eapply wp_conseq; [by apply cloneMeal_spec |].
    cbn beta. intros r s1 (lm' & -> & Hg & Hid & Hnew & Hview).
    apply wp_pure. apply wp_andThen.
    eapply wp_conseq.
    { apply (IH s1 kms'). eapply Forall2_impl; [exact Hrest |]. cbn beta.
      intros kv0 km0 [H1 H2]. split; [done |]. by eapply viewMeal_mono. }
    cbn beta. intros r s2 (kvs' & -> & Hg2 & Hid2 & Hall & Hnew2 & Hnd).
    apply wp_pure. exists ((kv.1, lm') :: kvs').
    split; [done |]. split; [by transitivity (cells s1) |].
    split; [congruence |]. split; [| split].
    + constructor; [| done]. split; [done |]. cbn.
      by eapply viewMeal_mono.
    + constructor; [done |]. eapply Forall_impl; [exact Hnew2 |].
      cbn beta. intros kv0 H0. exact (lookup_weaken_None _ _ _ H0 Hg).
    + cbn [fmap list_fmap snd]. constructor; [| done].
      intros Hin. apply list_elem_of_fmap in Hin as (kv0 & Heq & Hin).
      rewrite Forall_forall in Hnew2. specialize (Hnew2 kv0 Hin).
      rewrite <- Heq in Hnew2.
      apply viewMeal_cell in Hview as [its Hc]. congruence.
Qed.

Lemma cloneMeals_spec (src : loc) (ms : gmap string Meal) (s : Store) :
  viewMeals (cells s) src = Some ms ->
  wp (cloneMeals src) s
     (fun r s' =>
        exists (root : loc) (refs' : gmap string loc),
          r = Some root /\ cells s ⊆ cells s' /\ ids s' = ids s
          /\ cells s' !! root = Some (CMeals refs')
          /\ mealsAt (cells s') refs' (jsonMeals ms)
          /\ (forall k lm, refs' !! k = Some lm -> cells s !! lm = None)
          /\ (forall k1 k2 lm,
                refs' !! k1 = Some lm -> refs' !! k2 = Some lm -> k1 = k2)).
Proof.
  intros H. apply viewMeals_Some in H as (refs & Hsrc & Hrefs).
  unfold cloneMeals. apply wp_andThen. eapply wp_loadMeals; [exact Hsrc |].
  apply wp_andThen.
  set (dummy := {| items := None |}).
  set (g := fun kv : string * loc => (kv.1, default dummy (ms !! kv.1))).
  assert (Hpre : Forall2 (fun kv km =>
                   kv.1 = km.1 /\ viewMeal (cells s) kv.2 = Some km.2)
                   (map_to_list refs) (g <$> map_to_list refs)).
  { apply Forall2_fmap_r, Forall_Forall2_diag, Forall_forall.
    intros [k lm] Hin. apply elem_of_map_to_list in Hin.
    split; [done |]. cbn. specialize (Hrefs k). rewrite Hin in Hrefs.
    cbn in Hrefs. destruct (ms !! k) as [m |]; [| done].
    cbn in *. congruence. }
  eapply wp_conseq; [by apply mapR_cloneEntry_spec |].
  cbn beta. intros r s1 (kvs' & -> & Hg & Hid & Hall & Hnew & Hnd).
  apply wp_alloc. intros root Hroot.
  pose proof (withCell_grows s1 root (CMeals (list_to_map kvs')) Hroot) as Hg'.
  assert (Hkeys : kvs'.*1 = (map_to_list refs).*1).
  { apply list_eq_Forall2, Forall2_fmap.
    apply Forall2_fmap_r in Hall.
    eapply Forall2_impl; [exact Hall |]. by intros ? ? [? _]. }
  assert (Hndk : NoDup (kvs'.*1)).
  { rewrite Hkeys. apply NoDup_fst_map_to_list. }
  exists root, (list_to_map kvs').
  split; [done |]. split; [by transitivity (cells s1) |].
  split; [done |]. split; [apply lookup_insert_eq |].
  split; [| split].
  - intros k. unfold jsonMeals. rewrite lookup_fmap.
    destruct (list_to_map kvs' !! k) as [lm' |] eqn:E.
    + apply elem_of_list_to_map in E; [| done].
      apply list_elem_of_lookup in E as [i Hi].
      destruct (Forall2_lookup_l _ _ _ _ _ Hall Hi) as (km & Hkm & Hk & Hv).
      apply list_lookup_fmap_Some in Hkm as ([k0 lm0] & -> & Hkv).
      cbn in Hk, Hv. subst k0.
      apply list_elem_of_lookup_2, elem_of_map_to_list in Hkv.
      specialize (Hrefs k). rewrite Hkv in Hrefs. cbn in Hrefs.
      destruct (ms !! k) as [m |]; [| done]. cbn in *.
      f_equal. by eapply viewMeal_mono.
    + apply not_elem_of_list_to_map in E. rewrite Hkeys in E.
      assert (Hk : refs !! k = None).
      { destruct (refs !! k) as [lm |] eqn:E'; [| done].
        exfalso. apply E. apply list_elem_of_fmap. exists (k, lm).
        split; [done |]. by apply elem_of_map_to_list. }
      specialize (Hrefs k). rewrite Hk in Hrefs. cbn in Hrefs.
      by destruct (ms !! k).
  - intros k lm E. apply elem_of_list_to_map in E; [| done].
    rewrite Forall_forall in Hnew. exact (Hnew _ E).
  - intros k1 k2 lm E1 E2.
    apply elem_of_list_to_map in E1; [| done].
    apply elem_of_list_to_map in E2; [| done].
    apply list_elem_of_lookup in E1 as [i Hi].
    apply list_elem_of_lookup in E2 as [j Hj].
    assert (i = j).
    { eapply NoDup_lookup; [exact Hnd | |].
      - rewrite list_lookup_fmap, Hi. reflexivity.
      - rewrite list_lookup_fmap, Hj. reflexivity. }
    subst j. congruence.
Qed.

End Clone.

Section Assign.

Lemma itemsAt_insert (σ : gmap Refs.loc Refs.Cell) (l : Refs.loc)
  (c : Refs.Cell) (ls : list Refs.loc) (its : list Obj) :
  noItems σ l -> itemsAt σ ls its -> itemsAt (<[l := c]> σ) ls its.
Proof.
  intros Hl H. eapply Forall2_impl; [exact H |]. cbn beta.
  intros l' o Hl'. rewrite lookup_insert_ne; [done |].
  intros ->. unfold noItems in Hl. by rewrite Hl' in Hl.
Qed.

Lemma viewItems_insert (σ : gmap Refs.loc Refs.Cell) (l : Refs.loc)
  (c : Refs.Cell) (a : Refs.loc) (its : list Obj) :
  noItems σ l -> Refs.viewItems σ a = Some its ->
  Refs.viewItems (<[l := c]> σ) a = Some its.
Proof.
  intros Hl H. apply viewItems_Some in H as (ls & Ha & Hls).
  apply viewItems_Some. exists ls. split; [| by apply itemsAt_insert].
  rewrite lookup_insert_ne; [done |].
  intros ->. unfold noItems in Hl. by rewrite Ha in Hl.
Qed.

Lemma viewMeal_insert (σ : gmap Refs.loc Refs.Cell) (l : Refs.loc)
  (c : Refs.Cell) (lm : Refs.loc) (m : Meal) :
  noItems σ l -> lm <> l -> Refs.viewMeal σ lm = Some m ->
  Refs.viewMeal (<[l := c]> σ) lm = Some m.
Proof.
  intros Hl Hne H. apply viewMeal_Some in H as (its & Hlm & Hv & Hs).
  apply viewMeal_Some. exists its.
  split; [by rewrite lookup_insert_ne |]. split; [| done].
  destruct its as [a |]; [| exact Hv]. cbn in *.
  destruct (items m) as [l0 |]; [by apply viewItems_insert |].
  destruct Hs as [Hs _]. by destruct Hs as [? ?]; [eexists |].
Qed.

Lemma noItems_fresh (σ : gmap Refs.loc Refs.Cell) (l : Refs.loc) :
  σ !! l = None -> noItems σ l.
Proof. unfold noItems. by intros ->. Qed.

Lemma noItems_meal (σ : gmap Refs.loc Refs.Cell) (l : Refs.loc)
  (its : option Refs.loc) :
  σ !! l = Some (Refs.CMeal its) -> noItems σ l.
Proof. unfold noItems. by intros ->. Qed.

Lemma noItems_meals (σ : gmap Refs.loc Refs.Cell) (l : Refs.loc)
  (refs : gmap string Refs.loc) :
  σ !! l = Some (Refs.CMeals refs) -> noItems σ l.
Proof. unfold noItems. by intros ->. Qed.

Lemma mapR_copyItem_spec (h : Host) (ls : list Refs.loc) (its : list Obj)
  (s : Refs.Store) :
  itemsAt (Refs.cells s) ls its ->
  wp (Refs.mapR (Refs.copyItem h) ls) s
     (fun r s' =>
        exists (ls' : list Refs.loc) (its' : list Obj),
          r = Some ls' /\ Refs.cells s ⊆ Refs.cells s'
          /\ traverse (copyItem h) its (Refs.ids s) = Some (its', Refs.ids s')
          /\ itemsAt (Refs.cells s') ls' its').
Proof.
  unfold itemsAt. intros H. revert s its H.
  induction ls as [| l ls IH]; intros s its H.
  - apply Forall2_nil_inv_l in H as ->. cbn [Refs.mapR]. apply wp_pure.
    exists [], []. split; [done |]. split; [done |]. split; [done |].
    constructor.
  - apply Forall2_cons_inv_l in H as (o & its0 & Ho & Hrest & ->).
    cbn [Refs.mapR]. apply wp_andThen. unfold Refs.copyItem.
    apply wp_andThen. eapply wp_loadItem; [exact Ho |].
    apply wp_andThen. apply wp_uid. apply wp_alloc. cbn [Refs.cells Refs.ids].
    intros l' Hl'. apply wp_andThen.
    set (o' := normalizeFoodItem (Some (<["id" := VStr (rand h (Refs.ids s))]> o))).
    set (s1 := withCell _ l' _).
    assert (Hg : Refs.cells s ⊆ Refs.cells s1) by by apply insert_subseteq.
    eapply wp_conseq; [apply (IH s1 its0); by eapply itemsAt_mono |].
    cbn beta. intros r s' (ls' & its' & -> & Hg' & Htr & Hat).
    apply wp_pure. exists (l' :: ls'), (o' :: its').
    split; [done |]. split; [by transitivity (Refs.cells s1) |].
    split.
    + cbn [traverse]. unfold bind at 1. unfold copyItem at 1.
      unfold bind at 1. unfold uid at 1. cbn beta iota.
      unfold ret at 1. unfold bind at 1.
      change (S (Refs.ids s)) with (Refs.ids s1). rewrite Htr. reflexivity.
    + constructor; [| done].
      eapply lookup_weaken; [| exact Hg']. apply lookup_insert_eq.
Qed.

End Assign.

Section Loop.
Context (h : Host) (σ0 : gmap Refs.loc Refs.Cell) (root : Refs.loc)
  (refs : gmap string Refs.loc).
Hypothesis Hfresh : forall k lm, refs !! k = Some lm -> σ0 !! lm = None.
Hypothesis Hinj :
  forall k1 k2 lm, refs !! k1 = Some lm -> refs !! k2 = Some lm -> k1 = k2.

Lemma copyMealInto_sim (m : string) (s : Refs.Store) (ms : gmap string Meal) :
  copying σ0 root refs s ms ->
  wp (Refs.copyMealInto h root m) s
     (fun r s' =>
        match copyMealInto h ms m (Refs.ids s) with
        | Some (ms', n') =>
            r = Some tt /\ Refs.ids s' = n' /\ copying σ0 root refs s' ms'
        | None => r = None
        end).
Proof.
  intros (H0 & Hroot & Hms).
  unfold Refs.copyMealInto. apply wp_andThen.
  eapply wp_loadMeals; [exact Hroot |].
  apply wp_andThen. apply wp_orRaise.
  pose proof (Hms m) as Hm. unfold copyMealInto, bind.
  destruct (refs !! m) as [lm |] eqn:Elm; cbn in Hm.
  2:{ destruct (ms !! m); [done |]. reflexivity. }
  destruct (ms !! m) as [meal |] eqn:Emeal; [| done].
  cbn in Hm. injection Hm as Hm. cbn [lift ret].
  pose proof Hm as Hview.
  apply viewMeal_Some in Hm as (its & Hlm & Hv & Hs).
  apply wp_andThen. eapply wp_loadMeal; [exact Hlm |].
  apply wp_andThen.
  assert (Hls : exists ls,
             itemsAt (Refs.cells s) ls (default [] (items meal))
             /\ wp (match its with
                    | Some a => Refs.loadArray a
                    | None => Refs.pure []
                    end) s (fun r s' => r = Some ls /\ s' = s)).
  { destruct its as [a |]; cbn in Hv.
    - destruct (items meal) as [l0 |];
        [| destruct Hs as [Hs _]; by destruct Hs as [? ?]; [eexists |]].
      apply viewItems_Some in Hv as (ls & Ha & Hat).
      exists ls. split; [done |]. by eapply wp_loadArray.
    - destruct (items meal) as [l0 |]; [done |].
      exists []. split; [constructor | done]. }
  destruct Hls as (ls & Hat & Hload).
  eapply wp_conseq; [exact Hload |]. cbn beta.
  intros r s' [-> ->]. apply wp_andThen.
  eapply wp_conseq; [by apply mapR_copyItem_spec |]. cbn beta.
  intros r s1 (ls' & its' & -> & Hg & Htr & Hat').
  apply wp_andThen. apply wp_alloc. intros arr Harr.
  apply wp_store. rewrite Htr.
  split; [done |]. split; [done |].
  set (σ1 := <[arr := Refs.CArray ls']> (Refs.cells s1)).
  assert (Hg1 : Refs.cells s1 ⊆ σ1) by by apply insert_subseteq.
  assert (Hlm1 : σ1 !! lm = Some (Refs.CMeal its)).
  { eapply lookup_weaken; [| exact Hg1]. by eapply lookup_weaken. }
  assert (Hno : noItems σ1 lm) by by eapply noItems_meal.
  assert (Hroot1 : σ1 !! root = Some (Refs.CMeals refs)).
  { eapply lookup_weaken; [| exact Hg1]. by eapply lookup_weaken. }
  unfold copying, withCell. cbn [Refs.cells].
  fold σ1. split; [| split].
  - apply insert_subseteq_r; [by eapply Hfresh |].
    transitivity (Refs.cells s); [done |]. by transitivity (Refs.cells s1).
  - rewrite lookup_insert_ne; [done |]. intros <-. congruence.
  - intros k. destruct (decide (k = m)) as [-> | Hk].
    + rewrite Elm, lookup_insert_eq. cbn. f_equal.
      apply viewMeal_Some. exists (Some arr).
      split; [apply lookup_insert_eq |]. cbn.
      split; [| by split; intros _; eexists].
      apply viewItems_insert; [done |].
      apply viewItems_Some. exists ls'.
      split; [apply lookup_insert_eq |]. by eapply itemsAt_mono.
    + rewrite lookup_insert_ne; [| done].
      rewrite <- (Hms k).
      destruct (refs !! k) as [lm2 |] eqn:E2; [| done]. cbn.
      destruct (Refs.viewMeal (Refs.cells s) lm2) as [m2 |] eqn:Ev.
      * f_equal. apply viewMeal_insert; [done | |].
        -- intros ->. apply Hk. by eapply Hinj.
        -- eapply viewMeal_mono; [| exact Ev].
           by transitivity (Refs.cells s1).
      * exfalso. specialize (Hms k). rewrite E2 in Hms. cbn in Hms.
        rewrite Ev in Hms. by destruct (ms !! k).
Qed.

Lemma forEach_copyMealInto_sim (names : list string) (s : Refs.Store)
  (ms : gmap string Meal) :
  copying σ0 root refs s ms ->
  wp (Refs.forEach (Refs.copyMealInto h root) names) s
     (fun r s' =>
        match forEachMeal h names ms (Refs.ids s) with
        | Some (ms', n') =>
            r = Some tt /\ Refs.ids s' = n' /\ copying σ0 root refs s' ms'
        | None => r = None
        end).
Proof.
  revert s ms. induction names as [| m names IH]; intros s ms H.
  - by apply wp_pure.
  - cbn [Refs.forEach].
    change (forEachMeal h (m :: names) ms (Refs.ids s))
      with (match copyMealInto h ms m (Refs.ids s) with
            | Some (ms1, n1) => forEachMeal h names ms1 n1
            | None => None
            end).
    apply wp_andThen.
    eapply wp_conseq; [by apply copyMealInto_sim |]. cbn beta.
    intros r s1.
    destruct (copyMealInto h ms m (Refs.ids s)) as [[ms1 n1] |].
    + intros (-> & <- & H1). by apply IH.
    + by intros ->.
Qed.

End Loop.

Section Commute.
Context {A B : Type} (Rel : A -> B -> Prop).

Lemma Forall2_filter_agree (p : A -> bool) (q : B -> bool)
  (l : list A) (k : list B) :
  (forall a b, Rel a b -> p a = q b) ->
  Forall2 Rel l k -> Forall2 Rel (List.filter p l) (List.filter q k).
Proof.
  intros Hpq H. induction H as [| a b l k Hab _ IH]; [constructor |].
  cbn [List.filter]. rewrite (Hpq a b Hab).
  destruct (q b); [by constructor | done].
Qed.

Lemma Forall2_insert_by (cmpA : A -> A -> Z) (cmpB : B -> B -> Z)
  (x : A) (y : B) (l : list A) (k : list B) :
  (forall a b a' b', Rel a a' -> Rel b b' -> cmpA a b = cmpB a' b') ->
  Rel x y -> Forall2 Rel l k ->
  Forall2 Rel (insert_by cmpA x l) (insert_by cmpB y k).
Proof.
  intros Hc Hxy H. induction H as [| a b l k Hab Hlk IH].
  - by repeat constructor.
  - cbn [insert_by]. rewrite (Hc x a y b Hxy Hab).
    destruct (cmpB y b <=? 0); by repeat constructor.
Qed.

Lemma Forall2_sort_by (cmpA : A -> A -> Z) (cmpB : B -> B -> Z)
  (l : list A) (k : list B) :
  (forall a b a' b', Rel a a' -> Rel b b' -> cmpA a b = cmpB a' b') ->
  Forall2 Rel l k -> Forall2 Rel (sort_by cmpA l) (sort_by cmpB k).
Proof.
  intros Hc H. unfold sort_by. induction H as [| a b l k Hab _ IH].
  - constructor.
  - cbn [foldr]. by apply Forall2_insert_by.
Qed.

Lemma findIndex_agree (p : A -> bool) (q : B -> bool)
  (l : list A) (k : list B) :
  (forall a b, Rel a b -> p a = q b) ->
  Forall2 Rel l k -> findIndex p l = findIndex q k.
Proof.
  intros Hpq H. induction H as [| a b l k Hab _ IH]; [done |].
  cbn [findIndex]. rewrite (Hpq a b Hab), IH. reflexivity.
Qed.

End Commute.

Section Days.

Lemma viewDays_Some (σ : gmap Refs.loc Refs.Cell) (r : Refs.loc)
  (days : list Day) :
  Refs.viewDays σ r = Some days <->
  exists ls : list Refs.loc,
    σ !! r = Some (Refs.CArray ls)
    /\ Forall2 (fun l d => Refs.viewDay σ l = Some d) ls days.
Proof.
  unfold Refs.viewDays. split.
  - destruct (σ !! r) as [[| ls | | |] |]; try discriminate.
    rewrite mapM_Some. intros H. by exists ls.
  - intros (ls & -> & H). by apply mapM_Some.
Qed.

Lemma viewDay_Some (σ : gmap Refs.loc Refs.Cell) (l : Refs.loc) (d : Day) :
  Refs.viewDay σ l = Some d <->
  exists o : Refs.DayObj,
    σ !! l = Some (Refs.CDay o)
    /\ id d = Refs.d_id o /\ date d = Refs.d_date o
    /\ notes d = Refs.d_notes o /\ weight d = Refs.d_weight o
    /\ holdsMeals σ o d.
Proof.
  unfold Refs.viewDay, holdsMeals. split.
  - destruct (σ !! l) as [[| | | | o] |]; try discriminate.
    destruct (Refs.d_meals o) as [r |] eqn:E.
    + destruct (Refs.viewMeals σ r) as [ms |] eqn:Ems; [| discriminate].
      cbn. intros [= <-]. exists o. cbn. rewrite E.
      repeat split. by exists ms.
    + cbn. intros [= <-]. exists o. cbn. by rewrite E.
  - intros (o & -> & H1 & H2 & H3 & H4 & H5). destruct d as [i dt ms nt w].
    cbn in *. subst. destruct (Refs.d_meals o) as [r |].
    + destruct H5 as (ms' & -> & ->). reflexivity.
    + by subst.
Qed.

Lemma holdsDay_date (σ : gmap Refs.loc Refs.Cell)
  (p : Refs.loc * Refs.DayObj) (d : Day) :
  holdsDay σ p d -> Refs.d_date p.2 = date d.
Proof.
  intros [Hc Hv]. apply viewDay_Some in Hv as (o & Ho & _ & Hd & _).
  congruence.
Qed.

Lemma mapR_loadDayAt_spec (ls : list Refs.loc) (days : list Day)
  (s : Refs.Store) :
  Forall2 (fun l d => Refs.viewDay (Refs.cells s) l = Some d) ls days ->
  wp (Refs.mapR Refs.loadDayAt ls) s
     (fun r s' =>
        s' = s
        /\ exists ds : list (Refs.loc * Refs.DayObj),
             r = Some ds /\ ds.*1 = ls
             /\ Forall2 (holdsDay (Refs.cells s)) ds days).
Proof.
  intros H. induction H as [| l d ls days Hd _ IH].
  - apply wp_pure. split; [done |]. exists []. by repeat constructor.
  - cbn [Refs.mapR]. apply wp_andThen. unfold Refs.loadDayAt.
    apply wp_andThen.
    pose proof Hd as Hd'. apply viewDay_Some in Hd' as (o & Ho & _).
    eapply wp_loadDay; [exact Ho |]. apply wp_pure. apply wp_andThen.
    eapply wp_conseq; [exact IH |]. cbn beta.
    intros r s' (-> & ds & -> & Hfst & Hall).
    apply wp_pure. split; [done |]. exists ((l, o) :: ds).
    split; [done |]. split; [by rewrite <- Hfst |].
    by constructor.
Qed.

Lemma previousDay_sim (dayISO : Z) (r : Refs.loc) (days : list Day)
  (s : Refs.Store) :
  Refs.viewDays (Refs.cells s) r = Some days ->
  wp (Refs.previousDay dayISO r) s
     (fun o s' =>
        s' = s
        /\ match previousDay dayISO days with
           | Some prev =>
               exists p, o = Some (Some p) /\ holdsDay (Refs.cells s) p prev
           | None => o = Some None
           end).
Proof.
  intros H. apply viewDays_Some in H as (ls & Hr & Hls).
  unfold Refs.previousDay. apply wp_andThen.
  eapply wp_loadArray; [exact Hr |]. apply wp_andThen.
  eapply wp_conseq; [by apply mapR_loadDayAt_spec |]. cbn beta.
  intros o s' (-> & ds & -> & _ & Hall). apply wp_pure.
  split; [done |]. unfold previousDay.
  assert (Hs : Forall2 (holdsDay (Refs.cells s))
                 (sort_by Refs.newestFirst
                    (List.filter
                       (fun p => date_lt (Refs.d_date p.2) (Some dayISO)) ds))
                 (sort_by newestFirst
                    (List.filter
                       (fun d => date_lt (date d) (Some dayISO)) days))).
  { apply Forall2_sort_by.
    - intros a b a' b' Ha Hb. unfold Refs.newestFirst, newestFirst.
      by rewrite (holdsDay_date _ _ _ Ha), (holdsDay_date _ _ _ Hb).
    - apply Forall2_filter_agree; [| done].
      intros a b Hab. by rewrite (holdsDay_date _ _ _ Hab). }
  destruct Hs as [| p prev ? ? Hp _]; cbn [head]; [done |].
  by exists p.
Qed.

End Days.

Section Upsert.

Lemma Forall2_insert_alter {A B : Type} (P : A -> B -> Prop) (g : B -> B)
  (l : list A) (k : list B) (x : A) (i : nat) :
  Forall2 P l k -> (forall y, k !! i = Some y -> P x (g y)) ->
  Forall2 P (<[i := x]> l) (alter g i k).
Proof.
  intros H Hx. rewrite list_insert_alter. apply Forall2_alter; [done |].
  intros x0 y _ Hy _. by apply Hx.
Qed.

Lemma wp_and {A : Type} (c : Refs.R A) (s : Refs.Store)
  (Q Q' : option A -> Refs.Store -> Prop) :
  wp c s Q -> wp c s Q' -> wp c s (fun o s' => Q o s' /\ Q' o s').
Proof. unfold wp. auto. Qed.

Lemma wp_grows {A : Type} (c : Refs.R A) (s : Refs.Store) :
  grows c -> wp c s (fun _ s' => Refs.cells s ⊆ Refs.cells s').
Proof. intros H. apply H. Qed.

Lemma emptyMeals_loop (acc : Refs.loc) (names : list string) (s : Refs.Store)
  (refs : gmap string Refs.loc) (ms : gmap string Meal) :
  Refs.cells s !! acc = Some (Refs.CMeals refs) ->
  mealsAt (Refs.cells s) refs ms ->
  wp (Refs.forEach
        (fun m =>
           Refs.andThen (Refs.alloc (Refs.CArray [])) (fun a =>
           Refs.andThen (Refs.alloc (Refs.CMeal (Some a))) (fun lm =>
           Refs.andThen (Refs.loadMeals acc) (fun ms =>
           Refs.store acc (Refs.CMeals (<[m := lm]> ms))))))
        names) s
     (fun r s' =>
        r = Some tt /\ Refs.ids s' = Refs.ids s
        /\ exists refs',
             Refs.cells s' !! acc = Some (Refs.CMeals refs')
             /\ mealsAt (Refs.cells s') refs'
                  (fold_left (fun a m => <[m := {| items := Some [] |}]> a)
                             names ms)).
Proof.
  revert s refs ms. induction names as [| m names IH]; intros s refs ms Hacc Hms.
  - apply wp_pure. split; [done |]. split; [done |]. by exists refs.
  - cbn [Refs.forEach fold_left]. apply wp_andThen. apply wp_andThen.
    apply wp_alloc. intros a Ha. apply wp_andThen.
    apply wp_alloc. cbn [withCell Refs.cells]. intros lm Hlm.
    set (σ2 := <[lm := Refs.CMeal (Some a)]>
                 (<[a := Refs.CArray []]> (Refs.cells s))).
    assert (Hg : Refs.cells s ⊆ σ2).
    { transitivity (<[a := Refs.CArray []]> (Refs.cells s));
        by apply insert_subseteq. }
    assert (Hacc2 : σ2 !! acc = Some (Refs.CMeals refs))
      by by eapply lookup_weaken.
    assert (Hne : lm <> acc).
    { intros ->.
      assert (Hx : <[a := Refs.CArray []]> (Refs.cells s) !! acc
                   = Some (Refs.CMeals refs)).
      { eapply lookup_weaken; [exact Hacc | by apply insert_subseteq]. }
      congruence. }
    apply wp_andThen. eapply wp_loadMeals; [exact Hacc2 |].
    apply wp_store. cbn [withCell Refs.cells Refs.ids].
    eapply wp_conseq.
    { apply (IH _ (<[m := lm]> refs) (<[m := {| items := Some [] |}]> ms)).
      - cbn [Refs.cells]. apply lookup_insert_eq.
      - cbn [Refs.cells]. fold σ2. intros k.
        assert (Hno : noItems σ2 acc) by by eapply noItems_meals.
        destruct (decide (k = m)) as [-> | Hk].
        + rewrite !lookup_insert_eq. cbn. f_equal.
          apply viewMeal_insert; [done | done |].
          apply viewMeal_Some. exists (Some a).
          split; [apply lookup_insert_eq |]. cbn.
          split; [| by split; intros _; eexists].
          apply viewItems_Some. exists [].
          split; [| constructor].
          rewrite lookup_insert_ne; [apply lookup_insert_eq |].
          intros <-. by rewrite lookup_insert_eq in Hlm.
        + rewrite !lookup_insert_ne by done. rewrite <- (Hms k).
          destruct (refs !! k) as [lm2 |] eqn:E2; [| done]. cbn.
          specialize (Hms k). rewrite E2 in Hms. cbn in Hms.
          destruct (ms !! k) as [m2 |]; [| done]. cbn in Hms.
          injection Hms as Hms. rewrite Hms. f_equal.
          apply viewMeal_insert; [done | |].
          * intros ->. apply viewMeal_cell in Hms as [its Hc]. congruence.
          * by eapply viewMeal_mono. }
    cbn beta. cbn [Refs.ids]. intros r s'. auto.
Qed.

Lemma emptyMeals_sim (s : Refs.Store) :
  wp Refs.emptyMeals s
     (fun r s' =>
        exists l : Refs.loc,
          r = Some l /\ Refs.cells s ⊆ Refs.cells s'
          /\ Refs.ids s' = Refs.ids s
          /\ Refs.viewMeals (Refs.cells s') l = Some emptyMeals).
Proof.
  assert (H : wp Refs.emptyMeals s
                (fun r s' =>
                   Refs.ids s' = Refs.ids s
                   /\ exists l : Refs.loc,
                        r = Some l
                        /\ Refs.viewMeals (Refs.cells s') l = Some emptyMeals)).
  { unfold Refs.emptyMeals. apply wp_andThen. apply wp_alloc.
    intros acc Hacc. apply wp_andThen.
    eapply wp_conseq.
    { apply (emptyMeals_loop acc MEALS _ ∅ ∅).
      - apply lookup_insert_eq.
      - intros k. by rewrite !lookup_empty. }
    cbn beta. intros r s' (-> & Hid & refs' & Hc & Hms).
    apply wp_pure. split; [exact Hid |]. exists acc. split; [done |].
    apply viewMeals_Some. by exists refs'. }
  pose proof (grows_emptyMeals s) as Hg. unfold wp in *.
  destruct H as (Hid & l & Hr & Hv). by exists l.
Qed.

Lemma upsertDay_sim (h : Host) (nutriDate : string) (mealsRef r : Refs.loc)
  (mc : gmap string Meal) (days : list Day) (s : Refs.Store) :
  Refs.viewDays (Refs.cells s) r = Some days ->
  Refs.viewMeals (Refs.cells s) mealsRef = Some mc ->
  wp (Refs.upsertDay h nutriDate mealsRef r) s
     (fun o s' =>
        match upsertDay h nutriDate (mealsPatch mc) days (Refs.ids s) with
        | Some (days', n') =>
            exists r' : Refs.loc,
              o = Some r' /\ Refs.ids s' = n'
              /\ Refs.viewDays (Refs.cells s') r' = Some days'
        | None => o = None
        end).
Proof.
  intros Hdays Hmc. apply viewDays_Some in Hdays as (ls & Hr & Hls).
  unfold Refs.upsertDay, upsertDay, bind.
  apply wp_andThen. apply wp_orRaise.
  destruct (isoDateFromInput h nutriDate) as [dayISO |]; [| done].
  cbn [lift ret]. apply wp_andThen. eapply wp_loadArray; [exact Hr |].
  apply wp_andThen.
  eapply wp_conseq; [by apply mapR_loadDayAt_spec |]. cbn beta.
  intros o s' (-> & ds & -> & Hfst & Hall).
  unfold upsertAt.
  rewrite (findIndex_agree (holdsDay (Refs.cells s))
             (fun p => sameDayISO h (Refs.d_date p.2) (Some dayISO))
             (fun d => sameDayISO h (date d) (Some dayISO)) ds days);
    [| intros a b Hab; by rewrite (holdsDay_date _ _ _ Hab) | done].
  destruct (findIndex _ days) as [idx |] eqn:Eidx.
  - apply findIndex_Some in Eidx as (dd & Hdd & _).
    destruct (Forall2_lookup_r _ _ _ _ _ Hall Hdd) as (p & Hp & Hpd).
    apply wp_andThen. apply wp_orRaise. rewrite Hp.
    apply wp_andThen. apply wp_alloc. intros l Hl.
    apply wp_alloc. intros arr Harr.
    exists arr. split; [done |]. split; [done |].
    cbn [withCell Refs.cells] in *.
    set (d' := {| Refs.d_id := Refs.d_id p.2; Refs.d_date := Refs.d_date p.2;
                  Refs.d_meals := Some mealsRef;
                  Refs.d_notes := Refs.d_notes p.2;
                  Refs.d_weight := Refs.d_weight p.2 |}) in *.
    set (σ1 := <[l := Refs.CDay d']> (Refs.cells s)) in *.
    assert (Hg1 : Refs.cells s ⊆ σ1) by by apply insert_subseteq.
    assert (Hg2 : σ1 ⊆ <[arr := Refs.CArray (<[idx := l]> ls)]> σ1)
      by by apply insert_subseteq.
    assert (Hg : Refs.cells s ⊆ <[arr := Refs.CArray (<[idx := l]> ls)]> σ1)
      by by transitivity σ1.
    apply viewDays_Some. exists (<[idx := l]> ls).
    split; [apply lookup_insert_eq |].
    apply Forall2_insert_alter.
    + eapply Forall2_impl; [exact Hls |]. cbn beta.
      intros l0 d0. by apply viewDay_mono.
    + intros d0 Hd0. assert (d0 = dd) as -> by congruence.
      destruct Hpd as [Hc Hv].
      apply viewDay_Some in Hv as (o & Ho & Hi & Hd & Hn & Hw & _).
      assert (o = p.2) as -> by congruence.
      apply viewDay_Some. exists d'. split.
      { eapply lookup_weaken; [apply lookup_insert_eq | exact Hg2]. }
      cbn. repeat split; try done.
      unfold holdsMeals. cbn. exists mc. split; [| done].
      by eapply viewMeals_mono.
  - apply wp_andThen. apply wp_uid. apply wp_andThen.
    eapply wp_conseq; [apply emptyMeals_sim |]. cbn beta.
    cbn [Refs.cells Refs.ids].
    intros o s1 (em & -> & Hg1 & Hid1 & _).
    apply wp_andThen. apply wp_alloc. intros l Hl.
    apply wp_alloc. intros arr Harr. cbn [uid].
    eexists. split; [reflexivity |]. split; [done |].
    cbn [withCell Refs.cells] in *.
    set (d' := {| Refs.d_id := VStr (rand h (Refs.ids s));
                  Refs.d_date := Some dayISO;
                  Refs.d_meals := Some mealsRef;
                  Refs.d_notes := VStr ""; Refs.d_weight := VStr "" |}) in *.
    set (σ2 := <[l := Refs.CDay d']> (Refs.cells s1)) in *.
    set (sorted := sort_by Refs.newestFirst ((l, d') :: ds)) in *.
    assert (Hg2 : Refs.cells s1 ⊆ σ2) by by apply insert_subseteq.
    assert (Hg3 : σ2 ⊆ <[arr := Refs.CArray sorted.*1]> σ2)
      by by apply insert_subseteq.
    assert (Hg : Refs.cells s ⊆ <[arr := Refs.CArray sorted.*1]> σ2).
    { transitivity (Refs.cells s1); [done |]. by transitivity σ2. }
    apply viewDays_Some. exists (sorted.*1).
    split; [apply lookup_insert_eq |].
    apply Forall2_fmap_l.
    eapply Forall2_impl.
    { apply (Forall2_sort_by
               (fun p d => Refs.viewDay
                             (<[arr := Refs.CArray sorted.*1]> σ2) p.1 = Some d
                           /\ Refs.d_date p.2 = date d)
               Refs.newestFirst newestFirst).
      - intros a b a' b' [_ Ha] [_ Hb].
        unfold Refs.newestFirst, newestFirst. by rewrite Ha, Hb.
      - constructor.
        + split; [| done]. apply viewDay_Some. exists d'. split.
          { eapply lookup_weaken; [apply lookup_insert_eq | exact Hg3]. }
          cbn. repeat split; try done.
          unfold holdsMeals. cbn. exists mc. split; [| done].
          by eapply viewMeals_mono.
        + eapply Forall2_impl; [exact Hall |]. cbn beta.
          intros p d Hpd. split; [| by eapply holdsDay_date].
          destruct Hpd as [_ Hv]. by eapply viewDay_mono. }
    cbn beta. by intros p d [Hv _].
Qed.

End Upsert.

Section Refinement.

(** The action on the store does what the action on values does: started
    on a collection object that holds [days], it throws exactly when the
    action on values does, and otherwise draws as many identifiers and
    returns a collection object that holds the resulting days. *)
Lemma copyMealsFromPreviousDay_sim (h : Host) (nutriDate : string)
  (r : Refs.loc) (days : list Day) (s : Refs.Store) :
  Refs.viewDays (Refs.cells s) r = Some days ->
  wp (Refs.copyMealsFromPreviousDay h nutriDate r) s
     (fun o s' =>
        match copyMealsFromPreviousDay h nutriDate days (Refs.ids s) with
        | Some (days', n') =>
            exists r' : Refs.loc,
              o = Some r' /\ Refs.ids s' = n'
              /\ Refs.viewDays (Refs.cells s') r' = Some days'
        | None => o = None
        end).
Proof.
  intros Hdays.
  unfold Refs.copyMealsFromPreviousDay, copyMealsFromPreviousDay.
  unfold bind at 1.
  apply wp_andThen. apply wp_orRaise.
  destruct (isoDateFromInput h nutriDate) as [dayISO |] eqn:Eiso; [| done].
  cbn [lift ret]. apply wp_andThen.
  eapply wp_conseq; [by apply previousDay_sim |]. cbn beta.
  intros o s' [-> Hprev].
  destruct (previousDay dayISO days) as [prev |]; cycle 1.
  { subst o. apply wp_pure. by exists r. }
  destruct Hprev as ([lp p] & -> & Hc & Hv). cbn [fst snd] in *.
  apply viewDay_Some in Hv as (o & Ho & _ & _ & _ & _ & Hm).
  assert (o = p) as -> by congruence.
  apply wp_andThen.
  assert (Hsrc : wp (match Refs.d_meals p with
                     | Some ms => Refs.pure ms
                     | None => Refs.emptyMeals
                     end) s
                   (fun o s1 =>
                      exists src, o = Some src
                        /\ Refs.cells s ⊆ Refs.cells s1
                        /\ Refs.ids s1 = Refs.ids s
                        /\ Refs.viewMeals (Refs.cells s1) src
                           = Some (mealsOrEmpty prev))).
  { unfold holdsMeals in Hm. unfold mealsOrEmpty.
    destruct (Refs.d_meals p) as [msr |].
    - destruct Hm as (ms & Hms & ->). apply wp_pure. by exists msr.
    - rewrite Hm. apply emptyMeals_sim. }
  eapply wp_conseq; [exact Hsrc |]. cbn beta.
  intros o s1 (src & -> & Hg1 & Hid1 & Hview).
  apply wp_andThen.
  eapply wp_conseq; [by apply cloneMeals_spec |]. cbn beta.
  intros o s2 (root & refs' & -> & Hg2 & Hid2 & Hroot & Hat & Hfresh & Hinj).
  apply wp_andThen.
  eapply wp_conseq.
  { apply (forEach_copyMealInto_sim h (Refs.cells s1) root refs' Hfresh Hinj
             MEALS s2 (jsonMeals (mealsOrEmpty prev))).
    by repeat split. }
  cbn beta. intros o s3. rewrite Hid2, Hid1. unfold bind.
  destruct (forEachMeal h MEALS (jsonMeals (mealsOrEmpty prev)) (Refs.ids s))
    as [[mc n1] |]; [| by intros ->].
  intros (-> & <- & Hg3 & Hroot3 & Hat3).
  change (match lift (isoDateFromInput h nutriDate) (Refs.ids s3) with
          | Some (a, n') => upsertAt h a (mealsPatch mc) days n'
          | None => None
          end)
    with (upsertDay h nutriDate (mealsPatch mc) days (Refs.ids s3)).
  apply upsertDay_sim.
  - eapply viewDays_mono; [| exact Hdays]. by transitivity (Refs.cells s1).
  - apply viewMeals_Some. by exists refs'.
Qed.

End Refinement.


(** ** The prior day stays in the collection *)

Lemma previousDay_spec (dayISO : Z) (days : list Day) (prev : Day) :
  previousDay dayISO days = Some prev ->
  prev ∈ days /\ exists t : Z, date prev = Some t /\ t < dayISO.
Proof.
  unfold previousDay. intros H. apply head_Some_elem_of in H.
  rewrite sort_by_perm in H. apply list_elem_of_In, filter_In in H as [H1 H2].
  split; [by apply list_elem_of_In |].
  destruct (date prev) as [t |]; [| discriminate].
  exists t. split; [done |]. cbn in H2. lia.
Qed.

Lemma upsertAt_keeps_others (h : Host) (dayISO : Z) (p : Patch)
  (days days' : list Day) (n n' : nat) (d : Day) :
  upsertAt h dayISO p days n = Some (days', n') ->
  d ∈ days -> sameDayISO h (date d) (Some dayISO) = false ->
  d ∈ days'.
Proof.
  unfold upsertAt. intros H Hd Hother.
  destruct (findIndex _ days) as [idx |] eqn:E.
  - injection H as <- <-.
    apply findIndex_Some in E as (x & Hx & Hp & _).
    apply list_elem_of_lookup in Hd as [j Hj].
    apply list_elem_of_lookup. exists j.
    rewrite list_lookup_alter_ne; [done |].
    intros ->. congruence.
  - unfold bind, uid, ret in H. injection H as <- <-.
    set (new := applyPatch _ p).
    rewrite (sort_by_perm newestFirst (new :: days)). by right.
Qed.

Lemma copyMealsFromPreviousDay_keeps_previous (h : Host) (nutriDate : string)
  (days days' : list Day) (n n' : nat) (dayISO : Z) (prev : Day) :
  isoDateFromInput h nutriDate = Some dayISO ->
  previousDay dayISO days = Some prev ->
  copyMealsFromPreviousDay h nutriDate days n = Some (days', n') ->
  prev ∈ days'.
Proof.
  intros Hiso Hprev H. unfold copyMealsFromPreviousDay in H.
  apply bind_Some in H as (dayISO' & n1 & H1 & H).
  apply lift_Some in H1 as [H1 _]. cbn in H1.
  assert (dayISO' = dayISO) as -> by congruence.
  rewrite Hprev in H.
  apply bind_Some in H as (mealsCopy & n2 & _ & H).
  unfold upsertDay in H.
  apply bind_Some in H as (dayISO' & n3 & H1' & H).
  apply lift_Some in H1' as [H1' _]. cbn in H1'.
  assert (dayISO' = dayISO) as -> by congruence.
  apply previousDay_spec in Hprev as (Hin & t & Ht & Hlt).
  eapply upsertAt_keeps_others; [exact H | exact Hin |].
  rewrite Ht. by eapply before_midnight_other_day.
Qed.

Lemma copyMealsFromPreviousDay_none (h : Host) (nutriDate : string)
  (days : list Day) (n : nat) (dayISO : Z) :
  isoDateFromInput h nutriDate = Some dayISO ->
  previousDay dayISO days = None ->
  copyMealsFromPreviousDay h nutriDate days n = Some (days, n).
Proof.
  intros Hiso Hprev. unfold copyMealsFromPreviousDay.
  rewrite (bind_run _ _ n n dayISO) by (by rewrite Hiso).
  by rewrite Hprev.
Qed.

(** ** The upsert *)

Lemma upsertAt_patches_or_creates (h : Host) (dayISO : Z) (p : Patch)
  (days : list Day) (n : nat) :
  exists (days' : list Day) (n' : nat),
    upsertAt h dayISO p days n = Some (days', n')
    /\ ((exists (idx : nat) (d : Day),
           days !! idx = Some d
           /\ sameDayISO h (date d) (Some dayISO) = true
           /\ days' = alter (fun d => applyPatch d p) idx days)
        \/ (Forall (fun d => sameDayISO h (date d) (Some dayISO) = false) days
            /\ Permutation days'
                 (applyPatch (blankDay (VStr (rand h n)) dayISO) p :: days))).
Proof.
  unfold upsertAt. destruct (findIndex _ days) as [idx |] eqn:E.
  - apply findIndex_Some in E as (d & Hd & Hp & _).
    eexists _, _. split; [reflexivity |]. left. by exists idx, d.
  - apply findIndex_None in E.
    eexists _, _. split; [reflexivity |]. right. split; [done |].
    apply sort_by_perm.
Qed.

(** ** The claims about the collection *)

(** C6. Copy-forward never changes an object that existed before it, so
    every day, the prior day included, denotes after the copy what it
    denoted before, and the old collection reference still denotes the old
    collection; whether the action completes or throws.  When there is no
    prior day the action returns the collection it was given and leaves
    the store as it is.  The action on the store does what the action on
    values does: on a collection object that holds [days] it throws exactly
    when that one does, and otherwise returns a collection object that
    holds the days that one returns.  On values: the prior day the copy was
    taken from is still a member of the resulting collection, as it was,
    and without a prior day the collection is returned unchanged.  On the
    example store, which holds one day, the action builds a new collection
    of two days for a later date, and changes nothing for an earlier one. *)
Theorem copyMealsFromPreviousDay_keeps_source (h : Host) (nutriDate : string)
  (daysRef : Refs.loc) (s : Refs.Store) :
  let out := Refs.copyMealsFromPreviousDay h nutriDate daysRef s in
  (forall (l : Refs.loc) (c : Refs.Cell),
     Refs.cells s !! l = Some c -> Refs.cells out.2 !! l = Some c)
  /\ (forall (l : Refs.loc) (d : Day),
        Refs.viewDay (Refs.cells s) l = Some d ->
        Refs.viewDay (Refs.cells out.2) l = Some d)
  /\ (forall days : list Day,
        Refs.viewDays (Refs.cells s) daysRef = Some days ->
        Refs.viewDays (Refs.cells out.2) daysRef = Some days)
  /\ (forall dayISO : Z,
        isoDateFromInput h nutriDate = Some dayISO ->
        (Refs.previousDay dayISO daysRef s).1 = Some None ->
        out = (Some daysRef, s))
  /\ (forall days : list Day,
        Refs.viewDays (Refs.cells s) daysRef = Some days ->
        match copyMealsFromPreviousDay h nutriDate days (Refs.ids s) with
        | Some (days', n') =>
            exists r' : Refs.loc,
              out.1 = Some r' /\ Refs.ids out.2 = n'
              /\ Refs.viewDays (Refs.cells out.2) r' = Some days'
        | None => out.1 = None
        end)
  /\ (forall (days days' : list Day) (n n' : nat) (dayISO : Z) (prev : Day),
        isoDateFromInput h nutriDate = Some dayISO ->
        previousDay dayISO days = Some prev ->
        copyMealsFromPreviousDay h nutriDate days n = Some (days', n') ->
        prev ∈ days')
  /\ (forall (days : list Day) (n : nat) (dayISO : Z),
        isoDateFromInput h nutriDate = Some dayISO ->
        previousDay dayISO days = None ->
        copyMealsFromPreviousDay h nutriDate days n = Some (days, n))
  /\ (exists r : Refs.loc,
        (length <$> Refs.viewDays exampleCells 11%nat) = Some 1%nat
        /\ (Refs.copyMealsFromPreviousDay utcHost "2024-03-10" 11%nat
              exampleStore).1 = Some r
        /\ r <> 11%nat
        /\ (length <$> Refs.viewDays
              (Refs.cells (Refs.copyMealsFromPreviousDay utcHost "2024-03-10"
                             11%nat exampleStore).2) r) = Some 2%nat
        /\ (Refs.previousDay (19783 * msPerDay) 11%nat exampleStore).1
           = Some None
        /\ Refs.copyMealsFromPreviousDay utcHost "2024-03-01" 11%nat
             exampleStore = (Some 11%nat, exampleStore)).
Proof.
  cbv zeta.
  pose proof (copyMealsFromPreviousDay_frame h nutriDate daysRef s) as Hf.
  split; [| split; [| split; [| split; [| split; [| split; [| split]]]]]].
  - intros l c Hl. by eapply lookup_weaken.
  - intros l d. by apply viewDay_mono.
  - intros days. by apply viewDays_mono.
  - apply copyMealsFromPreviousDay_nothing.
  - intros days. exact (copyMealsFromPreviousDay_sim h nutriDate daysRef days s).
  - intros days days' n n' dayISO prev.
    apply copyMealsFromPreviousDay_keeps_previous.
  - intros days n dayISO. apply copyMealsFromPreviousDay_none.
  - exists 37%nat.
    split; [by vm_compute |]. split; [by vm_compute |].
    split; [intros H; discriminate H |]. split; [by vm_compute |].
    split; [by vm_compute |].
    apply (copyMealsFromPreviousDay_nothing utcHost "2024-03-01" 11%nat
             exampleStore (19783 * msPerDay)); by vm_compute.
Qed.

(** C8 (amended). Every state reached from a fresh installation by the
    actions other than the import has at most one day per calendar date,
    dates being compared by year, month and day; and in such a state the
    upsert keeps that property: it patches the day of the chosen date in
    place when there is one, and adds a new day, found nowhere else in the
    collection, when there is none. *)
Theorem upsert_keeps_one_day_per_date (h : Host) (st : State) :
  reachable h notImport st ->
  oneDayPerDate h (nutritionDays st)
  /\ forall (dayISO : Z) (p : Patch) (n : nat),
       exists (days' : list Day) (n' : nat),
         upsertAt h dayISO p (nutritionDays st) n = Some (days', n')
         /\ oneDayPerDate h days'
         /\ ((exists (idx : nat) (d : Day),
                nutritionDays st !! idx = Some d
                /\ sameDayISO h (date d) (Some dayISO) = true
                /\ days'
                   = alter (fun d => applyPatch d p) idx (nutritionDays st))
             \/ (Forall (fun d => sameDayISO h (date d) (Some dayISO) = false)
                        (nutritionDays st)
                 /\ Permutation days'
                      (applyPatch (blankDay (VStr (rand h n)) dayISO) p
                         :: nutritionDays st))).
Proof.
  intros Hreach. apply reachable_one_day_per_date in Hreach.
  split; [exact Hreach |].
  intros dayISO p n.
  destruct (upsertAt_patches_or_creates h dayISO p (nutritionDays st) n)
    as (days' & n' & Hup & Hcases).
  exists days', n'. split; [exact Hup |]. split; [| exact Hcases].
  by eapply upsertAt_keeps.
Qed.

(** The state [editedState] is reached without an import. *)
Lemma upsert_keeps_one_day_per_date_witness :
  reachable utcHost notImport editedState
  /\ oneDayPerDate utcHost (nutritionDays editedState).
Proof.
  assert (H : reachable utcHost notImport editedState).
  { unfold editedState.
    apply reachable_step; [| reflexivity].
    apply reachable_step; [| reflexivity].
    apply reachable_initial. }
  split; [exact H |].
  exact (proj1 (upsert_keeps_one_day_per_date utcHost editedState H)).
Defined.

(** C8, as stated, fails: the import installs the collection it is given,
    so a state with two days on one calendar date is reachable. *)
Lemma import_breaks_one_day_per_date :
  reachable utcHost anyAction importedState
  /\ ~ oneDayPerDate utcHost (nutritionDays importedState).
Proof.
  split.
  - unfold importedState. apply reachable_step; [| reflexivity].
    apply reachable_initial.
  - intros H.
    specialize (H 0%nat 1%nat (dayAt 19790) (dayAt 19790)
                  eq_refl eq_refl eq_refl).
    discriminate H.
Qed.




(* ===================================================================== *)
(** * Further properties of the code *)
(* ===================================================================== *)

(** ** Trimming *)






Lemma eqb_empty (s : string) : String.eqb s "" = false <-> s <> "".
Proof. by rewrite String.eqb_neq. Qed.

(** ** The route handler *)


Lemma Zrange_elem (lo : Z) (n : nat) (z : Z) :
  lo <= z < lo + Z.of_nat n -> In z (Zrange lo n).
Proof.
  intros H. unfold Zrange. apply in_map_iff. exists (Z.to_nat (z - lo)).
  split; [lia |]. apply in_seq. lia.
Qed.

Lemma Zrange_forallb (lo : Z) (n : nat) (p : Z -> bool) (z : Z) :
  forallb p (Zrange lo n) = true -> lo <= z < lo + Z.of_nat n -> p z = true.
Proof.
  intros H Hz. rewrite forallb_forall in H. by apply H, Zrange_elem.
Qed.








Section Rounding.

Lemma Qc_le_Q (a b : Qc) : (a <= b)%Qc <-> (this a <= this b)%Q.
Proof. reflexivity. Qed.







End Rounding.

Section Mean.









End Mean.

Section ChartLemmas.








End ChartLemmas.





Section Sanitize.

Lemma prop_insert (o : Obj) (k : string) (v : Val) :
  prop (<[k := v]> o) k = v.
Proof. unfold prop, get. by rewrite lookup_insert_eq. Qed.

Lemma prop_insert_ne (o : Obj) (k k' : string) (v : Val) :
  k <> k' -> prop (<[k := v]> o) k' = prop o k'.
Proof. intros H. unfold prop, get. by rewrite lookup_insert_ne. Qed.









End Sanitize.


Section Latest.

Lemma insert_latestFirst_sorted (x : Workout) (l : list Workout) :
  is_Some (w_createdAt x) -> Forall (fun w => is_Some (w_createdAt w)) l ->
  StronglySorted notBefore l ->
  StronglySorted notBefore (insert_by latestFirst x l).
Proof.
  intros [tx Hx] Hall Hs. induction Hs as [| y l Hl IH Hy]; cbn [insert_by].
  - repeat constructor.
  - apply Forall_cons in Hall as [[ty Hty] Hall].
    unfold latestFirst at 1. rewrite Hx, Hty. cbn [date_lt].
    destruct (tx <? ty) eqn:E; cbn [Z.leb Z.compare].
    + apply Z.ltb_lt in E. constructor; [by apply IH |].
      assert (Hperm := insert_by_perm latestFirst x l).
      eapply Permutation_Forall; [symmetry; exact Hperm |].
      constructor; [| done]. exists ty, tx. repeat split; [done | done | lia].
    + apply Z.ltb_ge in E. constructor; [by constructor |].
      constructor; [exists tx, ty; by repeat split |].
      eapply Forall_impl; [exact Hy |]. cbn beta.
      intros z (a & b & Ha & Hb & Hab). exists tx, b.
      repeat split; [done | done |]. assert (a = ty) by congruence. lia.
Qed.

Lemma sort_latestFirst_sorted (l : list Workout) :
  Forall (fun w => is_Some (w_createdAt w)) l ->
  StronglySorted notBefore (sort_by latestFirst l).
Proof.
  unfold sort_by. induction 1 as [| x l Hx Hl IH]; cbn [foldr].
  - constructor.
  - apply insert_latestFirst_sorted; [done | | done].
    by apply sort_by_Forall.
Qed.

Lemma filter_sorted {A : Type} (R : A -> A -> Prop) (p : A -> bool)
  (l : list A) :
  StronglySorted R l -> StronglySorted R (List.filter p l).
Proof.
  induction 1 as [| x l Hl IH Hx]; cbn [List.filter]; [constructor |].
  destruct (p x); [| done]. constructor; [done |].
  apply Forall_forall. intros y Hy. rewrite Forall_forall in Hx.
  apply Hx. apply list_elem_of_In in Hy. apply filter_In in Hy as [Hy _].
  by apply list_elem_of_In.
Qed.

End Latest.

(** X8. When the workouts all carry a creation time, the saved workouts are
    in order of creation, newest first, after [saveWorkout], however they
    were ordered before; the first of them, the one
    [copyMostRecentWorkoutIntoActive] copies from, is then the newest; and
    [deleteWorkout] keeps the order. *)
Theorem saveWorkout_newest_first (w : Workout) (ws : list Workout) :
  Forall (fun w => is_Some (w_createdAt w)) (w :: ws) ->
  let ws' := (saveWorkout (Some w) ws).1 in
  StronglySorted notBefore ws'
  /\ (forall first x : Workout,
        head ws' = Some first -> x ∈ ws' ->
        x = first \/ notBefore first x)
  /\ (forall workoutId : Val,
        StronglySorted notBefore (deleteWorkout workoutId ws')).
Proof.
  intros Hall ws'.
  assert (Hs : StronglySorted notBefore ws').
  { unfold ws', saveWorkout. cbn [fst]. apply sort_latestFirst_sorted.
    inversion Hall as [| ? ? [t Ht] Hrest]; subst. constructor.
    - by exists t.
    - done. }
  split; [exact Hs |]. split.
  - intros first x Hh Hx. destruct ws' as [| y l]; [done |].
    injection Hh as ->. apply StronglySorted_inv in Hs as [_ Hf].
    apply elem_of_cons in Hx as [-> | Hx]; [by left | right].
    rewrite Forall_forall in Hf. by apply Hf.
  - intros workoutId. by apply filter_sorted.
Qed.

Section Copy.
Context (h : Host).

Lemma draws_S (n k : nat) :
  draws h n (S k) = VStr (rand h n) :: draws h (S n) k.
Proof. reflexivity. Qed.

Lemma draws_app (n k1 k2 : nat) :
  draws h n (k1 + k2) = draws h n k1 ++ draws h (n + k1) k2.
Proof. unfold draws. by rewrite seq_app, map_app. Qed.

Lemma traverse_copySet (sets : list Obj) (n : nat) :
  exists sets' : list Obj,
    traverse (copySet h) sets n = Some (sets', (n + length sets)%nat)
    /\ Forall2 setCopy sets sets'
    /\ map (fun s => prop s "id") sets' = draws h n (length sets).
Proof.
  revert n. induction sets as [| s sets IH]; intros n.
  - exists []. cbn. rewrite Nat.add_0_r.
    split; [done |]. split; [constructor | done].
  - destruct (IH (S n)) as (sets' & Htr & Hall & Hids).
    exists (<["id" := VStr (rand h n)]> s :: sets').
    split; [| split].
    + cbn [traverse]. unfold bind at 1. unfold copySet at 1.
      unfold bind at 1. unfold uid at 1. cbn beta iota. unfold ret at 1.
      unfold bind at 1. rewrite Htr. cbn [length]. unfold ret.
      do 2 f_equal. lia.
    + constructor; [| done]. unfold setCopy. by rewrite prop_insert.
    + cbn [map length]. rewrite prop_insert, draws_S. by rewrite Hids.
Qed.

Lemma copyEntry_spec (e : Entry) (n : nat) :
  exists c : Entry,
    copyEntry h e n = Some (c, (n + length (idsOf e))%nat)
    /\ entryCopy e c /\ idsOf c = draws h n (length (idsOf e)).
Proof.
  destruct (traverse_copySet (default [] (e_sets e)) (S n))
    as (sets' & Htr & Hall & Hids).
  eexists. split; [| split].
  - unfold copyEntry. unfold bind at 1. unfold uid at 1. cbn beta iota.
    unfold bind at 1. rewrite Htr. unfold ret. do 2 f_equal.
    unfold idsOf. cbn [length]. rewrite length_map. lia.
  - unfold entryCopy. cbn [e_fields e_sets]. split.
    + rewrite prop_insert_ne by done. by rewrite prop_insert.
    + by exists sets'.
  - unfold idsOf. cbn [e_fields e_sets from_option Datatypes.id length].
    rewrite prop_insert_ne by done. rewrite prop_insert, draws_S.
    by rewrite length_map, Hids.
Qed.

Lemma traverse_copyEntry (ents : list Entry) (n : nat) :
  exists copied : list Entry,
    traverse (copyEntry h) ents n
    = Some (copied, (n + length (concat (map idsOf ents)))%nat)
    /\ Forall2 entryCopy ents copied
    /\ concat (map idsOf copied)
       = draws h n (length (concat (map idsOf ents))).
Proof.
  revert n. induction ents as [| e ents IH]; intros n.
  - exists []. cbn. rewrite Nat.add_0_r.
    split; [done |]. split; [constructor | done].
  - destruct (copyEntry_spec e n) as (c & Hc & Hcopy & Hids).
    destruct (IH (n + length (idsOf e))%nat) as (copied & Htr & Hall & Hids').
    exists (c :: copied). split; [| split].
    + cbn [traverse]. unfold bind at 1. rewrite Hc.
      unfold bind at 1. rewrite Htr. unfold ret. do 2 f_equal.
      cbn [map concat]. rewrite length_app. lia.
    + by constructor.
    + cbn [map concat]. rewrite length_app, draws_app. by rewrite Hids, Hids'.
Qed.

End Copy.

(** X9. With an active workout and a saved one,
    [copyMostRecentWorkoutIntoActive] replaces the entries of the active
    workout by copies of the entries of the first saved workout: the same
    entries and sets in the same order, each under an identifier drawn for
    it, no draw being used twice, and with a missing duration made the
    empty text.  Without an active workout or without a saved one nothing
    changes and nothing is drawn. *)
Theorem copyMostRecentWorkoutIntoActive_copies (h : Host)
  (activeWorkout : option Workout) (workouts : list Workout) (n : nat) :
  match activeWorkout, head workouts with
  | Some w, Some mostRecent =>
      let source := default [] (w_entries mostRecent) in
      let total := length (concat (map idsOf source)) in
      exists copied : list Entry,
        copyMostRecentWorkoutIntoActive h activeWorkout workouts n
        = Some (Some (withEntries w copied), (n + total)%nat)
        /\ Forall2 entryCopy source copied
        /\ concat (map idsOf copied) = draws h n total
  | _, _ =>
      copyMostRecentWorkoutIntoActive h activeWorkout workouts n
      = Some (activeWorkout, n)
  end.
Proof.
  unfold copyMostRecentWorkoutIntoActive.
  destruct activeWorkout as [w |]; [| done].
  destruct (head workouts) as [mostRecent |]; [| done].
  cbv zeta.
  destruct (traverse_copyEntry h (default [] (w_entries mostRecent)) n)
    as (copied & Htr & Hall & Hids).
  exists copied. split; [| done].
  unfold bind. by rewrite Htr.
Qed.

Section Library.







End Library.



Section Tenths.





End Tenths.


Section Digits.


Lemma digit_char_inj (a b : Z) :
  0 <= a <= 9 -> 0 <= b <= 9 -> digit_char a = digit_char b -> a = b.
Proof.
  intros Ha Hb H. unfold digit_char in H.
  apply (f_equal N_of_ascii) in H. rewrite !N_ascii_embedding in H; lia.
Qed.



Lemma year_digits (y : Z) :
  1000 <= y <= 9999 -> digitsOf 4 (Z_to_string y) y = true.
Proof.
  intros H.
  apply (Zrange_forallb 1000 (Z.to_nat 9000)
           (fun y => digitsOf 4 (Z_to_string y) y) y);
    [by vm_compute | lia].
Qed.

Lemma pad_digits (n : Z) : 1 <= n <= 31 -> digitsOf 2 (pad n) n = true.
Proof.
  intros H.
  apply (Zrange_forallb 1 31 (fun n => digitsOf 2 (pad n) n) n);
    [by vm_compute | lia].
Qed.

Lemma digitsOf_4 (s : string) (n : Z) :
  digitsOf 4 s n = true ->
  exists a b c e : ascii,
    list_ascii_of_string s = [a; b; c; e]
    /\ forallb (is_digit 10) [a; b; c; e] = true
    /\ digits_value 10 [a; b; c; e] = n.
Proof.
  unfold digitsOf. rewrite !andb_true_iff.
  intros [[Hl Hd] Hv]. apply Nat.eqb_eq in Hl. apply Z.eqb_eq in Hv.
  destruct (list_ascii_of_string s) as [| a [| b [| c [| e [| ? ?]]]]];
    try discriminate Hl.
  by exists a, b, c, e.
Qed.

Lemma digitsOf_2 (s : string) (n : Z) :
  digitsOf 2 s n = true ->
  exists a b : ascii,
    list_ascii_of_string s = [a; b]
    /\ forallb (is_digit 10) [a; b] = true
    /\ digits_value 10 [a; b] = n.
Proof.
  unfold digitsOf. rewrite !andb_true_iff.
  intros [[Hl Hd] Hv]. apply Nat.eqb_eq in Hl. apply Z.eqb_eq in Hv.
  destruct (list_ascii_of_string s) as [| a [| b [| ? ?]]];
    try discriminate Hl.
  by exists a, b.
Qed.

End Digits.

Section DateText.
Context (h : Host).

Lemma localDay_midnight (D : Z) : localDay h (D * msPerDay - tz h) = D.
Proof.
  unfold localDay, msPerDay.
  replace (D * 86400000 - tz h + tz h) with (D * 86400000) by lia.
  by apply Z.div_mul.
Qed.

Lemma parse_ymdString (t : Z) :
  1000 <= getFullYear h t <= 9999 ->
  parseDateInput (ymdString h t) = Some (civil_from_days (localDay h t)).
Proof.
  intros Hy.
  destruct (civil_from_days_bounds (localDay h t)) as [Hm Hd].
  apply year_digits, digitsOf_4 in Hy as (y1 & y2 & y3 & y4 & Ey & Dy & Vy).
  assert (Hm' : 1 <= getMonth h t + 1 <= 31) by (unfold getMonth; lia).
  apply pad_digits, digitsOf_2 in Hm' as (m1 & m2 & Em & Dm & Vm).
  assert (Hd' : 1 <= getDate h t <= 31) by (unfold getDate; lia).
  apply pad_digits, digitsOf_2 in Hd' as (d1 & d2 & Ed & Dd & Vd).
  unfold parseDateInput, ymdString.
  rewrite !list_ascii_app, Ey, Em, Ed. cbn [app list_ascii_of_string].
  assert (Hall : forallb (is_digit 10) [y1; y2; y3; y4; m1; m2; d1; d2] = true).
  { cbn [forallb] in *. rewrite !andb_true_r in *.
    rewrite !andb_true_iff in *. tauto. }
  rewrite Hall, Vy, Vm, Vd. cbn [andb].
  change ((code "-" =? 45) && (code "-" =? 45)) with true. cbn iota.
  assert (E : (getFullYear h t, getMonth h t + 1, getDate h t)
              = civil_from_days (localDay h t)).
  { unfold getFullYear, getMonth, getDate.
    destruct (civil_from_days (localDay h t)) as [[y m] d]. cbn. f_equal.
    f_equal. lia. }
  rewrite E, days_from_civil_from_days.
  by rewrite bool_decide_eq_true_2.
Qed.


Lemma isoDateFromInput_toISODateInput (t : Z) :
  1000 <= getFullYear h t <= 9999 ->
  isoDateFromInput h (toISODateInput h (Some t))
  = Some (localDay h t * msPerDay - tz h).
Proof.
  intros Hy. cbn [toISODateInput]. unfold isoDateFromInput.
  by rewrite (parse_ymdString t Hy), days_from_civil_from_days.
Qed.

End DateText.


Section Selected.
Context (h : Host).

Lemma upsertAt_patched (dayISO : Z) (p : Patch) (days : list Day) (n : nat) :
  exists days' : list Day,
    upsertAt h dayISO p days n = Some (days', drawnAfter h dayISO days n)
    /\ List.find (fun d => sameDayISO h (date d) (Some dayISO)) days'
       = Some (applyPatch (patched h dayISO days n) p)
    /\ (forall d, d ∈ days ->
          sameDayISO h (date d) (Some dayISO) = false -> d ∈ days').
Proof.
  unfold upsertAt, patched, drawnAfter. rewrite find_findIndex.
  destruct (findIndex _ days) as [idx |] eqn:E.
  - apply findIndex_Some in E as (d & Hd & Hp & Hpre).
    cbn. rewrite Hd. cbn.
    exists (alter (fun d => applyPatch d p) idx days).
    split; [reflexivity |]. split.
    + by apply (find_alter_first _ (fun d => applyPatch d p)).
    + intros x Hx Hne. apply list_elem_of_lookup in Hx as [i Hi].
      apply list_elem_of_lookup. exists i.
      destruct (decide (i = idx)) as [-> | Hi'].
      * assert (x = d) as -> by congruence. congruence.
      * by rewrite list_lookup_alter_ne.
  - apply findIndex_None in E. cbn.
    set (new := applyPatch (blankDay (VStr (rand h n)) dayISO) p).
    exists (sort_by newestFirst (new :: days)).
    split; [reflexivity |]. split.
    + apply (find_unique _ days); [apply sort_by_perm | | done].
      apply sameDayISO_refl.
    + intros x Hx _.
      apply (elem_of_Permutation_proper _ _ _ (sort_by_perm newestFirst (new :: days))).
      by right.
Qed.

Lemma selectedDay_patched (nutriDate : string) (dayISO : Z) (days : list Day)
  (n : nat) :
  isoDateFromInput h nutriDate = Some dayISO ->
  exists sel : Day,
    selectedDay h nutriDate days = Some sel
    /\ mealsOrEmpty (patched h dayISO days n) = mealsOrEmpty sel
    /\ date (patched h dayISO days n) = date sel
    /\ notes (patched h dayISO days n) = notes sel
    /\ weight (patched h dayISO days n) = weight sel
    /\ (is_Some (List.find (fun d => sameDayISO h (date d) (Some dayISO)) days)
        -> patched h dayISO days n = sel).
Proof.
  intros Hiso. unfold selectedDay, patched. rewrite Hiso.
  eexists. split; [reflexivity |].
  destruct (List.find _ days); cbn; repeat split; try done.
Qed.

Lemma upsertDay_meals (nutriDate : string) (dayISO : Z) (days : list Day)
  (ms : gmap string Meal) (n : nat) :
  isoDateFromInput h nutriDate = Some dayISO ->
  exists (days' : list Day) (dst : Day),
    upsertDay h nutriDate (mealsPatch ms) days n
    = Some (days', drawnAfter h dayISO days n)
    /\ selectedDay h nutriDate days' = Some dst
    /\ mealsOrEmpty dst = ms
    /\ (forall d, d ∈ days ->
          sameDayISO h (date d) (Some dayISO) = false -> d ∈ days').
Proof.
  intros Hiso.
  destruct (upsertAt_patched dayISO (mealsPatch ms) days n)
    as (days' & Hup & Hfind & Hkeep).
  exists days', (applyPatch (patched h dayISO days n) (mealsPatch ms)).
  split; [| split; [| split; [done | done]]].
  - unfold upsertDay. by rewrite (bind_run _ _ n n dayISO) by (by rewrite Hiso).
  - unfold selectedDay. by rewrite Hiso, Hfind.
Qed.

Lemma upsertDay_rewritesMeal (nutriDate mealName : string) (dayISO : Z)
  (days : list Day) (sel : Day) (its : list Obj) (n n0 : nat) :
  isoDateFromInput h nutriDate = Some dayISO ->
  rewritesMeal h nutriDate mealName dayISO days sel
    (fun _ => upsertDay h nutriDate
       (mealsPatch (<[mealName := {| items := Some its |}]> (mealsOrEmpty sel)))
       days n0) n n0 its.
Proof.
  intros Hiso.
  destruct (upsertDay_meals nutriDate dayISO days
              (<[mealName := {| items := Some its |}]> (mealsOrEmpty sel))
              n0 Hiso) as (days' & dst & Hup & Hs & Hm & Hkeep).
  exists days', dst. split; [done |]. split; [done |]. split; [done |].
  split; [| split; [| done]].
  - rewrite Hm. apply mealItems_insert.
  - intros m Hne. rewrite Hm. unfold mealItems.
    by rewrite lookup_insert_ne.
Qed.

Lemma addFoodToMeal_rewritesMeal (nutriDate mealName : string) (dayISO : Z)
  (days : list Day) (sel : Day) (item : Obj) (n : nat) :
  isoDateFromInput h nutriDate = Some dayISO ->
  selectedDay h nutriDate days = Some sel ->
  rewritesMeal h nutriDate mealName dayISO days sel
    (addFoodToMeal h nutriDate mealName item days) n (S n)
    (normalizeFoodItem (Some (<["id" := VStr (rand h n)]> item))
       :: mealItems (mealsOrEmpty sel) mealName).
Proof.
  intros Hiso Hsel.
  destruct (upsertDay_rewritesMeal nutriDate mealName dayISO days sel
              (normalizeFoodItem (Some (<["id" := VStr (rand h n)]> item))
                 :: mealItems (mealsOrEmpty sel) mealName) n (S n) Hiso)
    as (days' & dst & Hc & Hrest).
  exists days', dst. split; [| exact Hrest].
  unfold addFoodToMeal.
  rewrite (bind_run _ _ n n sel) by (by rewrite Hsel).
  unfold bind at 1. unfold uid at 1. cbn beta iota. exact Hc.
Qed.

Lemma updateFoodItem_rewritesMeal (nutriDate mealName : string) (dayISO : Z)
  (days : list Day) (sel : Day) (itemId : Val) (patch : Obj) (n : nat) :
  isoDateFromInput h nutriDate = Some dayISO ->
  selectedDay h nutriDate days = Some sel ->
  rewritesMeal h nutriDate mealName dayISO days sel
    (updateFoodItem h nutriDate mealName itemId patch days) n n
    (map (fun it => if strict_eq (get (Some it) "id") itemId
                    then normalizeFoodItem (Some (merge it patch))
                    else it) (mealItems (mealsOrEmpty sel) mealName)).
Proof.
  intros Hiso Hsel.
  destruct (upsertDay_rewritesMeal nutriDate mealName dayISO days sel
              (map (fun it => if strict_eq (get (Some it) "id") itemId
                              then normalizeFoodItem (Some (merge it patch))
                              else it) (mealItems (mealsOrEmpty sel) mealName))
              n n Hiso) as (days' & dst & Hc & Hrest).
  exists days', dst. split; [| exact Hrest].
  unfold updateFoodItem.
  rewrite (bind_run _ _ n n sel) by (by rewrite Hsel). exact Hc.
Qed.

Lemma removeFoodItem_rewritesMeal (nutriDate mealName : string) (dayISO : Z)
  (days : list Day) (sel : Day) (itemId : Val) (n : nat) :
  isoDateFromInput h nutriDate = Some dayISO ->
  selectedDay h nutriDate days = Some sel ->
  rewritesMeal h nutriDate mealName dayISO days sel
    (removeFoodItem h nutriDate mealName itemId days) n n
    (List.filter (fun it => negb (strict_eq (get (Some it) "id") itemId))
                 (mealItems (mealsOrEmpty sel) mealName)).
Proof.
  intros Hiso Hsel.
  destruct (upsertDay_rewritesMeal nutriDate mealName dayISO days sel
              (List.filter (fun it => negb (strict_eq (get (Some it) "id") itemId))
                           (mealItems (mealsOrEmpty sel) mealName))
              n n Hiso) as (days' & dst & Hc & Hrest).
  exists days', dst. split; [| exact Hrest].
  unfold removeFoodItem.
  rewrite (bind_run _ _ n n sel) by (by rewrite Hsel). exact Hc.
Qed.

End Selected.

(** X13. With a valid date chosen, each food edit rewrites one meal of the
    day shown and no other meal, and leaves every day of another calendar
    date in the collection.  [addFoodToMeal] puts the item, normalized and
    under the identifier drawn, before the items the meal had;
    [updateFoodItem] merges the patch into the items with the identifier,
    normalizes them, and keeps the others and the number of items;
    [removeFoodItem] drops the items with the identifier.  With a date that
    is none the three throw. *)
Theorem food_edits_selected_meal (h : Host) (nutriDate mealName : string)
  (days : list Day) (n : nat) (dayISO : Z) (sel : Day) :
  isoDateFromInput h nutriDate = Some dayISO ->
  selectedDay h nutriDate days = Some sel ->
  let before := mealItems (mealsOrEmpty sel) mealName in
  let result := rewritesMeal h nutriDate mealName dayISO days sel in
  (forall item : Obj,
     result (addFoodToMeal h nutriDate mealName item days) n (S n)
       (normalizeFoodItem (Some (<["id" := VStr (rand h n)]> item)) :: before))
  /\ (forall (itemId : Val) (patch : Obj),
        result (updateFoodItem h nutriDate mealName itemId patch days) n n
          (map (fun it => if strict_eq (get (Some it) "id") itemId
                          then normalizeFoodItem (Some (merge it patch))
                          else it) before)
        /\ length (mealItems (mealsOrEmpty sel) mealName)
           = length (map (fun it => if strict_eq (get (Some it) "id") itemId
                          then normalizeFoodItem (Some (merge it patch))
                          else it) before))
  /\ (forall itemId : Val,
        result (removeFoodItem h nutriDate mealName itemId days) n n
          (List.filter (fun it => negb (strict_eq (get (Some it) "id") itemId))
                       before))
  /\ (forall (bad : string) (item : Obj) (itemId : Val) (patch : Obj),
        isoDateFromInput h bad = None ->
        addFoodToMeal h bad mealName item days n = None
        /\ updateFoodItem h bad mealName itemId patch days n = None
        /\ removeFoodItem h bad mealName itemId days n = None).
Proof.
  intros Hiso Hsel before result.
  split; [| split; [| split]].
  - intros item. by apply addFoodToMeal_rewritesMeal.
  - intros itemId patch. split; [by apply updateFoodItem_rewritesMeal |].
    by rewrite length_map.
  - intros itemId. by apply removeFoodItem_rewritesMeal.
  - intros bad item itemId patch Hbad.
    unfold addFoodToMeal, updateFoodItem, removeFoodItem, selectedDay, bind.
    by rewrite Hbad.
Qed.

Section Edits.
Context (h : Host).

Lemma strict_eq_VStr (s : string) : strict_eq (VStr s) (VStr s) = true.
Proof. cbn. apply String.eqb_refl. Qed.

Lemma filter_all {A : Type} (p : A -> bool) (l : list A) :
  Forall (fun x => p x = true) l -> List.filter p l = l.
Proof.
  induction 1 as [| x l Hx _ IH]; [done |].
  cbn [List.filter]. by rewrite Hx, IH.
Qed.

Lemma normalize_id (it : Obj) :
  get (Some (normalizeFoodItem (Some it))) "id" = get (Some it) "id".
Proof.
  unfold normalizeFoodItem, get, spread. cbn [from_option Datatypes.id].
  by rewrite !lookup_insert_ne by done.
Qed.

Lemma find_filter_none {A : Type} (p q : A -> bool) (l : list A) :
  List.find p l = None -> List.find p (List.filter q l) = None.
Proof.
  induction l as [| x l IH]; [done |]. cbn [List.find List.filter].
  destruct (p x) eqn:E; [done |]. intros H.
  destruct (q x); cbn [List.find]; rewrite ?E; by apply IH.
Qed.

Lemma find_none_all {A : Type} (p : A -> bool) (l : list A) :
  (forall x, In x l -> p x = false) -> List.find p l = None.
Proof.
  induction l as [| x l IH]; [done |]. intros H. cbn [List.find].
  rewrite (H x) by by left. apply IH. intros y Hy. apply H. by right.
Qed.

End Edits.

(** X14. Adding a food item and then removing the item with the identifier
    it was given leaves every meal of the day shown with the items it had,
    provided no item of the meal already carried that identifier. *)
Theorem add_then_remove_food (h : Host) (nutriDate mealName : string)
  (item : Obj) (days : list Day) (n : nat) (dayISO : Z) (sel : Day) :
  isoDateFromInput h nutriDate = Some dayISO ->
  selectedDay h nutriDate days = Some sel ->
  Forall (fun it => strict_eq (get (Some it) "id") (VStr (rand h n)) = false)
         (mealItems (mealsOrEmpty sel) mealName) ->
  exists (days1 days2 : list Day) (n1 n2 : nat) (dst : Day),
    addFoodToMeal h nutriDate mealName item days n = Some (days1, n1)
    /\ removeFoodItem h nutriDate mealName (VStr (rand h n)) days1 n1
       = Some (days2, n2)
    /\ selectedDay h nutriDate days2 = Some dst
    /\ forall m : string,
         mealItems (mealsOrEmpty dst) m = mealItems (mealsOrEmpty sel) m.
Proof.
  intros Hiso Hsel Hfresh.
  destruct (addFoodToMeal_rewritesMeal h nutriDate mealName dayISO days sel
              item n Hiso Hsel) as (days1 & d1 & Ha & Hs1 & Hm1 & Hi1 & Ho1 & _).
  destruct (removeFoodItem_rewritesMeal h nutriDate mealName dayISO days1 d1
              (VStr (rand h n)) (drawnAfter h dayISO days (S n)) Hiso Hs1)
    as (days2 & d2 & Hr & Hs2 & Hm2 & Hi2 & Ho2 & _).
  exists days1, days2, (drawnAfter h dayISO days (S n)),
    (drawnAfter h dayISO days1 (drawnAfter h dayISO days (S n))), d2.
  split; [exact Ha |]. split; [exact Hr |]. split; [exact Hs2 |].
  intros m. destruct (decide (m = mealName)) as [-> | Hne].
  - rewrite Hi2, Hi1. cbn [List.filter].
    rewrite normalize_id. unfold get at 1. rewrite lookup_insert_eq.
    cbn [from_option Datatypes.id]. rewrite strict_eq_VStr. cbn [negb].
    apply filter_all. eapply Forall_impl; [exact Hfresh |].
    cbn beta. by intros it ->.
  - rewrite (Ho2 m Hne). by apply Ho1.
Qed.

(** X15. Deleting the day shown: with a valid date chosen and at most one
    day per calendar date, [deleteDay] called with the date of the day
    shown leaves no day for the chosen date, so that the day shown becomes
    a blank day whose totals are zero; every day with another date stays,
    and no day is added. *)
Theorem deleteDay_selected (h : Host) (nutriDate : string) (days : list Day)
  (dayISO : Z) (sel : Day) :
  isoDateFromInput h nutriDate = Some dayISO ->
  selectedDay h nutriDate days = Some sel ->
  oneDayPerDate h days ->
  let days' := deleteDay (date sel) days in
  selectedDay h nutriDate days' = Some (blankDay VNull dayISO)
  /\ calcDayTotals (selectedDay h nutriDate days') = zeroTotals
  /\ (forall d, d ∈ days' <-> d ∈ days /\ date d <> date sel)
  /\ (length days' <= length days)%nat
  /\ deleteDay (date sel) days' = days'.
Proof.
  intros Hiso Hsel Hone days'.
  assert (Hin : forall d, d ∈ days' <-> d ∈ days /\ date d <> date sel).
  { intros d. unfold days', deleteDay. rewrite list_elem_of_filter. tauto. }
  assert (Hnone : List.find (fun d => sameDayISO h (date d) (Some dayISO)) days'
                  = None).
  { unfold selectedDay in Hsel. rewrite Hiso in Hsel.
    destruct (List.find _ days) as [d0 |] eqn:E.
    - cbn in Hsel. injection Hsel as <-.
      apply find_some in E as [Hd0 Hp0].
      destruct (List.find _ days') as [x |] eqn:Ex; [| done].
      apply find_some in Ex as [Hx Hpx]. exfalso.
      apply list_elem_of_In, Hin in Hx as [Hx Hne].
      apply list_elem_of_In in Hd0.
      apply list_elem_of_lookup in Hx as [i Hi].
      apply list_elem_of_lookup in Hd0 as [j Hj].
      assert (i = j).
      { apply (Hone i j x d0 Hi Hj).
        eapply sameDayISO_trans; [exact Hpx |].
        by rewrite sameDayISO_sym. }
      subst j. congruence.
    - apply find_none_all. intros x Hx.
      apply list_elem_of_In, Hin in Hx as [Hx _].
      apply (find_none _ _ E). by apply list_elem_of_In. }
  assert (Hs : selectedDay h nutriDate days' = Some (blankDay VNull dayISO)).
  { unfold selectedDay. by rewrite Hiso, Hnone. }
  split; [exact Hs |]. split.
  { rewrite Hs. by apply calcDayTotals_no_items. }
  split; [exact Hin |]. split.
  { unfold days', deleteDay. apply length_filter. }
  unfold days', deleteDay. apply list_filter_filter_l. done.
Qed.

Lemma upsertDay_patched (h : Host) (nutriDate : string) (dayISO : Z)
  (p : Patch) (days : list Day) (n : nat) :
  isoDateFromInput h nutriDate = Some dayISO ->
  exists days' : list Day,
    upsertDay h nutriDate p days n = Some (days', drawnAfter h dayISO days n)
    /\ selectedDay h nutriDate days'
       = Some (applyPatch (patched h dayISO days n) p)
    /\ (forall d, d ∈ days ->
          sameDayISO h (date d) (Some dayISO) = false -> d ∈ days').
Proof.
  intros Hiso.
  destruct (upsertAt_patched h dayISO p days n) as (days' & Hup & Hfind & Hkeep).
  exists days'. split; [| split; [| done]].
  - unfold upsertDay. by rewrite (bind_run _ _ n n dayISO) by (by rewrite Hiso).
  - unfold selectedDay. by rewrite Hiso, Hfind.
Qed.

(** X16. Typing a weight or notes for the day shown changes that field of
    the day shown and nothing else of it: the meals, hence the totals, the
    date and the other field stay, and the days of other calendar dates
    stay in the collection.  With a date that is none the edit throws. *)
Theorem weight_and_notes_edits (h : Host) (nutriDate : string)
  (days : list Day) (n : nat) (dayISO : Z) (sel : Day) (v : Val) :
  isoDateFromInput h nutriDate = Some dayISO ->
  selectedDay h nutriDate days = Some sel ->
  (exists (days' : list Day) (dst : Day),
     upsertDay h nutriDate (weightPatch v) days n
     = Some (days', drawnAfter h dayISO days n)
     /\ selectedDay h nutriDate days' = Some dst
     /\ weight dst = v /\ notes dst = notes sel
     /\ meals dst = meals sel /\ date dst = date sel
     /\ calcDayTotals (Some dst) = calcDayTotals (Some sel)
     /\ (forall d, d ∈ days ->
           sameDayISO h (date d) (Some dayISO) = false -> d ∈ days'))
  /\ (exists (days' : list Day) (dst : Day),
        upsertDay h nutriDate (notesPatch v) days n
        = Some (days', drawnAfter h dayISO days n)
        /\ selectedDay h nutriDate days' = Some dst
        /\ notes dst = v /\ weight dst = weight sel
        /\ meals dst = meals sel /\ date dst = date sel
        /\ calcDayTotals (Some dst) = calcDayTotals (Some sel)
        /\ (forall d, d ∈ days ->
              sameDayISO h (date d) (Some dayISO) = false -> d ∈ days'))
  /\ (forall (bad : string) (p : Patch),
        isoDateFromInput h bad = None -> upsertDay h bad p days n = None).
Proof.
  intros Hiso Hsel.
  assert (Hm : meals (patched h dayISO days n) = meals sel
               /\ date (patched h dayISO days n) = date sel
               /\ notes (patched h dayISO days n) = notes sel
               /\ weight (patched h dayISO days n) = weight sel).
  { unfold selectedDay in Hsel. rewrite Hiso in Hsel. injection Hsel as <-.
    unfold patched. by destruct (List.find _ days). }
  destruct Hm as (Hm & Hd & Hn & Hw).
  split; [| split].
  - destruct (upsertDay_patched h nutriDate dayISO (weightPatch v) days n Hiso)
      as (days' & Hup & Hs & Hkeep).
    exists days', (applyPatch (patched h dayISO days n) (weightPatch v)).
    split; [done |]. split; [done |]. split; [done |]. split; [done |].
    split; [done |]. split; [done |]. split; [| done].
    unfold calcDayTotals, mealsOf. cbn [applyPatch weightPatch p_meals meals].
    by rewrite Hm.
  - destruct (upsertDay_patched h nutriDate dayISO (notesPatch v) days n Hiso)
      as (days' & Hup & Hs & Hkeep).
    exists days', (applyPatch (patched h dayISO days n) (notesPatch v)).
    split; [done |]. split; [done |]. split; [done |]. split; [done |].
    split; [done |]. split; [done |]. split; [| done].
    unfold calcDayTotals, mealsOf. cbn [applyPatch notesPatch p_meals meals].
    by rewrite Hm.
  - intros bad p Hbad. unfold upsertDay, bind, lift. by rewrite Hbad.
Qed.

(** X17. Choosing a day of the history for editing: with at most one day per
    calendar date, setting the date field to [toISODateInput] of the date
    of a stored day whose local year has four digits makes that day the
    day shown. *)
Theorem history_edit_selects_day (h : Host) (days : list Day) (d : Day)
  (t : Z) :
  d ∈ days ->
  date d = Some t ->
  1000 <= getFullYear h t <= 9999 ->
  oneDayPerDate h days ->
  selectedDay h (toISODateInput h (date d)) days = Some d.
Proof.
  intros Hd Ht Hy Hone. rewrite Ht. unfold selectedDay.
  rewrite (isoDateFromInput_toISODateInput h t Hy). f_equal.
  set (m := localDay h t * msPerDay - tz h).
  assert (Hsame : sameDayISO h (date d) (Some m) = true).
  { rewrite Ht. apply sameDayISO_localDay. unfold m.
    by rewrite localDay_midnight. }
  destruct (List.find _ days) as [x |] eqn:E.
  - cbn. apply find_some in E as [Hx Hpx].
    apply list_elem_of_In, list_elem_of_lookup in Hx as [i Hi].
    apply list_elem_of_lookup in Hd as [j Hj].
    assert (i = j).
    { apply (Hone i j x d Hi Hj).
      eapply sameDayISO_trans; [exact Hpx |]. by rewrite sameDayISO_sym. }
    subst j. congruence.
  - exfalso. apply list_elem_of_In in Hd.
    pose proof (find_none _ _ E d Hd) as Hf. cbn beta in Hf. congruence.
Qed.

Section Workouts.
Context (h : Host).








End Workouts.




Lemma twoOfSeven_oneDayPerDate : oneDayPerDate utcHost twoOfSeven.
Proof.
  apply oneDayPerDate_pairs. unfold twoOfSeven.
  repeat constructor.
Qed.

Lemma twoOfSeven_selected :
  isoDateFromInput utcHost "2024-03-08" = Some (19790 * msPerDay)
  /\ selectedDay utcHost "2024-03-08" twoOfSeven = Some (loggedDay 19790 100).
Proof. split; by vm_compute. Defined.


Lemma saveWorkout_newest_first_witness :
  StronglySorted notBefore
    (saveWorkout (Some (workoutAt "b" 200))
       [workoutAt "a" 100; workoutAt "c" 300]).1.
Proof.
  apply (saveWorkout_newest_first (workoutAt "b" 200)
           [workoutAt "a" 100; workoutAt "c" 300]).
  repeat constructor; by eexists.
Defined.


Lemma food_edits_selected_meal_witness :
  rewritesMeal utcHost "2024-03-08" "Lunch" (19790 * msPerDay) twoOfSeven
    (loggedDay 19790 100)
    (addFoodToMeal utcHost "2024-03-08" "Lunch" egg twoOfSeven) 0%nat 1%nat
    (normalizeFoodItem (Some (<["id" := VStr (rand utcHost 0%nat)]> egg))
       :: mealItems (mealsOrEmpty (loggedDay 19790 100)) "Lunch").
Proof.
  destruct twoOfSeven_selected as [Hiso Hsel].
  destruct (food_edits_selected_meal utcHost "2024-03-08" "Lunch" twoOfSeven
              0%nat (19790 * msPerDay) (loggedDay 19790 100) Hiso Hsel)
    as (Hadd & _).
  exact (Hadd egg).
Defined.

Lemma add_then_remove_food_witness :
  exists (days1 days2 : list Day) (n1 n2 : nat) (dst : Day),
    addFoodToMeal utcHost "2024-03-08" "Lunch" egg twoOfSeven 0%nat
    = Some (days1, n1)
    /\ removeFoodItem utcHost "2024-03-08" "Lunch" (VStr (rand utcHost 0%nat))
         days1 n1 = Some (days2, n2)
    /\ selectedDay utcHost "2024-03-08" days2 = Some dst
    /\ forall m : string,
         mealItems (mealsOrEmpty dst) m
         = mealItems (mealsOrEmpty (loggedDay 19790 100)) m.
Proof.
  apply (add_then_remove_food utcHost "2024-03-08" "Lunch" egg twoOfSeven
           0%nat (19790 * msPerDay) (loggedDay 19790 100));
    [by vm_compute | by vm_compute |].
  repeat constructor.
Defined.

Lemma deleteDay_selected_witness :
  selectedDay utcHost "2024-03-08"
    (deleteDay (date (loggedDay 19790 100)) twoOfSeven)
  = Some (blankDay VNull (19790 * msPerDay)).
Proof.
  apply (deleteDay_selected utcHost "2024-03-08" twoOfSeven
           (19790 * msPerDay) (loggedDay 19790 100));
    [by vm_compute | by vm_compute | exact twoOfSeven_oneDayPerDate].
Defined.

Lemma weight_and_notes_edits_witness :
  exists (days' : list Day) (dst : Day),
    upsertDay utcHost "2024-03-08" (weightPatch (VStr "81.5")) twoOfSeven
      0%nat
    = Some (days', drawnAfter utcHost (19790 * msPerDay) twoOfSeven 0%nat)
    /\ selectedDay utcHost "2024-03-08" days' = Some dst
    /\ weight dst = VStr "81.5" /\ notes dst = notes (loggedDay 19790 100)
    /\ meals dst = meals (loggedDay 19790 100)
    /\ date dst = date (loggedDay 19790 100)
    /\ calcDayTotals (Some dst) = calcDayTotals (Some (loggedDay 19790 100))
    /\ (forall d, d ∈ twoOfSeven ->
          sameDayISO utcHost (date d) (Some (19790 * msPerDay)) = false ->
          d ∈ days').
Proof.
  apply (weight_and_notes_edits utcHost "2024-03-08" twoOfSeven 0%nat
           (19790 * msPerDay) (loggedDay 19790 100) (VStr "81.5"));
    by vm_compute.
Defined.

Lemma history_edit_selects_day_witness :
  selectedDay utcHost (toISODateInput utcHost (date (loggedDay 19793 200)))
    twoOfSeven
  = Some (loggedDay 19793 200).
Proof.
  apply (history_edit_selects_day utcHost twoOfSeven (loggedDay 19793 200)
           (19793 * msPerDay));
    [set_solver | reflexivity | by vm_compute | exact twoOfSeven_oneDayPerDate].
Defined.


Section MealTotals.







End MealTotals.



Section Typed.
Context (h : Host).






End Typed.




